(** * VentureLens: the pipeline orchestration engine, embedded and verified

    A shallow embedding of the orchestration core of VentureLens
    (src/graph.py, src/state.py, src/agents/base.py, src/agents/prescreen.py,
    the four src/agents/..._dd.py stages, src/agents/bp_parser.py,
    src/agents/cross_check.py, src/report/report_generator.py,
    src/services/toolkit.py, src/services/llm_inference_simple.py), of the
    search back ends (src/services/utils.py) and of the enterprise data
    providers (src/services/enterprise_sources/manager.py), together with the
    properties the specification states about it and further properties the
    code has.

    Conventions of the embedding:
    - Python values that come out of [json.loads] or go into a state dict are
      values of [pyval]; dicts are stdpp [gmap]s (Python dict equality does
      not depend on insertion order);
    - Python floats are IEEE binary64 numbers, i.e. Rocq's primitive floats;
    - code that can raise returns a [Result]; [except Exception] is
      [try_except];
    - a stage mutates the state dict in place, so a stage body is a function
      [VentureLensState -> Result unit * VentureLensState]: the mutations
      made before an exception are still visible to the handler;
    - the outside world (search back ends, the completion service, the
      clock, the file system) is an explicit environment that theorems
      quantify over. *)

From Stdlib Require Import ZArith Ascii String.
From Stdlib Require Import Floats.PrimFloat Floats.SpecFloat Floats.FloatOps.
From stdpp Require Import gmap strings list fin_maps pretty.

Set Warnings "-inexact-float,-register-all".
Local Open Scope string_scope.

(** ** Python values, truthiness, exceptions *)

Module Py.

Inductive pyval :=
| PNone
| PBool (b : bool)
| PInt (z : Z)
| PFloat (f : float)
| PStr (s : string)
| PList (l : list pyval)
| PDict (d : gmap string pyval).

(** [bool(v)] *)
Definition truthy (v : pyval) : bool :=
  match v with
  | PNone => false
  | PBool b => b
  | PInt z => negb (z =? 0)%Z
  | PFloat f => negb (PrimFloat.eqb f 0%float)
  | PStr s => negb (String.eqb s "")
  | PList l => match l with [] => false | _ => true end
  | PDict d => match map_to_list d with [] => false | _ => true end
  end.

(** [d.get(key, default)] on a dict of Python values *)
Definition dict_get (d : gmap string pyval) (key : string) (default : pyval) : pyval :=
  match d !! key with Some v => v | None => default end.

(** A dict literal *)
Definition py_dict (items : list (string * pyval)) : pyval := PDict (list_to_map items).

(** [target.update(other)]: the entries of [other] are written over those
    of [target]. An empty list or string is an empty iterable of pairs and
    changes nothing. Any other argument that is not a mapping is taken to
    raise (a non-empty list of two-element lists, which Python would read
    as key and value pairs, included). *)
Definition dict_update (target : gmap string pyval) (other : pyval)
    : gmap string pyval + string :=
  match other with
  | PDict d => inl (d ∪ target)
  | PList [] => inl target
  | PStr EmptyString => inl target
  | _ => inr "object is not iterable as key and value pairs"
  end.

(** An exception object: its class name and [str(e)]. Only subclasses of
    [Exception] are modelled, which is what [except Exception] catches. *)
Record PyExn := mkExn { exn_class : string; exn_str : string }.

Inductive Result (A : Type) :=
| Ok (a : A)
| Raise (e : PyExn).
Arguments Ok {A} a.
Arguments Raise {A} e.

#[export] Instance Result_fmap : FMap Result := fun A B f r =>
  match r with Ok a => Ok (f a) | Raise e => Raise e end.
#[export] Instance Result_ret : MRet Result := fun A a => Ok a.
#[export] Instance Result_bind : MBind Result := fun A B k r =>
  match r with Ok a => k a | Raise e => Raise e end.

(** [try: body  except Exception as e: handler(e)] *)
Definition try_except {A} (body : Result A) (handler : PyExn -> Result A) : Result A :=
  match body with Ok a => Ok a | Raise e => handler e end.

Definition TypeError (msg : string) : PyExn := mkExn "TypeError" msg.

End Py.
Export Py.

(** ** Tool registry and dispatch (src/services/toolkit.py) *)

Module Toolkit.

(** A registered tool: [BaseTool] with its [execute] coroutine, called with keyword arguments.
    The handler is arbitrary code, so it is any function that returns or
    raises. *)
Record BaseTool := mkTool {
  name : string;
  description : string;
  get_parameters_schema : pyval;
  execute : gmap string pyval -> Result pyval;
}.

(** [BaseTool.to_openai_format] *)
Definition to_openai_format (t : BaseTool) : pyval :=
  PDict (<["type" := PStr "function"]>
         (<["function" := PDict (<["name" := PStr (name t)]>
                                 (<["description" := PStr (description t)]>
                                  (<["parameters" := get_parameters_schema t]> ∅)))]> ∅)).

(** The two-field dict [{"success": False, "error": msg}] *)
Definition failure (msg : string) : pyval :=
  PDict (<["success" := PBool false]> (<["error" := PStr msg]> ∅)).

(** [VentureLensToolkit.execute_tool], as its callers call it:
    [toolkit.execute_tool(tool_name, **kwargs)], with [tools] for
    [self.tools]. The signature is [execute_tool(self, tool_name, **kwargs)],
    so [self] and [tool_name] are bound by position, and an argument map that
    has one of these two names as a key cannot be bound: Python raises
    [TypeError] at the call, before the body and its [try] block are
    entered. Otherwise the body runs with [kwargs] as given. *)
Definition execute_tool (tools : gmap string BaseTool)
    (tool_name : string) (kwargs : gmap string pyval) : Result pyval :=
  match kwargs !! "self", kwargs !! "tool_name" with
  | None, None =>
      match tools !! tool_name with
      | None => Ok (failure ("工具 " ++ tool_name ++ " 不存在"))
      | Some tool =>
          try_except (result ← execute tool kwargs; Ok result)
                     (fun e => Ok (failure (exn_str e)))
      end
  | _, _ => Raise (TypeError "execute_tool() got multiple values for argument")
  end.

(** [VentureLensToolkit.get_tools_for_agent]: the per-stage allow-list,
    filtered by what is registered. *)
Definition tool_mappings (agent_type : string) : list string :=
  if String.eqb agent_type "prescreen" then ["search"; "company_info"; "enterprise_data"]
  else if String.eqb agent_type "industry_dd" then ["search"; "industry_analysis"; "company_info"; "enterprise_data"]
  else if String.eqb agent_type "team_dd" then ["search"; "company_info"; "enterprise_data"]
  else if String.eqb agent_type "fin_dd" then ["search"; "financial_info"; "company_info"; "enterprise_data"]
  else if String.eqb agent_type "risk_dd" then ["search"; "risk_assessment"; "company_info"; "enterprise_data"]
  else if String.eqb agent_type "cross_check" then ["search"; "company_info"; "enterprise_data"]
  else ["search"].

Definition get_tools_for_agent (tools : gmap string BaseTool) (agent_type : string)
    : list BaseTool :=
  omap (fun name => tools !! name) (tool_mappings agent_type).

(** A structured failure: a dict whose [success] is [False] and whose
    [error] is the given text. *)
Definition structured_failure (result : pyval) (msg : string) : Prop :=
  ∃ d : gmap string pyval,
    result = PDict d ∧ d !! "success" = Some (PBool false) ∧ d !! "error" = Some (PStr msg).

Lemma failure_structured msg : structured_failure (failure msg) msg.
Proof.
  exists (<["success" := PBool false]> (<["error" := PStr msg]> ∅)).
  split; [reflexivity|]. split.
  - apply lookup_insert_eq.
  - rewrite lookup_insert_ne by discriminate. apply lookup_insert_eq.
Qed.

(** An argument map with the key [self] or [tool_name] clashes with the
    parameters that the call binds by position: the call raises [TypeError],
    whatever the registry holds, and no tool is run. *)
Lemma execute_tool_keyword_clash (tools : gmap string BaseTool)
    (tool_name : string) (kwargs : gmap string pyval) :
  is_Some (kwargs !! "self") ∨ is_Some (kwargs !! "tool_name") →
  execute_tool tools tool_name kwargs
    = Raise (TypeError "execute_tool() got multiple values for argument").
Proof.
  unfold execute_tool. intros [[v Hv]|[v Hv]]; rewrite Hv; [done|].
  by destruct (kwargs !! "self").
Qed.

(** C7. For every tool name and every argument map that has neither [self]
    nor [tool_name] as a key, [execute_tool] never raises: it always returns
    a value. For a name that is not registered the value is a structured
    failure ([success] false, with an error text naming the tool); when the
    resolved handler raises, the exception is caught and the value is a
    structured failure carrying [str(e)]; when the handler returns, its
    result is passed through. *)
Theorem execute_tool_never_raises (tools : gmap string BaseTool)
    (tool_name : string) (kwargs : gmap string pyval) :
  kwargs !! "self" = None → kwargs !! "tool_name" = None →
  ∃ result, execute_tool tools tool_name kwargs = Ok result ∧
    match tools !! tool_name with
    | None => structured_failure result ("工具 " ++ tool_name ++ " 不存在")
    | Some tool =>
        match execute tool kwargs with
        | Ok r => result = r
        | Raise e => structured_failure result (exn_str e)
        end
    end.
Proof.
  intros Hself Hname. unfold execute_tool. rewrite Hself, Hname.
  destruct (tools !! tool_name) as [tool|] eqn:Hlookup.
  - destruct (execute tool kwargs) as [r|e] eqn:Hexec; simpl.
    + exists r. auto.
    + exists (failure (exn_str e)).
      split; [reflexivity | apply failure_structured].
  - eexists. split; [reflexivity | apply failure_structured].
Qed.

(** A registry with one tool, whose handler raises whatever it is given. *)
Definition example_failing_tools : gmap string BaseTool :=
  {["search" := mkTool "search_information" "搜索" (PDict ∅)
                  (fun _ => Raise (mkExn "ValueError" "no query"))]}.

(** The handler of the registered tool raises on the arguments
    [{"query": "Acme"}], and [execute_tool] answers with the structured
    failure that carries the text of the exception. *)
Lemma execute_tool_never_raises_witness :
  ∃ result,
    execute_tool example_failing_tools "search" {["query" := PStr "Acme"]} = Ok result ∧
    match example_failing_tools !! "search" with
    | None => structured_failure result ("工具 " ++ "search" ++ " 不存在")
    | Some tool =>
        match execute tool {["query" := PStr "Acme"]} with
        | Ok r => result = r
        | Raise e => structured_failure result (exn_str e)
        end
    end.
Proof.
  apply (execute_tool_never_raises example_failing_tools "search" {["query" := PStr "Acme"]}).
  - reflexivity.
  - reflexivity.
Defined.

(** The arguments [{"tool_name": "search"}], as a model may well send them:
    the call [execute_tool("search", **arguments)] raises [TypeError], for a
    registered name as for one that is not registered, and returns no
    structured failure. *)
Lemma execute_tool_never_raises_counterexample :
  execute_tool example_failing_tools "search" {["tool_name" := PStr "search"]}
    = Raise (TypeError "execute_tool() got multiple values for argument") ∧
  execute_tool example_failing_tools "missing" {["tool_name" := PStr "search"]}
    = Raise (TypeError "execute_tool() got multiple values for argument") ∧
  execute_tool ∅ "search" {["self" := PNone]}
    = Raise (TypeError "execute_tool() got multiple values for argument").
Proof. split; [reflexivity|]. split; reflexivity. Qed.

End Toolkit.

(** ** The bounded tool-calling loop (src/agents/base.py) *)

Module ToolLoop.
Import Toolkit.

(** One entry of [response["tool_calls"]]: [tool_call["id"]],
    [tool_call["function"]["name"]], [tool_call["function"]["arguments"]]. *)
Record ToolCall := mkToolCall {
  tc_id : string;
  tc_function_name : string;
  tc_function_arguments : string;
}.

(** What the loop reads from a model response: [response.get("error")],
    [response.get("tool_calls")] (an absent key reads as the empty list) and
    [response.get("content")] (an absent key or [None] reads as the empty
    string; all three are falsy alike). *)
Record Response := mkResponse {
  resp_error : pyval;
  resp_tool_calls : list ToolCall;
  resp_content : string;
}.

(** Entries of the running transcript [messages]. *)
Inductive Message :=
| UserMessage (content : string)
| AssistantMessage (content : string) (tool_calls : list ToolCall)
| ToolMessage (tool_call_id : string) (content : string).

(** Entries of [tool_results]. *)
Record ToolResult := mkToolResult {
  tr_tool_name : string;
  tr_arguments : pyval;
  tr_result : pyval;
}.

(** The local variables of [execute_with_tools]. [llm_calls] is ghost
    state: it counts the calls made to the completion service and is not
    read by the code. *)
Record LoopVars := mkLoopVars {
  messages : list Message;
  iteration : Z;
  final_result : string;
  tool_results : list ToolResult;
  llm_calls : nat;
}.

(** The dict returned by [execute_with_tools]. *)
Record ExecResult := mkExecResult {
  final_response : string;
  res_tool_results : list ToolResult;
  iterations : Z;
  res_messages : list Message;
}.

Inductive Outcome (A : Type) :=
| Returned (a : A)
| Raised (e : PyExn)
| OutOfFuel.
Arguments Returned {A} a.
Arguments Raised {A} e.
Arguments OutOfFuel {A}.

Definition default_max_iterations : Z := 3.

Section Loop.

(** [self.toolkit.tools] and [self.name] *)
Variable tools : gmap string BaseTool.
Variable agent_name : string.

(** [self.llm_service.call_llm_with_tools(messages, tools, system_message)]:
    the completion service, or a stub of it. The first argument is the
    number of calls made before this one, so that a stub may answer by call
    count. *)
Variable call_llm_with_tools :
  nat -> list Message -> list pyval -> string -> Result Response.

(** [json.loads] and [json.dumps(..., ensure_ascii=False)] *)
Variable json_loads : string -> Result pyval.
Variable json_dumps : pyval -> Result string.

Definition tool_mapping (function_name : string) : string :=
  if String.eqb function_name "search_information" then "search"
  else if String.eqb function_name "get_company_info" then "company_info"
  else if String.eqb function_name "analyze_industry" then "industry_analysis"
  else if String.eqb function_name "get_financial_info" then "financial_info"
  else if String.eqb function_name "assess_risks" then "risk_assessment"
  else function_name.

(** [_execute_tool_by_function_name]. The call
    [execute_tool(tool_name, **arguments)] raises [TypeError] before
    [execute_tool] is entered when [arguments] is not a mapping, and, as
    [execute_tool] has it, when it has a key that clashes with a positional
    parameter. *)
Definition _execute_tool_by_function_name (function_name : string) (arguments : pyval)
    : Result pyval :=
  let tool_name := tool_mapping function_name in
  match arguments with
  | PDict kwargs => execute_tool tools tool_name kwargs
  | _ => Raise (TypeError "argument after ** must be a mapping")
  end.

Definition append_message (v : LoopVars) (m : Message) : LoopVars :=
  mkLoopVars (messages v ++ [m]) (iteration v) (final_result v) (tool_results v) (llm_calls v).

Definition append_tool_result (v : LoopVars) (r : ToolResult) : LoopVars :=
  mkLoopVars (messages v) (iteration v) (final_result v) (tool_results v ++ [r]) (llm_calls v).

Definition tool_error_message (tool_call : ToolCall) (e : PyExn) : Message :=
  ToolMessage (tc_id tool_call) ("工具执行错误: " ++ exn_str e).

(** The body of [for tool_call in response["tool_calls"]]: a [try] whose
    handler appends an error entry to the transcript. The two appends that
    precede [json.dumps] stay when [json.dumps] raises. *)
Definition run_tool_call (v : LoopVars) (tool_call : ToolCall) : LoopVars :=
  let tool_name := tc_function_name tool_call in
  match json_loads (tc_function_arguments tool_call) with
  | Raise e => append_message v (tool_error_message tool_call e)
  | Ok arguments =>
      match _execute_tool_by_function_name tool_name arguments with
      | Raise e => append_message v (tool_error_message tool_call e)
      | Ok tool_result =>
          let v := append_tool_result v (mkToolResult tool_name arguments tool_result) in
          let v := append_message v
                     (AssistantMessage ("调用工具 " ++ tool_name) [tool_call]) in
          match json_dumps tool_result with
          | Raise e => append_message v (tool_error_message tool_call e)
          | Ok text => append_message v (ToolMessage (tc_id tool_call) text)
          end
      end
  end.

Definition is_nonempty {A} (l : list A) : bool :=
  match l with [] => false | _ => true end.

(** [while iteration < max_iterations: ...]. Every pass either breaks or
    increments [iteration]; [fuel] bounds the number of passes. *)
Fixpoint while_loop (fuel : nat) (tool_definitions : list pyval) (system_message : string)
    (max_iterations : Z) (v : LoopVars) : Outcome LoopVars :=
  match fuel with
  | O => OutOfFuel
  | S fuel' =>
      if (iteration v <? max_iterations)%Z then
        match call_llm_with_tools (llm_calls v) (messages v) tool_definitions system_message with
        | Raise e => Raised e
        | Ok response =>
            let v := mkLoopVars (messages v) (iteration v) (final_result v)
                                (tool_results v) (S (llm_calls v)) in
            if truthy (resp_error response) then Returned v
            else
              let v := if is_nonempty (resp_tool_calls response)
                       then fold_left run_tool_call (resp_tool_calls response) v
                       else v in
              if negb (String.eqb (resp_content response) "")
                 && negb (is_nonempty (resp_tool_calls response))
              then Returned (mkLoopVars (messages v) (iteration v) (resp_content response)
                                        (tool_results v) (llm_calls v))
              else while_loop fuel' tool_definitions system_message max_iterations
                     (mkLoopVars (messages v) (iteration v + 1) (final_result v)
                                 (tool_results v) (llm_calls v))
        end
      else Returned v
  end.

(** [BaseAgent.execute_with_tools]; the second component is the ghost count
    of calls to the completion service. *)
Definition execute_with_tools (prompt system_message : string) (max_iterations : Z)
    : Outcome (ExecResult * nat) :=
  let tool_definitions := to_openai_format <$> get_tools_for_agent tools agent_name in
  let v := mkLoopVars [UserMessage prompt] 0 "" [] 0 in
  match while_loop (S (Z.to_nat max_iterations)) tool_definitions system_message
                   max_iterations v with
  | Returned v =>
      Returned (mkExecResult (final_result v) (tool_results v) (iteration v) (messages v),
                llm_calls v)
  | Raised e => Raised e
  | OutOfFuel => OutOfFuel
  end.


(** Executing tool calls touches only the transcript and [tool_results]. *)
Lemma run_tool_call_frame v tool_call :
  iteration (run_tool_call v tool_call) = iteration v ∧
  final_result (run_tool_call v tool_call) = final_result v ∧
  llm_calls (run_tool_call v tool_call) = llm_calls v.
Proof.
  unfold run_tool_call.
  destruct (json_loads _) as [arguments|e]; [|done].
  destruct (_execute_tool_by_function_name _ _) as [tool_result|e]; [|done].
  destruct (json_dumps _); done.
Qed.

Lemma run_tool_calls_frame tool_calls : ∀ v,
  iteration (fold_left run_tool_call tool_calls v) = iteration v ∧
  final_result (fold_left run_tool_call tool_calls v) = final_result v ∧
  llm_calls (fold_left run_tool_call tool_calls v) = llm_calls v.
Proof.
  induction tool_calls as [|tool_call rest IH]; intros v; simpl; [done|].
  destruct (IH (run_tool_call v tool_call)) as (Hi & Hf & Hc).
  destruct (run_tool_call_frame v tool_call) as (Hi' & Hf' & Hc').
  rewrite Hi, Hf, Hc. done.
Qed.



(** C3, as the code has it. When the first response carries non-empty text,
    no tool calls and no error flag, and the bound allows a first pass, the
    loop returns after that single model call with [final_response] equal to
    the text, an untouched transcript, and [iterations = 0]: the [break]
    comes before [iteration += 1], so the reported count is the number of
    completed tool rounds, not the number of model calls. *)
Theorem tool_loop_immediate_finish (prompt system_message : string) (max_iterations : Z)
    (response : Response) :
  (0 < max_iterations)%Z →
  call_llm_with_tools 0 [UserMessage prompt]
    (to_openai_format <$> get_tools_for_agent tools agent_name) system_message
    = Ok response →
  truthy (resp_error response) = false →
  resp_tool_calls response = [] →
  resp_content response ≠ "" →
  execute_with_tools prompt system_message max_iterations
    = Returned (mkExecResult (resp_content response) [] 0 [UserMessage prompt], 1).
Proof.
  intros Hmax Hcall Herr Hcalls Hcontent.
  unfold execute_with_tools. simpl.
  destruct (Z.ltb_spec 0 max_iterations) as [_|Hge]; [|lia].
  rewrite Hcall, Herr, Hcalls. simpl.
  destruct (String.eqb_spec (resp_content response) "") as [Heq|_]; [done|].
  reflexivity.
Qed.

End Loop.

(** A stub that answers every call with the text ["done"] and no tool
    call, and one that answers every call with one [search_information]
    request. *)
Definition stub_text : nat -> list Message -> list pyval -> string -> Result Response :=
  fun _ _ _ _ => Ok (mkResponse PNone [] "done").


(** Stand-ins for [json.loads] and [json.dumps] in the closed examples. *)
Definition loads_empty_object : string -> Result pyval := fun _ => Ok (PDict ∅).
Definition dumps_placeholder : pyval -> Result string := fun _ => Ok "{}".


Lemma tool_loop_immediate_finish_witness :
  execute_with_tools ∅ "prescreen" stub_text loads_empty_object dumps_placeholder
    "prompt" "system" default_max_iterations
  = Returned (mkExecResult "done" [] 0 [UserMessage "prompt"], 1).
Proof.
  apply (tool_loop_immediate_finish ∅ "prescreen" stub_text loads_empty_object
           dumps_placeholder "prompt" "system" default_max_iterations
           (mkResponse PNone [] "done")).
  - reflexivity.
  - reflexivity.
  - reflexivity.
  - reflexivity.
  - discriminate.
Defined.

(** The specification states a reported iteration count of 1 here. With the stub
    above and the default bound the loop makes one model call and returns the
    stub's text, but reports [iterations = 0]. *)
Lemma tool_loop_immediate_finish_counterexample :
  ∃ res, execute_with_tools ∅ "prescreen" stub_text loads_empty_object dumps_placeholder
           "prompt" "system" default_max_iterations = Returned (res, 1) ∧
         final_response res = "done" ∧
         iterations res = 0%Z ∧
         iterations res ≠ 1%Z.
Proof.
  eexists. split; [reflexivity|]. simpl. repeat split. discriminate.
Qed.

End ToolLoop.

(** ** The combined score (src/report/report_generator.py) *)

Module Score.

Local Open Scope float_scope.

Definition OverflowError (msg : string) : PyExn := mkExn "OverflowError" msg.

(** [float(z)] for a Python int: the nearest binary64 number, ties to even;
    [OverflowError] when that would be infinite. *)
Definition float_of_int (z : Z) : Result float :=
  let f := SF2Prim (binary_normalize prec emax z 0 false) in
  if PrimFloat.is_infinity f
  then Raise (OverflowError "int too large to convert to float")
  else Ok f.

(** [value * weight] where [weight] is a float: ints (and bools, which are
    ints) are converted first; anything else raises [TypeError]. *)
Definition mul_by_weight (value : pyval) (weight : float) : Result float :=
  match value with
  | PFloat f => Ok (f * weight)
  | PInt z => f ← float_of_int z; Ok (f * weight)
  | PBool b => Ok ((if b then 1 else 0) * weight)
  | _ => Raise (TypeError "unsupported operand type(s) for *")
  end.

(** The [weights] dict of [_calculate_overall_score], in its insertion
    order, which is the order [weights.items()] iterates in. *)
Definition weights : list (string * float) :=
  [("industry", 0.3); ("team", 0.25); ("financial", 0.25); ("risk", 0.2)].

(** One pass of [for category, weight in weights.items()] on the pair
    [(weighted_sum, total_weight)]. *)
Definition accumulate (scores : gmap string (gmap string pyval))
    (acc : float * float) (item : string * float) : Result (float * float) :=
  let '(category, weight) := item in
  let '(weighted_sum, total_weight) := acc in
  match scores !! category with
  | Some entry =>
      match entry !! "overall" with
      | Some overall =>
          term ← mul_by_weight overall weight;
          Ok (weighted_sum + term, total_weight + weight)
      | None => Ok acc
      end
  | None => Ok acc
  end.

Fixpoint for_each {A B} (body : A -> B -> Result A) (acc : A) (items : list B) : Result A :=
  match items with
  | [] => Ok acc
  | item :: rest => acc' ← body acc item; for_each body acc' rest
  end.

(** [ReportGeneratorAgent._calculate_overall_score]. The two accumulators
    start as the int [0], which the first [+=] converts to the float [0.0];
    the test [total_weight == 0] reads the same on either. *)
Definition _calculate_overall_score (scores : gmap string (gmap string pyval))
    : Result float :=
  '(weighted_sum, total_weight) ← for_each (accumulate scores) (0, 0) weights;
  if total_weight =? 0 then Ok 0
  else Ok (weighted_sum / total_weight).

(** *** The formula of the specification *)

(** The float a numeric [overall] stands for, [None] for other values. *)
Definition number_value (v : pyval) : option float :=
  match v with
  | PFloat f => Some f
  | PInt z => match float_of_int z with Ok f => Some f | Raise _ => None end
  | PBool b => Some (if b then 1 else 0)
  | _ => None
  end.

Definition overall_of (scores : gmap string (gmap string pyval)) (category : string)
    : option pyval :=
  entry ← scores !! category; entry !! "overall".

(** The present categories among [items]: [(overall, weight)] for every
    listed category that carries a numeric [overall], in the order listed. *)
Definition present_in (scores : gmap string (gmap string pyval))
    (items : list (string * float)) : list (float * float) :=
  omap (fun '(category, weight) =>
          overall ← overall_of scores category;
          f ← number_value overall;
          Some (f, weight))
       items.

Definition present (scores : gmap string (gmap string pyval)) : list (float * float) :=
  present_in scores weights.

Definition float_sum (l : list float) : float := fold_left PrimFloat.add l 0.

(** Sum of weight times overall over the present categories, divided by
    the sum of their weights. *)
Definition weighted_mean (l : list (float * float)) : float :=
  float_sum ((fun '(overall, weight) => overall * weight) <$> l)
  / float_sum (snd <$> l).

(** Every [overall] that is there is a number. *)
Definition numeric_overalls (scores : gmap string (gmap string pyval)) : Prop :=
  ∀ category v, overall_of scores category = Some v → is_Some (number_value v).

(** [{category: {"overall": v}}] for the listed categories. *)
Definition scores_with (l : list (string * pyval)) : gmap string (gmap string pyval) :=
  list_to_map ((fun '(category, v) => (category, {["overall" := v]})) <$> l).

Lemma mul_by_weight_number v f weight :
  number_value v = Some f → mul_by_weight v weight = Ok (f * weight).
Proof.
  destruct v as [| b | z | g | | |]; simpl; try discriminate.
  - intros [= <-]. reflexivity.
  - destruct (float_of_int z); [intros [= <-]; reflexivity | discriminate].
  - intros [= <-]. reflexivity.
Qed.

Lemma accumulate_overall_of scores weighted_sum total_weight category weight :
  accumulate scores (weighted_sum, total_weight) (category, weight) =
  match overall_of scores category with
  | Some overall =>
      term ← mul_by_weight overall weight;
      Ok (weighted_sum + term, total_weight + weight)
  | None => Ok (weighted_sum, total_weight)
  end.
Proof.
  unfold accumulate, overall_of.
  destruct (scores !! category) as [entry|]; simpl; [|reflexivity].
  destruct (entry !! "overall"); reflexivity.
Qed.

Lemma present_in_cons scores category weight rest :
  present_in scores ((category, weight) :: rest) =
  match overall_of scores category with
  | Some overall =>
      match number_value overall with
      | Some f => (f, weight) :: present_in scores rest
      | None => present_in scores rest
      end
  | None => present_in scores rest
  end.
Proof.
  unfold present_in. cbn [omap list_omap].
  destruct (overall_of scores category) as [overall|]; [|reflexivity].
  cbn. destruct (number_value overall); reflexivity.
Qed.

(** The loop computes the two sums over the present categories, each
    started from the value the accumulator had. *)
Lemma for_each_accumulate scores :
  numeric_overalls scores →
  ∀ items weighted_sum total_weight,
    for_each (accumulate scores) (weighted_sum, total_weight) items =
    Ok (fold_left PrimFloat.add
          ((fun '(overall, weight) => overall * weight) <$> present_in scores items)
          weighted_sum,
        fold_left PrimFloat.add (snd <$> present_in scores items) total_weight).
Proof.
  intros Hnum items.
  induction items as [|[category weight] rest IH]; intros weighted_sum total_weight.
  - reflexivity.
  - cbn [for_each]. rewrite accumulate_overall_of, present_in_cons.
    destruct (overall_of scores category) as [overall|] eqn:Hov.
    + destruct (Hnum category overall Hov) as [f Hf].
      rewrite (mul_by_weight_number overall f weight Hf), Hf.
      cbn. apply IH.
    + cbn. apply IH.
Qed.

(** The weights of a non-empty selection of categories do not sum to
    zero: there are fifteen selections, each summed in binary64. *)
Lemma present_weights_nonzero scores :
  present scores ≠ [] → (float_sum (snd <$> present scores) =? 0) = false.
Proof.
  unfold present, weights. rewrite !present_in_cons.
  change (present_in scores []) with (@nil (float * float)).
  destruct (overall_of scores "industry") as [v1|];
    [destruct (number_value v1)|];
    (destruct (overall_of scores "team") as [v2|];
       [destruct (number_value v2)|]);
    (destruct (overall_of scores "financial") as [v3|];
       [destruct (number_value v3)|]);
    (destruct (overall_of scores "risk") as [v4|];
       [destruct (number_value v4)|]);
    intros Hpresent; first [ contradiction | vm_compute; reflexivity ].
Qed.

(** With no category present the score is [0.0]. *)
Lemma calculate_overall_score_empty scores :
  numeric_overalls scores → present scores = [] → _calculate_overall_score scores = Ok 0.
Proof.
  intros Hnum Hempty. unfold _calculate_overall_score.
  rewrite (for_each_accumulate scores Hnum). fold (present scores).
  rewrite Hempty. reflexivity.
Qed.

(** C6. For a scores mapping in which some of the four categories carry a
    numeric [overall], the combined score is the sum of overall times weight
    over the present categories divided by the sum of their weights, with
    weights industry 0.3, team 0.25, financial 0.25, risk 0.2, in binary64
    arithmetic. Overalls 8, 6, 7, 9 give 7.45; industry 8 and team 6 alone
    give 3.9000000000000004 / 0.55 = 7.0909090909090899, which is 7.09 to two
    decimals. *)
Theorem calculate_overall_score_weighted :
  (∀ scores, numeric_overalls scores → present scores ≠ [] →
     _calculate_overall_score scores = Ok (weighted_mean (present scores))) ∧
  _calculate_overall_score
    (scores_with [("industry", PInt 8); ("team", PInt 6);
                  ("financial", PInt 7); ("risk", PInt 9)]) = Ok 7.45 ∧
  _calculate_overall_score
    (scores_with [("industry", PFloat 8); ("team", PFloat 6);
                  ("financial", PFloat 7); ("risk", PFloat 9)]) = Ok 7.45 ∧
  (∃ r, _calculate_overall_score
          (scores_with [("industry", PInt 8); ("team", PInt 6)]) = Ok r ∧
        r = (0.3 * 8 + 0.25 * 6) / 0.55 ∧
        (7.085 <? r) = true ∧ (r <? 7.095) = true).
Proof.
  split; [|split; [|split]].
  - intros scores Hnum Hpresent. unfold _calculate_overall_score.
    rewrite (for_each_accumulate scores Hnum). fold (present scores).
    cbn [mbind Result_bind]. fold (float_sum (snd <$> present scores)).
    rewrite (present_weights_nonzero scores Hpresent). reflexivity.
  - vm_compute. reflexivity.
  - vm_compute. reflexivity.
  - eexists. split; [vm_compute; reflexivity|].
    split; [vm_compute; reflexivity|]. split; vm_compute; reflexivity.
Qed.

End Score.

(** ** A decoder for JSON text

    [json.loads] is library code. The properties of the recovery function
    below hold for any decoder; this one, which follows the grammar the
    Python decoder accepts, is what the closed examples run on. Strings are
    byte strings in UTF-8. Error messages carry the decoder's message
    without the line and column suffix. The interpreter's limits on the
    digits of an integer literal and on the depth of nesting are not
    modelled: this decoder reads any number of digits, and nests as deep as
    the text is long. *)

Module Json.

Local Open Scope char_scope.

Definition JSONDecodeError (msg : string) : PyExn := mkExn "JSONDecodeError" msg.
Definition RecursionError (msg : string) : PyExn := mkExn "RecursionError" msg.

Definition is_json_whitespace (c : ascii) : bool :=
  match c with " " | "009" | "010" | "013" => true | _ => false end.

Fixpoint skip_whitespace (s : list ascii) : list ascii :=
  match s with
  | c :: rest => if is_json_whitespace c then skip_whitespace rest else s
  | [] => []
  end.

Definition digit_value (c : ascii) : option Z :=
  let n := Z.of_N (N_of_ascii c) in
  if ((48 <=? n) && (n <=? 57))%Z then Some (n - 48)%Z else None.

Definition hex_value (c : ascii) : option Z :=
  let n := Z.of_N (N_of_ascii c) in
  if ((48 <=? n) && (n <=? 57))%Z then Some (n - 48)%Z
  else if ((97 <=? n) && (n <=? 102))%Z then Some (n - 87)%Z
  else if ((65 <=? n) && (n <=? 70))%Z then Some (n - 55)%Z
  else None.

(** The longest prefix of decimal digits: its digits, most significant
    first, and the rest of the text. *)
Fixpoint take_digits (s : list ascii) : list Z * list ascii :=
  match s with
  | c :: rest =>
      match digit_value c with
      | Some d => let '(ds, rest') := take_digits rest in (d :: ds, rest')
      | None => ([], s)
      end
  | [] => ([], [])
  end.

Definition digits_to_Z (ds : list Z) : Z :=
  fold_left (fun acc d => (10 * acc + d)%Z) ds 0%Z.

Definition byte (n : Z) : ascii := ascii_of_N (Z.to_N n).

(** UTF-8 encoding of a code point below 0x110000. *)
Definition utf8_encode (cp : Z) : list ascii :=
  if (cp <? 128)%Z then [byte cp]
  else if (cp <? 2048)%Z then [byte (192 + cp / 64); byte (128 + cp mod 64)]
  else if (cp <? 65536)%Z then
    [byte (224 + cp / 4096); byte (128 + (cp / 64) mod 64); byte (128 + cp mod 64)]
  else
    [byte (240 + cp / 262144); byte (128 + (cp / 4096) mod 64);
     byte (128 + (cp / 64) mod 64); byte (128 + cp mod 64)].

Definition hex4 (a b c d : ascii) : option Z :=
  x ← hex_value a; y ← hex_value b; z ← hex_value c; w ← hex_value d;
  Some (((x * 16 + y) * 16 + z) * 16 + w)%Z.

(** The body of a string literal, after the opening quote: the decoded
    bytes, in reverse in [acc], and the text after the closing quote. *)
Fixpoint scan_string (s : list ascii) (acc : list ascii) : Result (list ascii * list ascii) :=
  match s with
  | [] => Raise (JSONDecodeError "Unterminated string starting at")
  | "034" :: rest => Ok (rev acc, rest)
  | "\" :: rest =>
      match rest with
      | "034" :: rest' => scan_string rest' ("034" :: acc)
      | "\" :: rest' => scan_string rest' ("\" :: acc)
      | "/" :: rest' => scan_string rest' ("/" :: acc)
      | "b" :: rest' => scan_string rest' ("008" :: acc)
      | "f" :: rest' => scan_string rest' ("012" :: acc)
      | "n" :: rest' => scan_string rest' ("010" :: acc)
      | "r" :: rest' => scan_string rest' ("013" :: acc)
      | "t" :: rest' => scan_string rest' ("009" :: acc)
      | "u" :: a :: b :: c :: d :: rest' =>
          match hex4 a b c d with
          | None => Raise (JSONDecodeError "Invalid \uXXXX escape")
          | Some hi =>
              match rest' with
              | "\" :: "u" :: a' :: b' :: c' :: d' :: rest'' =>
                  match hex4 a' b' c' d' with
                  | Some lo =>
                      if ((55296 <=? hi) && (hi <=? 56319)
                          && (56320 <=? lo) && (lo <=? 57343))%Z
                      then scan_string rest''
                             (rev (utf8_encode (65536 + (hi - 55296) * 1024 + (lo - 56320))%Z)
                              ++ acc)
                      else scan_string rest' (rev (utf8_encode hi) ++ acc)
                  | None => scan_string rest' (rev (utf8_encode hi) ++ acc)
                  end
              | _ => scan_string rest' (rev (utf8_encode hi) ++ acc)
              end
          end
      | "u" :: _ => Raise (JSONDecodeError "Invalid \uXXXX escape")
      | [] => Raise (JSONDecodeError "Unterminated string starting at")
      | _ :: _ => Raise (JSONDecodeError "Invalid \escape")
      end
  | c :: rest =>
      if (N_of_ascii c <? 32)%N
      then Raise (JSONDecodeError "Invalid control character at")
      else scan_string rest (c :: acc)
  end.

(** [float(text)] for a decimal [mantissa * 10^exponent]: the nearest
    binary64 number, ties to even. For a negative exponent the quotient is
    taken with enough extra bits and a sticky bit before rounding. *)
Definition float_of_decimal (negative : bool) (mantissa exponent : Z) : float :=
  let signed (m : Z) := if negative then (- m)%Z else m in
  if (mantissa =? 0)%Z then SF2Prim (S754_zero negative)
  else if (0 <=? exponent)%Z then
    SF2Prim (binary_normalize prec emax (signed (mantissa * 10 ^ exponent)%Z) 0 false)
  else
    let q := (10 ^ (- exponent))%Z in
    let k := (64 + Z.log2_up q)%Z in
    let n := ((mantissa * 2 ^ k) / q)%Z in
    let sticky := if ((mantissa * 2 ^ k) mod q =? 0)%Z then 0%Z else 1%Z in
    SF2Prim (binary_normalize prec emax (signed (2 * n + sticky)%Z) (- k - 1) false).

(** A number literal: an optional minus sign, an integer part (a single
    zero, or digits not starting with zero), an optional fraction, an
    optional exponent. [None] when the text does not start with one. The
    value is an int when there is neither fraction nor exponent, a float
    otherwise. *)
Definition scan_number (s : list ascii) : option (pyval * list ascii) :=
  let '(negative, s1) := match s with "-" :: r => (true, r) | _ => (false, s) end in
  let '(int_digits, s2) :=
    match s1 with
    | "0" :: r => ([0%Z], r)
    | _ => take_digits s1
    end in
  match int_digits with
  | [] => None
  | _ =>
      let '(frac_digits, s3) :=
        match s2 with
        | "." :: r =>
            match take_digits r with
            | ([], _) => ([], s2)
            | (ds, r') => (ds, r')
            end
        | _ => ([], s2)
        end in
      let '(exp, s4) :=
        match s3 with
        | c :: r =>
            if Ascii.eqb c "e" || Ascii.eqb c "E" then
              let '(exp_negative, r1) :=
                match r with
                | "-" :: r' => (true, r')
                | "+" :: r' => (false, r')
                | _ => (false, r)
                end in
              match take_digits r1 with
              | ([], _) => (None, s3)
              | (ds, r') =>
                  (Some (if exp_negative then (- digits_to_Z ds)%Z else digits_to_Z ds), r')
              end
            else (None, s3)
        | [] => (None, s3)
        end in
      match frac_digits, exp with
      | [], None =>
          let z := digits_to_Z int_digits in
          Some (PInt (if negative then (- z)%Z else z), s4)
      | _, _ =>
          let mantissa := digits_to_Z (int_digits ++ frac_digits) in
          let exponent := (default 0%Z exp - Z.of_nat (length frac_digits))%Z in
          Some (PFloat (float_of_decimal negative mantissa exponent), s4)
      end
  end.

Fixpoint strip_prefix (prefix s : list ascii) : option (list ascii) :=
  match prefix, s with
  | [], _ => Some s
  | p :: prefix', c :: s' => if Ascii.eqb p c then strip_prefix prefix' s' else None
  | _ :: _, [] => None
  end.

Definition literal (text : string) (v : pyval) (s : list ascii) : option (pyval * list ascii) :=
  rest ← strip_prefix (list_ascii_of_string text) s; Some (v, rest).

(** [scan_once]: one JSON value at the head of the text. [fuel] bounds the
    nesting and the number of members; running out is the decoder's
    [RecursionError]. *)
Fixpoint scan_value (fuel : nat) (s : list ascii) : Result (pyval * list ascii) :=
  match fuel with
  | O => Raise (RecursionError "maximum recursion depth exceeded")
  | S fuel' =>
      match s with
      | "034" :: rest =>
          '(bytes, rest') ← scan_string rest [];
          Ok (PStr (string_of_list_ascii bytes), rest')
      | "{" :: rest =>
          match skip_whitespace rest with
          | "}" :: rest' => Ok (PDict ∅, rest')
          | rest' => scan_members fuel' rest' ∅
          end
      | "[" :: rest =>
          match skip_whitespace rest with
          | "]" :: rest' => Ok (PList [], rest')
          | rest' => scan_elements fuel' rest' []
          end
      | _ =>
          match
            literal "null" PNone s ∪ literal "true" (PBool true) s
            ∪ literal "false" (PBool false) s ∪ scan_number s
            ∪ literal "NaN" (PFloat PrimFloat.nan) s
            ∪ literal "Infinity" (PFloat PrimFloat.infinity) s
            ∪ literal "-Infinity" (PFloat PrimFloat.neg_infinity) s
          with
          | Some r => Ok r
          | None => Raise (JSONDecodeError "Expecting value")
          end
      end
  end
with scan_members (fuel : nat) (s : list ascii) (acc : gmap string pyval)
    : Result (pyval * list ascii) :=
  match fuel with
  | O => Raise (RecursionError "maximum recursion depth exceeded")
  | S fuel' =>
      match s with
      | "034" :: rest =>
          '(key, s1) ← scan_string rest [];
          match skip_whitespace s1 with
          | ":" :: s2 =>
              '(value, s3) ← scan_value fuel' (skip_whitespace s2);
              let acc := <[string_of_list_ascii key := value]> acc in
              match skip_whitespace s3 with
              | "}" :: s4 => Ok (PDict acc, s4)
              | "," :: s4 => scan_members fuel' (skip_whitespace s4) acc
              | _ => Raise (JSONDecodeError "Expecting ',' delimiter")
              end
          | _ => Raise (JSONDecodeError "Expecting ':' delimiter")
          end
      | _ => Raise (JSONDecodeError "Expecting property name enclosed in double quotes")
      end
  end
with scan_elements (fuel : nat) (s : list ascii) (acc : list pyval)
    : Result (pyval * list ascii) :=
  match fuel with
  | O => Raise (RecursionError "maximum recursion depth exceeded")
  | S fuel' =>
      '(value, s1) ← scan_value fuel' s;
      let acc := (acc ++ [value])%list in
      match skip_whitespace s1 with
      | "]" :: s2 => Ok (PList acc, s2)
      | "," :: s2 => scan_elements fuel' (skip_whitespace s2) acc
      | _ => Raise (JSONDecodeError "Expecting ',' delimiter")
      end
  end.

(** [json.loads(text)]: one value, surrounded by optional whitespace, and
    nothing else. *)
Definition json_loads (text : string) : Result pyval :=
  let s := list_ascii_of_string text in
  match s with
  | "239" :: "187" :: "191" :: _ =>
      Raise (JSONDecodeError "Unexpected UTF-8 BOM (decode using utf-8-sig)")
  | _ =>
      '(value, rest) ← scan_value (S (length s)) (skip_whitespace s);
      match skip_whitespace rest with
      | [] => Ok value
      | _ => Raise (JSONDecodeError "Extra data")
      end
  end.

End Json.

(** ** Structured-output recovery (src/services/llm_inference_simple.py) *)

Module Recovery.

Local Open Scope char_scope.

(** The characters [str.strip()] removes, as UTF-8 byte sequences: the
    ASCII ones (tab to carriage return, the four separators 28 to 31, space)
    and the Unicode spaces U+0085, U+00A0, U+1680, U+2000 to U+200A, U+2028,
    U+2029, U+202F, U+205F, U+3000. *)
Definition py_whitespace : list (list ascii) :=
  ((fun n => [Json.byte n]) <$> [9; 10; 11; 12; 13; 28; 29; 30; 31; 32]%Z)
  ++ ((fun n => [Json.byte 194; Json.byte n]) <$> [133; 160]%Z)
  ++ [[Json.byte 225; Json.byte 154; Json.byte 128]]
  ++ ((fun n => [Json.byte 226; Json.byte 128; Json.byte n])
        <$> [128; 129; 130; 131; 132; 133; 134; 135; 136; 137; 138; 168; 169; 175]%Z)
  ++ [[Json.byte 226; Json.byte 129; Json.byte 159]; [Json.byte 227; Json.byte 128; Json.byte 128]].

(** The text after one leading whitespace character, if there is one. *)
Definition drop_whitespace (table : list (list ascii)) (s : list ascii) : option (list ascii) :=
  list_find (fun w => bool_decide (is_Some (Json.strip_prefix w s))) table
  ≫= fun '(_, w) => Json.strip_prefix w s.

Fixpoint lstrip_with (table : list (list ascii)) (fuel : nat) (s : list ascii) : list ascii :=
  match fuel with
  | O => s
  | S fuel' =>
      match drop_whitespace table s with
      | Some rest => lstrip_with table fuel' rest
      | None => s
      end
  end.

Definition lstrip (s : list ascii) : list ascii := lstrip_with py_whitespace (length s) s.

Definition rstrip (s : list ascii) : list ascii :=
  reverse (lstrip_with (reverse <$> py_whitespace) (length s) (reverse s)).

(** [content.strip()] *)
Definition strip (s : list ascii) : list ascii := rstrip (lstrip s).

(** [s.startswith('{')] *)
Definition startswith_brace (s : list ascii) : bool :=
  match s with "{" :: _ => true | _ => false end.

(** The suffix of the text that starts at the first occurrence of [c]. *)
Fixpoint from_first (c : ascii) (s : list ascii) : option (list ascii) :=
  match s with
  | [] => None
  | x :: rest => if Ascii.eqb x c then Some s else from_first c rest
  end.

(** The prefix of the text that ends at the last occurrence of [c]. *)
Fixpoint up_to_last (c : ascii) (s : list ascii) : option (list ascii) :=
  match s with
  | [] => None
  | x :: rest =>
      match up_to_last c rest with
      | Some prefix => Some (x :: prefix)
      | None => if Ascii.eqb x c then Some [x] else None
      end
  end.

(** [re.search(r'\{.*\}', content, re.DOTALL)], then [.group()]: the match
    starts at the leftmost opening brace that has a closing brace after it,
    and the greedy [.*] runs to the last closing brace of the text. *)
Definition re_search_braces (s : list ascii) : option (list ascii) :=
  match from_first "{" s with
  | Some (open :: rest) => body ← up_to_last "}" rest; Some (open :: body)
  | _ => None
  end.

Local Open Scope string_scope.

(** The fallback structure [{"error": ..., "raw_content": content}] *)
Definition fallback (error content : string) : pyval :=
  PDict (<["error" := PStr error]> (<["raw_content" := PStr content]> ∅)).

Section WithDecoder.

(** [json.loads] *)
Variable json_loads : string -> Result pyval.

(** [LLMInferenceService.parse_json_response] *)
Definition parse_json_response (content : string) : Result pyval :=
  let body : Result pyval :=
    if startswith_brace (strip (list_ascii_of_string content)) then
      json_loads content
    else
      match re_search_braces (list_ascii_of_string content) with
      | Some json_str => json_loads (string_of_list_ascii json_str)
      | None => Ok (fallback "No valid JSON found" content)
      end in
  try_except body (fun e =>
    if String.eqb (exn_class e) "JSONDecodeError"
    then Ok (fallback ("JSON decode error: " ++ exn_str e) content)
    else Ok (fallback ("Parse error: " ++ exn_str e) content)).

(** *** The contract as the specification words it *)

(** The first balanced-brace substring: from the first opening brace to the
    closing brace that brings the nesting depth back to zero. *)
Fixpoint balanced_prefix (depth : nat) (s : list ascii) : option (list ascii) :=
  match s with
  | [] => None
  | x :: rest =>
      if Ascii.eqb x "{" then cons x <$> balanced_prefix (S depth) rest
      else if Ascii.eqb x "}" then
        match depth with
        | O => None
        | S O => Some [x]
        | S depth' => cons x <$> balanced_prefix depth' rest
        end
      else cons x <$> balanced_prefix depth rest
  end.

Definition first_balanced_braces (s : list ascii) : option (list ascii) :=
  from_first "{"%char s ≫= balanced_prefix 0.

(** Strict parse of the whole content; failing that, a parse of the first
    balanced-brace substring; failing that, the default fallback structure. *)
Definition three_tier_contract (content : string) : Result pyval :=
  match json_loads content with
  | Ok v => Ok v
  | Raise _ =>
      match first_balanced_braces (list_ascii_of_string content) with
      | Some json_str =>
          match json_loads (string_of_list_ascii json_str) with
          | Ok v => Ok v
          | Raise _ => Ok (fallback "No valid JSON found" content)
          end
      | None => Ok (fallback "No valid JSON found" content)
      end
  end.

(** What the handlers of [parse_json_response] turn a decoder outcome
    into: the decoded value, or a fallback structure that keeps the raw
    content. *)
Definition recovered (outcome : Result pyval) (content : string) (result : pyval) : Prop :=
  match outcome with
  | Ok v => result = v
  | Raise e => ∃ msg, result = fallback (msg ++ exn_str e) content
  end.

Lemma from_first_sound c s suffix :
  from_first c s = Some suffix →
  ∃ pre rest, s = (pre ++ c :: rest)%list ∧ (c ∉ pre) ∧ suffix = c :: rest.
Proof.
  induction s as [|x s IH]; simpl; [discriminate|].
  destruct (Ascii.eqb_spec x c) as [->|Hne].
  - intros [= <-]. exists [], s. split; [done|]. split; [apply not_elem_of_nil | done].
  - intros (pre & rest & -> & Hpre & ->)%IH. exists (x :: pre), rest.
    split; [done|]. split; [|done].
    intros [->|Hin]%elem_of_cons; [done|]. by apply Hpre.
Qed.

Lemma from_first_complete c pre rest :
  c ∉ pre → from_first c (pre ++ c :: rest) = Some (c :: rest).
Proof.
  induction pre as [|x pre IH]; simpl; intros Hpre.
  - by rewrite Ascii.eqb_refl.
  - destruct (Ascii.eqb_spec x c) as [->|Hne].
    + exfalso. apply Hpre. left.
    + apply IH. intros Hin. apply Hpre. by right.
Qed.

Lemma up_to_last_none c s : c ∉ s → up_to_last c s = None.
Proof.
  induction s as [|x s IH]; simpl; intros Hs; [done|].
  rewrite IH by (intros Hin; apply Hs; by right).
  destruct (Ascii.eqb_spec x c) as [->|Hne]; [|done].
  exfalso. apply Hs. left.
Qed.

Lemma up_to_last_sound c s prefix :
  up_to_last c s = Some prefix →
  ∃ body post, s = (body ++ c :: post)%list ∧ (c ∉ post) ∧ prefix = (body ++ [c])%list.
Proof.
  revert prefix. induction s as [|x s IH]; intros prefix; simpl; [discriminate|].
  destruct (up_to_last c s) as [p|] eqn:Hrec.
  - intros [= <-]. destruct (IH p eq_refl) as (body & post & -> & Hpost & ->).
    by exists (x :: body), post.
  - destruct (Ascii.eqb_spec x c) as [->|Hne]; [|discriminate].
    intros [= <-]. exists [], s. split; [done|]. split; [|done].
    intros (body & post & ->)%list_elem_of_split.
    clear IH. revert Hrec. induction body as [|y body IHb]; simpl.
    + destruct (up_to_last c post); [discriminate|]. by rewrite Ascii.eqb_refl.
    + destruct (up_to_last c (body ++ c :: post)); [discriminate|].
      intros _. by apply IHb.
Qed.

Lemma up_to_last_complete c body post :
  c ∉ post → up_to_last c (body ++ c :: post) = Some (body ++ [c])%list.
Proof.
  intros Hpost. induction body as [|y body IH]; simpl.
  - rewrite (up_to_last_none c post Hpost). by rewrite Ascii.eqb_refl.
  - by rewrite IH.
Qed.

(** The match of the pattern: the text splits as [pre ++ m ++ post] where [m]
    runs from an opening to a closing brace, no opening brace comes before
    it (leftmost), and no closing brace comes after it (greedy). *)
Lemma re_search_braces_spec s m :
  re_search_braces s = Some m ↔
  ∃ pre body post,
    s = (pre ++ "{"%char :: body ++ "}"%char :: post)%list ∧
    ("{"%char ∉ pre) ∧ ("}"%char ∉ post) ∧
    m = ("{"%char :: body ++ ["}"%char])%list.
Proof.
  unfold re_search_braces. split.
  - destruct (from_first "{"%char s) as [[|open rest]|] eqn:Hfirst; try discriminate.
    apply from_first_sound in Hfirst as (pre & rest' & -> & Hpre & [= -> ->]).
    destruct (up_to_last "}"%char rest') as [p|] eqn:Hlast; [|discriminate].
    apply up_to_last_sound in Hlast as (body & post & -> & Hpost & ->).
    intros [= <-]. by exists pre, body, post.
  - intros (pre & body & post & -> & Hpre & Hpost & ->).
    rewrite (from_first_complete _ pre _ Hpre).
    rewrite (up_to_last_complete _ body post Hpost). reflexivity.
Qed.

(** C9, as the code has it. [parse_json_response] never raises. When the
    stripped content starts with an opening brace, the result is the strict
    parse of the whole content, and a fallback structure when that parse
    raises: no substring is tried. Otherwise, when the content has an
    opening brace with a closing brace after it, the result is the parse of
    the text from the first opening brace to the last closing brace, and a
    fallback structure when that parse raises. Otherwise the result is the
    fallback structure. Every fallback structure keeps the raw content. *)
Theorem parse_json_response_tiers (content : string) :
  ∃ result, parse_json_response content = Ok result ∧
    if startswith_brace (strip (list_ascii_of_string content))
    then recovered (json_loads content) content result
    else
      match re_search_braces (list_ascii_of_string content) with
      | Some json_str =>
          recovered (json_loads (string_of_list_ascii json_str)) content result
      | None => result = fallback "No valid JSON found" content
      end.
Proof.
  unfold parse_json_response, recovered.
  destruct (startswith_brace _).
  - destruct (json_loads content) as [v|e]; simpl.
    + by exists v.
    + destruct (String.eqb _ _); eexists; (split; [reflexivity|]); eauto.
  - destruct (re_search_braces _) as [json_str|].
    + destruct (json_loads _) as [v|e]; simpl.
      * by exists v.
      * destruct (String.eqb _ _); eexists; (split; [reflexivity|]); eauto.
    + simpl. by eexists.
Qed.

End WithDecoder.

(** The double quote character, and a model reply: a JSON object followed
    by a remark. *)
Definition dq : string := String "034"%char EmptyString.

Definition reply_with_remark : string :=
  "{" ++ dq ++ "passed" ++ dq ++ ": true} Let me know if you need more.".

(** On [reply_with_remark] the contract of the specification recovers the
    object from the first balanced-brace substring, while the code, whose
    first tier is entered because the text starts with a brace, ends in the
    decode-error fallback. *)
Lemma parse_json_response_counterexample :
  three_tier_contract Json.json_loads reply_with_remark
    = Ok (PDict {["passed" := PBool true]}) ∧
  parse_json_response Json.json_loads reply_with_remark
    = Ok (fallback "JSON decode error: Extra data" reply_with_remark) ∧
  parse_json_response Json.json_loads reply_with_remark
    ≠ three_tier_contract Json.json_loads reply_with_remark.
Proof.
  assert (H1 : three_tier_contract Json.json_loads reply_with_remark
               = Ok (PDict {["passed" := PBool true]})) by (vm_compute; reflexivity).
  assert (H2 : parse_json_response Json.json_loads reply_with_remark
               = Ok (fallback "JSON decode error: Extra data" reply_with_remark))
    by (vm_compute; reflexivity).
  split; [exact H1|]. split; [exact H2|].
  rewrite H1, H2. intros Heq.
  apply (f_equal (fun r => match r with
                           | Ok (PDict d) => bool_decide (is_Some (d !! "error"))
                           | _ => false
                           end)) in Heq.
  vm_compute in Heq. discriminate.
Qed.

End Recovery.

(** ** The run state (src/state.py) *)

Module State.

(** A naive [datetime]: the seven fields of the Python object. *)
Record datetime := mkDatetime {
  year : Z;
  month : Z;
  day : Z;
  hour : Z;
  minute : Z;
  second : Z;
  microsecond : Z;
}.

(** [SearchSource]. The serialiser allows for a [timestamp] of [None]. *)
Record SearchSource := mkSearchSource {
  query : string;
  result_snippet : string;
  url : string;
  confidence : float;
  timestamp : option datetime;
  source_type : string;
}.

(** [VentureLensState], the dict every stage works on, with the declared
    keys and the key [prescreen_confidence] that the prescreen stage adds
    ([None] while the key is absent). [prescreen_passed] and
    [prescreen_reason] hold whatever the parsed model reply carries;
    [created_at] and [updated_at] may be [None], which the serialiser allows
    for. *)
Record VentureLensState := mkState {
  company_name : string;
  bp_file_path : option string;
  run_id : string;
  prescreen_passed : pyval;
  prescreen_reason : pyval;
  prescreen_confidence : option pyval;
  scores : gmap string (gmap string pyval);
  rationale : gmap string (gmap string pyval);
  sources : list SearchSource;
  bp_extracted_data : pyval;
  cross_check_results : pyval;
  completed_agents : list string;
  current_agent : string;
  final_report : option string;
  created_at : option datetime;
  updated_at : option datetime;
}.

(** Assignments [state[key] = v], one per key that the code assigns. *)
Definition set_prescreen_passed (v : pyval) (st : VentureLensState)
    : VentureLensState :=
  mkState (company_name st) (bp_file_path st) (run_id st) v
    (prescreen_reason st) (prescreen_confidence st) (scores st) (rationale st)
    (sources st) (bp_extracted_data st) (cross_check_results st)
    (completed_agents st) (current_agent st) (final_report st) (created_at st)
    (updated_at st).

Definition set_prescreen_reason (v : pyval) (st : VentureLensState)
    : VentureLensState :=
  mkState (company_name st) (bp_file_path st) (run_id st)
    (prescreen_passed st) v (prescreen_confidence st) (scores st)
    (rationale st) (sources st) (bp_extracted_data st)
    (cross_check_results st) (completed_agents st) (current_agent st)
    (final_report st) (created_at st) (updated_at st).

Definition set_prescreen_confidence (v : option pyval) (st : VentureLensState)
    : VentureLensState :=
  mkState (company_name st) (bp_file_path st) (run_id st)
    (prescreen_passed st) (prescreen_reason st) v (scores st) (rationale st)
    (sources st) (bp_extracted_data st) (cross_check_results st)
    (completed_agents st) (current_agent st) (final_report st) (created_at st)
    (updated_at st).

Definition set_scores (v : gmap string (gmap string pyval)) (st : VentureLensState)
    : VentureLensState :=
  mkState (company_name st) (bp_file_path st) (run_id st)
    (prescreen_passed st) (prescreen_reason st) (prescreen_confidence st) v
    (rationale st) (sources st) (bp_extracted_data st)
    (cross_check_results st) (completed_agents st) (current_agent st)
    (final_report st) (created_at st) (updated_at st).

Definition set_rationale (v : gmap string (gmap string pyval)) (st : VentureLensState)
    : VentureLensState :=
  mkState (company_name st) (bp_file_path st) (run_id st)
    (prescreen_passed st) (prescreen_reason st) (prescreen_confidence st)
    (scores st) v (sources st) (bp_extracted_data st) (cross_check_results st)
    (completed_agents st) (current_agent st) (final_report st) (created_at st)
    (updated_at st).

Definition set_sources (v : list SearchSource) (st : VentureLensState)
    : VentureLensState :=
  mkState (company_name st) (bp_file_path st) (run_id st)
    (prescreen_passed st) (prescreen_reason st) (prescreen_confidence st)
    (scores st) (rationale st) v (bp_extracted_data st)
    (cross_check_results st) (completed_agents st) (current_agent st)
    (final_report st) (created_at st) (updated_at st).

Definition set_bp_extracted_data (v : pyval) (st : VentureLensState)
    : VentureLensState :=
  mkState (company_name st) (bp_file_path st) (run_id st)
    (prescreen_passed st) (prescreen_reason st) (prescreen_confidence st)
    (scores st) (rationale st) (sources st) v (cross_check_results st)
    (completed_agents st) (current_agent st) (final_report st) (created_at st)
    (updated_at st).

Definition set_cross_check_results (v : pyval) (st : VentureLensState)
    : VentureLensState :=
  mkState (company_name st) (bp_file_path st) (run_id st)
    (prescreen_passed st) (prescreen_reason st) (prescreen_confidence st)
    (scores st) (rationale st) (sources st) (bp_extracted_data st) v
    (completed_agents st) (current_agent st) (final_report st) (created_at st)
    (updated_at st).

Definition set_completed_agents (v : list string) (st : VentureLensState)
    : VentureLensState :=
  mkState (company_name st) (bp_file_path st) (run_id st)
    (prescreen_passed st) (prescreen_reason st) (prescreen_confidence st)
    (scores st) (rationale st) (sources st) (bp_extracted_data st)
    (cross_check_results st) v (current_agent st) (final_report st)
    (created_at st) (updated_at st).

Definition set_current_agent (v : string) (st : VentureLensState)
    : VentureLensState :=
  mkState (company_name st) (bp_file_path st) (run_id st)
    (prescreen_passed st) (prescreen_reason st) (prescreen_confidence st)
    (scores st) (rationale st) (sources st) (bp_extracted_data st)
    (cross_check_results st) (completed_agents st) v (final_report st)
    (created_at st) (updated_at st).

Definition set_final_report (v : option string) (st : VentureLensState)
    : VentureLensState :=
  mkState (company_name st) (bp_file_path st) (run_id st)
    (prescreen_passed st) (prescreen_reason st) (prescreen_confidence st)
    (scores st) (rationale st) (sources st) (bp_extracted_data st)
    (cross_check_results st) (completed_agents st) (current_agent st) v
    (created_at st) (updated_at st).

Definition set_updated_at (v : option datetime) (st : VentureLensState)
    : VentureLensState :=
  mkState (company_name st) (bp_file_path st) (run_id st)
    (prescreen_passed st) (prescreen_reason st) (prescreen_confidence st)
    (scores st) (rationale st) (sources st) (bp_extracted_data st)
    (cross_check_results st) (completed_agents st) (current_agent st)
    (final_report st) (created_at st) v.

(** [create_initial_state], with [run_id] already chosen and [now] the value
    of [datetime.now()]. *)
Definition create_initial_state (company_name : string) (bp_file_path : option string)
    (run_id : string) (now : datetime) : VentureLensState :=
  mkState company_name bp_file_path run_id (PBool false) (PStr "") None
    ∅ ∅ [] (PDict ∅) (PDict ∅) [] "" None (Some now) (Some now).

(** [update_state_timestamp] *)
Definition update_state_timestamp (now : datetime) (st : VentureLensState)
    : VentureLensState :=
  set_updated_at (Some now) st.

End State.

(** ** Checkpoint serialisation (src/graph.py) *)

Module Checkpoint.
Import State.

Local Open Scope Z_scope.

Definition ValueError (msg : string) : PyExn := mkExn "ValueError" msg.

(** *** [datetime.isoformat] and [datetime.fromisoformat] *)

Definition is_leap (y : Z) : bool :=
  (y mod 4 =? 0) && (negb (y mod 100 =? 0) || (y mod 400 =? 0)).

Definition days_in_month (y m : Z) : Z :=
  if m =? 2 then (if is_leap y then 29 else 28)
  else if (m =? 4) || (m =? 6) || (m =? 9) || (m =? 11) then 30
  else 31.

(** The invariant of every [datetime] object. *)
Definition valid_datetime (d : datetime) : bool :=
  (1 <=? year d) && (year d <=? 9999)
  && (1 <=? month d) && (month d <=? 12)
  && (1 <=? day d) && (day d <=? days_in_month (year d) (month d))
  && (0 <=? hour d) && (hour d <? 24)
  && (0 <=? minute d) && (minute d <? 60)
  && (0 <=? second d) && (second d <? 60)
  && (0 <=? microsecond d) && (microsecond d <? 1000000).

Definition digit_char (d : Z) : ascii := ascii_of_N (Z.to_N (48 + d)).

(** [n] in decimal, zero padded to [width] digits, for [0 <= n < 10^width],
    which the fields of a valid [datetime] satisfy. *)
Fixpoint zero_padded (width : nat) (n : Z) : list ascii :=
  match width with
  | O => []
  | S w => (zero_padded w (n / 10) ++ [digit_char (n mod 10)])%list
  end.

(** [YYYY-MM-DDTHH:MM:SS], followed by [.ffffff] when the microsecond is
    not zero. *)
Definition isoformat_chars (d : datetime) : list ascii :=
  (zero_padded 4 (year d) ++ "-"%char ::
   zero_padded 2 (month d) ++ "-"%char ::
   zero_padded 2 (day d) ++ "T"%char ::
   zero_padded 2 (hour d) ++ ":"%char ::
   zero_padded 2 (minute d) ++ ":"%char ::
   zero_padded 2 (second d) ++
   (if microsecond d =? 0 then []
    else "."%char :: zero_padded 6 (microsecond d)))%list.

Definition isoformat (d : datetime) : string :=
  string_of_list_ascii (isoformat_chars d).

(** Exactly [width] decimal digits. *)
Fixpoint read_digits (width : nat) (acc : Z) (s : list ascii) : option (Z * list ascii) :=
  match width with
  | O => Some (acc, s)
  | S w =>
      match s with
      | c :: rest => d ← Json.digit_value c; read_digits w (10 * acc + d) rest
      | [] => None
      end
  end.

Definition expect (c : ascii) (s : list ascii) : option (list ascii) :=
  match s with
  | x :: rest => if Ascii.eqb x c then Some rest else None
  | [] => None
  end.

Definition parse_isoformat (s : list ascii) : option datetime :=
  '(y, s) ← read_digits 4 0 s; s ← expect "-" s;
  '(mo, s) ← read_digits 2 0 s; s ← expect "-" s;
  '(d, s) ← read_digits 2 0 s; s ← expect "T" s;
  '(h, s) ← read_digits 2 0 s; s ← expect ":" s;
  '(mi, s) ← read_digits 2 0 s; s ← expect ":" s;
  '(sec, s) ← read_digits 2 0 s;
  match s with
  | [] => Some (mkDatetime y mo d h mi sec 0)
  | c :: rest =>
      if Ascii.eqb c "." then
        '(us, rest') ← read_digits 6 0 rest;
        match rest' with
        | [] => Some (mkDatetime y mo d h mi sec us)
        | _ => None
        end
      else None
  end.

(** [datetime.fromisoformat], on the spellings [isoformat] produces for a
    naive [datetime], which are those a checkpoint written by
    [_save_checkpoint] has; other text, and field values that are no date or
    time, raise [ValueError] (later interpreters read further spellings of
    ISO 8601, which are not modelled). *)
Definition fromisoformat (text : string) : Result datetime :=
  match parse_isoformat (list_ascii_of_string text) with
  | Some d =>
      if valid_datetime d then Ok d
      else Raise (ValueError "value is out of range")
  | None => Raise (ValueError "Invalid isoformat string")
  end.

(** *** The serialised form *)

(** One entry of the serialised [sources] list: a plain field map. The key
    [source_type] may be missing, the reader defaults it. *)
Record SourceData := mkSourceData {
  sd_query : string;
  sd_result_snippet : string;
  sd_url : string;
  sd_confidence : float;
  sd_timestamp : option string;
  sd_source_type : option string;
}.

(** The dict [_serialize_state] builds and [json.dump] writes: the keys of
    the state, with text (or [null]) for the two timestamps and field maps
    for the sources. The other values are written and read back by
    [json.dump] and [json.load] as they are, being JSON values. *)
Record SerializedState := mkSerialized {
  ser_company_name : string;
  ser_bp_file_path : option string;
  ser_run_id : string;
  ser_prescreen_passed : pyval;
  ser_prescreen_reason : pyval;
  ser_prescreen_confidence : option pyval;
  ser_scores : gmap string (gmap string pyval);
  ser_rationale : gmap string (gmap string pyval);
  ser_sources : list SourceData;
  ser_bp_extracted_data : pyval;
  ser_cross_check_results : pyval;
  ser_completed_agents : list string;
  ser_current_agent : string;
  ser_final_report : option string;
  ser_created_at : option string;
  ser_updated_at : option string;
}.

(** The comprehension over [value] in the [sources] branch, for one
    source. *)
Definition serialize_source (source : SearchSource) : SourceData :=
  mkSourceData (query source) (result_snippet source) (url source) (confidence source)
    (isoformat <$> timestamp source) (Some (source_type source)).

(** [VentureLensWorkflow._serialize_state]: [value.isoformat() if value
    else None] under the two timestamp keys, the comprehension under
    [sources], the value itself under every other key. *)
Definition _serialize_state (st : VentureLensState) : SerializedState :=
  mkSerialized (company_name st) (bp_file_path st) (run_id st)
    (prescreen_passed st) (prescreen_reason st) (prescreen_confidence st)
    (scores st) (rationale st)
    (serialize_source <$> sources st)
    (bp_extracted_data st) (cross_check_results st)
    (completed_agents st) (current_agent st) (final_report st)
    (isoformat <$> created_at st) (isoformat <$> updated_at st).

(** [datetime.fromisoformat(v)] guarded by the truthiness of [v]: [None]
    and the empty string are left alone. (The code leaves an empty string in
    place; it is as falsy as [None], and the serialiser writes [null] for
    either.) *)
Definition read_timestamp (v : option string) : Result (option datetime) :=
  match v with
  | None => Ok None
  | Some text =>
      if String.eqb text "" then Ok None
      else d ← fromisoformat text; Ok (Some d)
  end.

(** The body of [for source_data in state["sources"]]. *)
Definition deserialize_source (source_data : SourceData) : Result SearchSource :=
  timestamp ← read_timestamp (sd_timestamp source_data);
  Ok (mkSearchSource (sd_query source_data) (sd_result_snippet source_data)
        (sd_url source_data) (sd_confidence source_data) timestamp
        (default "web"%string (sd_source_type source_data))).

Fixpoint deserialize_sources (l : list SourceData) : Result (list SearchSource) :=
  match l with
  | [] => Ok []
  | source_data :: rest =>
      source ← deserialize_source source_data;
      sources ← deserialize_sources rest;
      Ok (source :: sources)
  end.

(** [VentureLensWorkflow._deserialize_state] *)
Definition _deserialize_state (s : SerializedState) : Result VentureLensState :=
  created ← read_timestamp (ser_created_at s);
  updated ← read_timestamp (ser_updated_at s);
  sources ← deserialize_sources (ser_sources s);
  Ok (mkState (ser_company_name s) (ser_bp_file_path s) (ser_run_id s)
        (ser_prescreen_passed s) (ser_prescreen_reason s) (ser_prescreen_confidence s)
        (ser_scores s) (ser_rationale s) sources
        (ser_bp_extracted_data s) (ser_cross_check_results s)
        (ser_completed_agents s) (ser_current_agent s) (ser_final_report s)
        created updated).

(** *** The checkpoint directory *)

(** What a file [{run_id}_checkpoint.json] may hold: text that [json.load]
    rejects, or a document with the keys of a state, which is what
    [_save_checkpoint] writes. A file that holds JSON of another shape, put
    there by other means, is not modelled: [_deserialize_state] converts the
    keys it finds and returns the dict as it is, and [run] then raises
    [KeyError] at the first key of the state it misses, so what is proved of
    runs is proved for directories of the two kinds of file below. *)
Inductive CheckpointFile :=
| Unreadable
| Document (s : SerializedState).

(** [_save_checkpoint]: one slot per [run_id]. [write_ok] says whether
    opening and writing the file succeed; a failure is logged and the
    directory stays as it was. The slot is keyed by the run id, not by the
    file path built from it: run ids that differ as text are taken to name
    different files. *)
Definition _save_checkpoint (checkpoint_enabled write_ok : bool)
    (store : gmap string CheckpointFile) (st : VentureLensState)
    : gmap string CheckpointFile :=
  if checkpoint_enabled && write_ok
  then <[run_id st := Document (_serialize_state st)]> store
  else store.

(** [_load_checkpoint]: [None] for a missing file and for anything that
    raises while reading. *)
Definition _load_checkpoint (store : gmap string CheckpointFile) (run_id : string)
    : option VentureLensState :=
  match store !! run_id with
  | None => None
  | Some Unreadable => None
  | Some (Document s) =>
      match _deserialize_state s with
      | Ok st => Some st
      | Raise _ => None
      end
  end.

















End Checkpoint.

(** ** Stages and the stage wrapper (src/agents/base.py) *)

Module Agents.
Import State.

(** *** The outside world

    Everything a stage obtains from outside the process, as the outcome it
    gets: a value, or an exception. Theorems quantify over the world, so they
    hold whatever the collaborators answer. The report formatters are pure
    code of the repository whose text does not matter here; what matters is
    whether they return or raise, and that is left open as well, so the
    formatters of the source are one instance. *)
Record SearchHit := mkHit {
  hit_title : string;
  hit_url : string;
  hit_content : string;
  hit_score : float;
  hit_source : string;
}.

(** The dict [chat_completion] returns: [success], [content] (read with
    the default [""]) and [error]. *)
Record Completion := mkCompletion {
  success : bool;
  content : string;
  error : option string;
}.

Record World := mkWorld {
  (** [retriever.search_multiple_sources(query, source_types)] *)
  search_multiple_sources : string -> Result (list SearchHit);
  (** [llm_service.simple_analyze(prompt, system_message)], by stage name *)
  simple_analyze : string -> Result Completion;
  (** [datetime.now()], by the place that reads the clock *)
  now : string -> datetime;
  (** [str(uuid.uuid4())] *)
  uuid4 : string;
  (** [os.path.exists] *)
  path_exists : string -> bool;
  (** [BPParserAgent._extract_bp_content] and [_structure_bp_data] *)
  extract_bp_content : string -> Result string;
  structure_bp_data : string -> string -> Result pyval;
  (** [llm_service.generate_cross_check_analysis(bp_data, external_data)] *)
  generate_cross_check_analysis : pyval -> Result pyval;
  (** whether writing the checkpoint after the named stage succeeds *)
  write_ok : string -> bool;
  (** [str(v)] and [now.strftime('%Y-%m-%d %H:%M:%S')] *)
  py_str : pyval -> string;
  strftime : datetime -> string;
  (** [PreScreenAgent._generate_rejection_report(company_name, reason, analysis)] *)
  format_rejection_report : string -> pyval -> gmap string pyval -> Result string;
  (** the sections of [_generate_comprehensive_report] after the overall
      score has been computed *)
  format_comprehensive_report : VentureLensState -> float -> Result string;
}.

(** *** Stage bodies

    A stage body runs on the state dict it was handed and mutates it in
    place; when it raises, the mutations made so far are there for whoever
    catches. *)
Definition M (A : Type) : Type := VentureLensState -> Result A * VentureLensState.

#[export] Instance M_ret : MRet M := fun A a st => (Ok a, st).
#[export] Instance M_bind : MBind M := fun A B k m st =>
  match m st with
  | (Ok a, st') => k a st'
  | (Raise e, st') => (Raise e, st')
  end.

Definition get_state : M VentureLensState := fun st => (Ok st, st).
Definition modify (f : VentureLensState -> VentureLensState) : M unit :=
  fun st => (Ok tt, f st).
Definition lift {A} (r : Result A) : M A := fun st => (r, st).

(** [try: body  except Exception as e: handler(e)] in a stage body *)
Definition try_catch {A} (body : M A) (handler : PyExn -> M A) : M A := fun st =>
  match body st with
  | (Ok a, st') => (Ok a, st')
  | (Raise e, st') => handler e st'
  end.

(** The first [n] characters of a UTF-8 string: bytes are taken until the
    lead byte of character [n + 1]. *)
Fixpoint take_chars_bytes (n : nat) (s : list ascii) : list ascii :=
  match s with
  | [] => []
  | c :: rest =>
      let continuation := ((128 <=? N_of_ascii c) && (N_of_ascii c <? 192))%N in
      if continuation then c :: take_chars_bytes n rest
      else match n with
           | O => []
           | S n' => c :: take_chars_bytes n' rest
           end
  end.

Definition take_chars (n : nat) (s : string) : string :=
  string_of_list_ascii (take_chars_bytes n (list_ascii_of_string s)).

(** [BaseAgent.search_and_record]: one evidence record per hit, appended in
    the order of the hits, stamped with the clock. *)
Definition search_and_record (w : World) (query : string) : M (list SearchHit) :=
  results ← lift (search_multiple_sources w query);
  modify (fun st =>
    set_sources
      (sources st ++
       ((fun hit => mkSearchSource query (take_chars 200 (hit_content hit)) (hit_url hit)
                      (hit_score hit) (Some (now w query)) (hit_source hit)) <$> results))
      st);;
  mret results.

(** [for query in queries: try: results = await self.search_and_record(...);
    search_results.extend(results)  except Exception: log] *)
Fixpoint search_each (w : World) (queries : list string) (search_results : list SearchHit)
    : M (list SearchHit) :=
  match queries with
  | [] => mret search_results
  | query :: rest =>
      search_results ← try_catch
        (results ← search_and_record w query; mret (search_results ++ results)%list)
        (fun _ => mret search_results);
      search_each w rest search_results
  end.

(** [BaseAgent._execute_wrapper] for the stage [name] with body [_execute] *)
Definition _execute_wrapper (w : World) (name : string) (_execute : M unit)
    (st : VentureLensState) : VentureLensState :=
  let st := set_current_agent name st in
  match _execute st with
  | (Ok _, updated_state) =>
      let updated_state :=
        if bool_decide (name ∈ completed_agents updated_state) then updated_state
        else set_completed_agents (completed_agents updated_state ++ [name]) updated_state in
      update_state_timestamp (now w name) updated_state
  | (Raise e, st) =>
      update_state_timestamp (now w name) (set_current_agent (name ++ "_error") st)
  end.

(** *** The gate stage (src/agents/prescreen.py) *)

Definition AttributeError (msg : string) : PyExn := mkExn "AttributeError" msg.

Definition prescreen_base_queries (company_name : string) : list string :=
  [company_name ++ " 公司 基本信息";
   company_name ++ " 业务 产品 服务";
   company_name ++ " 融资 投资 估值";
   company_name ++ " 风险 争议 问题"].

Definition prescreen_extended_queries (company_name : string) : list string :=
  [company_name ++ " 成立时间 注册资本";
   company_name ++ " 创始人 团队";
   company_name ++ " 官网 联系方式";
   company_name ++ " 新闻 动态";
   company_name ++ " 竞争对手 行业地位";
   company_name ++ " 专利 技术"].

(** The extended search loop: a failed query is logged and skipped, and the
    loop breaks once fifteen results are in. *)
Fixpoint search_extended (w : World) (queries : list string) (all_results : list SearchHit)
    : M (list SearchHit) :=
  match queries with
  | [] => mret all_results
  | query :: rest =>
      '(all_results, stop) ← try_catch
        (results ← search_and_record w query;
         let all_results := (all_results ++ results)%list in
         mret (all_results, (15 <=? length all_results)%nat))
        (fun _ => mret (all_results, false));
      if (stop : bool) then mret all_results
      else search_extended w rest all_results
  end.

(** [PreScreenAgent._search_company_info] *)
Definition _search_company_info (w : World) (company_name : string) : M (list SearchHit) :=
  all_results ← search_each w (prescreen_base_queries company_name) [];
  if (length all_results <? 10)%nat
  then search_extended w (take 3 (prescreen_extended_queries company_name)) all_results
  else mret all_results.

(** [PreScreenAgent._create_default_analysis] *)
Definition prescreen_default_analysis (company_name error_reason : string)
    : gmap string pyval :=
  list_to_map
    [("passed", PBool false);
     ("confidence", PFloat 0.3);
     ("reason", PStr ("无法完成分析: " ++ error_reason));
     ("positive_factors", PList []);
     ("negative_factors", PList [PStr "信息不足"; PStr "分析过程出现问题"]);
     ("information_quality", PStr "low");
     ("recommendation", PStr ("建议重新搜索" ++ company_name ++ "的更多信息后再次评估"))].

(** [PreScreenAgent._analyze_with_llm]. Building the prompt reads the hits
    and does not raise; everything after it is inside a [try] whose handler
    returns the default analysis. [parse_json_response] returns dicts only
    (both of its parses are of text that starts with an opening brace); a
    value of another kind is taken to raise at the test for the [error]
    key. *)
Definition _analyze_with_llm (w : World) (company_name : string)
    (search_results : list SearchHit) : gmap string pyval :=
  match simple_analyze w "prescreen" with
  | Raise e => prescreen_default_analysis company_name (exn_str e)
  | Ok response =>
      if success response then
        match Recovery.parse_json_response Json.json_loads (content response) with
        | Ok (PDict parsed_result) =>
            match parsed_result !! "error" with
            | None => parsed_result
            | Some _ => prescreen_default_analysis company_name "响应解析失败"
            end
        | Ok _ =>
            prescreen_default_analysis company_name "argument of this type is not iterable"
        | Raise e => prescreen_default_analysis company_name (exn_str e)
        end
      else prescreen_default_analysis company_name (default "未知错误" (error response))
  end.

(** [PreScreenAgent._update_state] *)
Definition prescreen_update_state (w : World) (analysis : gmap string pyval) : M unit :=
  modify (set_prescreen_passed (dict_get analysis "passed" (PBool false)));;
  modify (set_prescreen_reason (dict_get analysis "reason" (PStr "未提供具体理由")));;
  modify (set_prescreen_confidence (Some (dict_get analysis "confidence" (PFloat 0.5))));;
  modify (fun st =>
    set_scores
      (<["prescreen" :=
           list_to_map
             [("overall", PFloat (if truthy (dict_get analysis "passed" PNone)
                                  then 8.0 else 3.0));
              ("confidence", dict_get analysis "confidence" (PFloat 0.5))]]>
         (scores st)) st);;
  modify (fun st =>
    set_rationale
      (<["prescreen" :=
           list_to_map
             [("reason", dict_get analysis "reason" (PStr ""));
              ("positive_factors", dict_get analysis "positive_factors" (PList []));
              ("negative_factors", dict_get analysis "negative_factors" (PList []));
              ("information_quality", dict_get analysis "information_quality" (PStr "medium"));
              ("recommendation", dict_get analysis "recommendation" (PStr ""));
              ("key_findings", dict_get analysis "key_findings" (PDict ∅))]]>
         (rationale st)) st);;
  if negb (truthy (dict_get analysis "passed" (PBool false))) then
    st ← get_state;
    report ← lift (format_rejection_report w (company_name st)
                     (dict_get analysis "reason" (PStr "未通过预筛选")) analysis);
    modify (set_final_report (Some report))
  else mret tt.

(** [PreScreenAgent._set_default_result] *)
Definition _set_default_result (company_name error_msg : string) : M unit :=
  modify (set_prescreen_passed (PBool false));;
  modify (set_prescreen_reason (PStr ("分析过程出错: " ++ error_msg)));;
  modify (set_prescreen_confidence (Some (PFloat 0.3)));;
  modify (fun st =>
    set_scores
      (<["prescreen" := list_to_map [("overall", PFloat 3.0); ("confidence", PFloat 0.3)]]>
         (scores st)) st);;
  modify (fun st =>
    set_rationale
      (<["prescreen" :=
           list_to_map
             [("reason", PStr ("无法完成对" ++ company_name ++ "的预筛选分析"));
              ("positive_factors", PList []);
              ("negative_factors", PList [PStr "分析过程出现技术问题"]);
              ("information_quality", PStr "low");
              ("recommendation", PStr "建议重新分析或寻找更多信息来源")]]>
         (rationale st)) st).

(** The body of the [try] in [PreScreenAgent._execute] *)
Definition prescreen_try_block (w : World) (company_name : string) : M unit :=
  search_results ← _search_company_info w company_name;
  let analysis_result := _analyze_with_llm w company_name search_results in
  prescreen_update_state w analysis_result.

(** [PreScreenAgent._execute] *)
Definition prescreen_execute (w : World) : M unit :=
  st ← get_state;
  let company_name := company_name st in
  try_catch (prescreen_try_block w company_name)
            (fun e => _set_default_result company_name (exn_str e)).

(** *** The four due-diligence stages

    [industry_dd.py], [team_dd.py], [fin_dd.py] and [risk_dd.py] are the
    same code up to the stage name, the category, the search queries, the
    detail keys copied into the rationale and the default analysis. *)
Record DueDiligence := mkDD {
  dd_name : string;
  dd_category : string;
  dd_search_queries : string -> list string;
  dd_details : list (string * pyval);
  dd_default_analysis : string -> gmap string pyval;
}.

(** [industry_dd.py]: [_create_default_analysis] and the stage. *)
Definition industry_default_analysis (company_name : string) : gmap string pyval :=
  list_to_map
    [
     ("industry_identified", PStr "未识别");
     ("market_analysis", py_dict
        [
         ("size", PStr "待分析");
         ("growth_rate", PStr "待分析");
         ("stage", PStr "待分析")
        ]);
     ("competition_analysis", py_dict
        [
         ("landscape", PStr "待分析");
         ("competitors", PList []);
         ("concentration", PStr "待分析")
        ]);
     ("barriers", py_dict
        [
         ("entry_barriers", PStr "待分析");
         ("tech_barriers", PStr "待分析")
        ]);
     ("trends_risks", py_dict
        [
         ("trends", PList []);
         ("opportunities", PList []);
         ("risks", PList [])
        ]);
     ("scores", py_dict
        [
         ("market_size", PInt 5);
         ("growth_potential", PInt 5);
         ("competition_intensity", PInt 5);
         ("entry_barriers", PInt 5);
         ("tech_barriers", PInt 5);
         ("overall", PInt 5)
        ]);
     ("rationale", py_dict
        [
         ("market_size", PStr ("缺乏足够信息对" ++ company_name ++ "所在行业的市场规模进行评估"));
         ("growth_potential", PStr ("缺乏足够信息对" ++ company_name ++ "所在行业的增长潜力进行评估"));
         ("competition_intensity", PStr ("缺乏足够信息对" ++ company_name ++ "所在行业的竞争强度进行评估"));
         ("entry_barriers", PStr ("缺乏足够信息对" ++ company_name ++ "所在行业的进入壁垒进行评估"));
         ("tech_barriers", PStr ("缺乏足够信息对" ++ company_name ++ "所在行业的技术壁垒进行评估"));
         ("overall", PStr ("由于信息不足，给予" ++ company_name ++ "所在行业中等评分"))
        ])
    ].

Definition industry_dd : DueDiligence :=
  mkDD "industry_dd" "industry"
    (fun company_name =>
       [company_name ++ " 行业分析 市场规模";
        company_name ++ " 行业竞争对手 竞争格局";
        company_name ++ " 所属行业 发展趋势";
        company_name ++ " 行业壁垒 技术门槛"])
    [("industry_identified", PStr "未识别"); ("market_analysis", PDict ∅); ("competition_analysis", PDict ∅); ("barriers", PDict ∅); ("trends_risks", PDict ∅)]
    industry_default_analysis.

(** [team_dd.py]: [_create_default_analysis] and the stage. *)
Definition team_default_analysis (company_name : string) : gmap string pyval :=
  list_to_map
    [
     ("key_people", PList []);
     ("founder_info", py_dict
        [
         ("name", PStr "未识别");
         ("education", PStr "待分析");
         ("experience", PStr "待分析");
         ("industry_exp", PStr "待分析")
        ]);
     ("team_analysis", py_dict
        [
         ("core_members", PList []);
         ("key_positions", PList []);
         ("missing_roles", PList [])
        ]);
     ("achievements", py_dict
        [
         ("founder_achievements", PList []);
         ("team_achievements", PList []);
         ("recognition", PList [])
        ]);
     ("scores", py_dict
        [
         ("founder_background", PInt 5);
         ("team_experience", PInt 5);
         ("past_achievements", PInt 5);
         ("team_completeness", PInt 5);
         ("overall", PInt 5)
        ]);
     ("rationale", py_dict
        [
         ("founder_background", PStr ("缺乏足够信息对" ++ company_name ++ "创始人背景进行评估"));
         ("team_experience", PStr ("缺乏足够信息对" ++ company_name ++ "团队经验进行评估"));
         ("past_achievements", PStr ("缺乏足够信息对" ++ company_name ++ "团队过往成就进行评估"));
         ("team_completeness", PStr ("缺乏足够信息对" ++ company_name ++ "团队完整性进行评估"));
         ("overall", PStr ("由于信息不足，给予" ++ company_name ++ "团队中等评分"))
        ])
    ].

Definition team_dd : DueDiligence :=
  mkDD "team_dd" "team"
    (fun company_name =>
       [company_name ++ " 创始人 CEO 背景";
        company_name ++ " 团队成员 核心团队";
        company_name ++ " 创始人 工作经历 教育背景";
        company_name ++ " 团队 过往成就 经验"])
    [("key_people", PList []); ("founder_info", PDict ∅); ("team_analysis", PDict ∅); ("achievements", PDict ∅)]
    team_default_analysis.

(** [fin_dd.py]: [_create_default_analysis] and the stage. *)
Definition fin_default_analysis (company_name : string) : gmap string pyval :=
  list_to_map
    [
     ("key_metrics", py_dict
        [
         ("revenue", PStr "待分析");
         ("funding", PStr "待分析");
         ("valuation", PStr "待分析");
         ("profitability", PStr "待分析")
        ]);
     ("funding_details", py_dict
        [
         ("total_funding", PStr "未知");
         ("latest_round", PStr "未知");
         ("investors", PList []);
         ("valuation_trend", PStr "待分析")
        ]);
     ("financial_analysis", py_dict
        [
         ("revenue_growth", PStr "待分析");
         ("business_model", PStr "待分析");
         ("cost_structure", PStr "待分析");
         ("cash_flow", PStr "待分析")
        ]);
     ("scores", py_dict
        [
         ("revenue_status", PInt 5);
         ("profitability", PInt 5);
         ("funding_history", PInt 5);
         ("financial_health", PInt 5);
         ("overall", PInt 5)
        ]);
     ("rationale", py_dict
        [
         ("revenue_status", PStr ("缺乏足够信息对" ++ company_name ++ "营收状况进行评估"));
         ("profitability", PStr ("缺乏足够信息对" ++ company_name ++ "盈利能力进行评估"));
         ("funding_history", PStr ("缺乏足够信息对" ++ company_name ++ "融资历史进行评估"));
         ("financial_health", PStr ("缺乏足够信息对" ++ company_name ++ "财务健康度进行评估"));
         ("overall", PStr ("由于信息不足，给予" ++ company_name ++ "财务状况中等评分"))
        ])
    ].

Definition fin_dd : DueDiligence :=
  mkDD "fin_dd" "financial"
    (fun company_name =>
       [company_name ++ " 营收 收入 业绩";
        company_name ++ " 融资 投资 估值";
        company_name ++ " 财务 盈利 亏损";
        company_name ++ " 投资方 融资轮次"])
    [("key_metrics", PDict ∅); ("funding_details", PDict ∅); ("financial_analysis", PDict ∅)]
    fin_default_analysis.

(** [risk_dd.py]: [_create_default_analysis] and the stage. *)
Definition risk_default_analysis (company_name : string) : gmap string pyval :=
  list_to_map
    [
     ("risk_analysis", py_dict
        [
         ("market_risks", PList []);
         ("competition_risks", PList []);
         ("operational_risks", PList []);
         ("regulatory_risks", PList [])
        ]);
     ("major_concerns", py_dict
        [
         ("high_risk_areas", PList []);
         ("critical_issues", PList []);
         ("potential_threats", PList [])
        ]);
     ("risk_mitigation", py_dict
        [
         ("existing_measures", PList []);
         ("recommended_actions", PList []);
         ("monitoring_points", PList [])
        ]);
     ("scores", py_dict
        [
         ("market_risk", PInt 5);
         ("competition_risk", PInt 5);
         ("operational_risk", PInt 5);
         ("regulatory_risk", PInt 5);
         ("overall", PInt 5)
        ]);
     ("rationale", py_dict
        [
         ("market_risk", PStr ("缺乏足够信息对" ++ company_name ++ "市场风险进行评估"));
         ("competition_risk", PStr ("缺乏足够信息对" ++ company_name ++ "竞争风险进行评估"));
         ("operational_risk", PStr ("缺乏足够信息对" ++ company_name ++ "运营风险进行评估"));
         ("regulatory_risk", PStr ("缺乏足够信息对" ++ company_name ++ "监管风险进行评估"));
         ("overall", PStr ("由于信息不足，给予" ++ company_name ++ "风险状况中等评分"))
        ])
    ].

Definition risk_dd : DueDiligence :=
  mkDD "risk_dd" "risk"
    (fun company_name =>
       [company_name ++ " 风险 问题 争议";
        company_name ++ " 竞争对手 威胁";
        company_name ++ " 监管 合规 政策";
        company_name ++ " 负面 诉讼 违规"])
    [("risk_analysis", PDict ∅); ("major_concerns", PDict ∅); ("risk_mitigation", PDict ∅)]
    risk_default_analysis.

(** The [try] block of a due-diligence [_execute]: whatever goes wrong, an
    analysis comes out. The searches record their evidence on the way. The
    line that logs a parsed analysis reads
    [analysis_result.get('scores', {}).get('overall', 'N/A')] inside the
    [try] block: [scores] that are no dict raise [AttributeError] there, and
    the default analysis takes their place. *)
Definition dd_analyse (w : World) (a : DueDiligence) (company_name : string)
    : M (gmap string pyval) :=
  try_catch
    (search_results ← search_each w (dd_search_queries a company_name) [];
     let search_results := take 10 search_results in
     response ← lift (simple_analyze w (dd_name a));
     if success response && negb (String.eqb (content response) "") then
       match Recovery.parse_json_response Json.json_loads (content response) with
       | Ok (PDict analysis_result) =>
           match analysis_result !! "error" with
           | Some _ => mret (dd_default_analysis a company_name)
           | None =>
               match dict_get analysis_result "scores" (PDict ∅) with
               | PDict _ => mret analysis_result
               | _ => lift (Raise (AttributeError "object has no attribute 'get'"))
               end
           end
       | Ok _ => lift (Raise (TypeError "argument of this type is not iterable"))
       | Raise e => lift (Raise e)
       end
     else mret (dd_default_analysis a company_name))
    (fun _ => mret (dd_default_analysis a company_name)).

Definition write_entry (key : string) (f : gmap string pyval -> gmap string pyval)
    (m : gmap string (gmap string pyval)) : gmap string (gmap string pyval) :=
  <[key := f (default ∅ (m !! key))]> m.

Definition ensure_entry (key : string) (m : gmap string (gmap string pyval))
    : gmap string (gmap string pyval) :=
  match m !! key with Some _ => m | None => <[key := ∅]> m end.

Definition update_entry (key : string) (other : pyval)
    (m : gmap string (gmap string pyval)) : Result (gmap string (gmap string pyval)) :=
  match dict_update (default ∅ (m !! key)) other with
  | inl updated => Ok (<[key := updated]> m)
  | inr msg => Raise (TypeError msg)
  end.

(** [_update_state] of a due-diligence stage *)
Definition dd_update_state (a : DueDiligence) (analysis_result : gmap string pyval) : M unit :=
  let category := dd_category a in
  modify (fun st => set_scores (ensure_entry category (scores st)) st);;
  st ← get_state;
  updated ← lift (update_entry category (dict_get analysis_result "scores" (PDict ∅))
                    (scores st));
  modify (set_scores updated);;
  modify (fun st => set_rationale (ensure_entry category (rationale st)) st);;
  st ← get_state;
  updated ← lift (update_entry category (dict_get analysis_result "rationale" (PDict ∅))
                    (rationale st));
  modify (set_rationale updated);;
  modify (fun st =>
    set_rationale
      (foldl (fun m '(key, fallback) =>
                write_entry category (insert key (dict_get analysis_result key fallback)) m)
             (rationale st) (dd_details a))
      st).

(** [_execute] of a due-diligence stage: nothing is done when the gate did
    not pass. *)
Definition dd_execute (w : World) (a : DueDiligence) : M unit :=
  st ← get_state;
  if negb (truthy (prescreen_passed st)) then mret tt
  else
    analysis_result ← dd_analyse w a (company_name st);
    dd_update_state a analysis_result.

(** *** The document stage (src/agents/bp_parser.py) *)

Definition is_given (path : option string) : bool :=
  match path with Some p => negb (String.eqb p "") | None => false end.

(** [BPParserAgent._execute] *)
Definition bp_parser_execute (w : World) : M unit :=
  st ← get_state;
  match bp_file_path st with
  | Some path =>
      if negb (String.eqb path "") && path_exists w path then
        try_catch
          (bp_content ← lift (extract_bp_content w path);
           if String.eqb bp_content "" then mret tt
           else
             structured_data ← lift (structure_bp_data w (company_name st) bp_content);
             modify (set_bp_extracted_data structured_data))
          (fun e => modify (set_bp_extracted_data (py_dict [("error", PStr (exn_str e))])))
      else mret tt
  | None => mret tt
  end.

(** *** The cross-check stage (src/agents/cross_check.py) *)

Definition cross_check_queries (company_name : string) : list string :=
  [company_name ++ " 成立时间 注册信息";
   company_name ++ " 融资 真实性";
   company_name ++ " 创始人 背景 验证"].

(** The searches of [_collect_external_data]: no handler here, a failing
    query ends the stage. *)
Fixpoint search_all (w : World) (queries : list string) (acc : list SearchHit)
    : M (list SearchHit) :=
  match queries with
  | [] => mret acc
  | query :: rest =>
      results ← search_and_record w query;
      search_all w rest (acc ++ results)%list
  end.

(** [bp_data.get("error")]: a dict method *)
Definition get_error (bp_data : pyval) : Result pyval :=
  match bp_data with
  | PDict d => Ok (dict_get d "error" PNone)
  | _ => Raise (AttributeError "object has no attribute 'get'")
  end.

(** [CrossCheckAgent._execute] *)
Definition cross_check_execute (w : World) : M unit :=
  st ← get_state;
  if negb (truthy (prescreen_passed st)) then mret tt
  else
    let bp_data := bp_extracted_data st in
    skip ← (if negb (truthy bp_data) then mret true
            else err ← lift (get_error bp_data); mret (truthy err));
    if (skip : bool) then
      modify (set_cross_check_results
                (py_dict [("status", PStr "skipped");
                          ("reason", PStr "No BP data available")]))
    else
      _ ← search_all w (cross_check_queries (company_name st)) [];
      cross_check_results ← lift (generate_cross_check_analysis w bp_data);
      modify (set_cross_check_results cross_check_results).

(** *** The reporting stage (src/report/report_generator.py) *)

(** [ReportGeneratorAgent._generate_simple_rejection_report] *)
Definition _generate_simple_rejection_report (w : World) (company_name : string)
    (reason : pyval) : string :=
  "# " ++ company_name ++ " 投资尽职调查报告

## 总体结论：❌ 不建议投资

### 预筛选结果
" ++ py_str w reason ++ "

---
*报告生成时间: " ++ strftime w (now w "report") ++ "*
".

(** [ReportGeneratorAgent._generate_comprehensive_report]: the overall
    score, then the sections. *)
Definition _generate_comprehensive_report (w : World) (st : VentureLensState)
    : Result string :=
  overall_score ← Score._calculate_overall_score (scores st);
  format_comprehensive_report w st overall_score.

(** [truthiness of state.get("final_report")] *)
Definition has_report (st : VentureLensState) : bool :=
  match final_report st with Some text => negb (String.eqb text "") | None => false end.

(** [ReportGeneratorAgent._execute] *)
Definition report_generator_execute (w : World) : M unit :=
  st ← get_state;
  if negb (truthy (prescreen_passed st)) then
    if negb (has_report st) then
      modify (set_final_report
                (Some (_generate_simple_rejection_report w (company_name st)
                         (prescreen_reason st))))
    else mret tt
  else
    report ← lift (_generate_comprehensive_report w st);
    modify (set_final_report (Some report)).

End Agents.

(** ** What a stage body may change *)

Module Frames.
Import State Agents.

(** [keeps proj]: the part [proj] of the state is the same afterwards. *)
Definition keeps {T} (proj : VentureLensState -> T) : relation VentureLensState :=
  fun before after => proj after = proj before.

#[export] Instance keeps_preorder {T} (proj : VentureLensState -> T) : PreOrder (keeps proj).
Proof.
  split.
  - intros st. reflexivity.
  - intros a b c Hab Hbc. unfold keeps in *. congruence.
Qed.

Section Frame.

Context (R : relation VentureLensState) `{!PreOrder R}.

(** [frame m]: whatever [m] does, and whether it returns or raises, the
    state it leaves is related to the state it found. *)
Definition frame {A} (m : M A) : Prop := ∀ st, R st (snd (m st)).

Lemma frame_ret {A} (a : A) : frame (mret a).
Proof. intros st. reflexivity. Qed.

Lemma frame_lift {A} (r : Result A) : frame (lift r).
Proof. intros st. reflexivity. Qed.

Lemma frame_get_state : frame get_state.
Proof. intros st. reflexivity. Qed.

Lemma frame_modify f : (∀ st, R st (f st)) → frame (modify f).
Proof. intros Hf st. apply Hf. Qed.

Lemma frame_bind {A B} (m : M A) (k : A -> M B) :
  frame m → (∀ a, frame (k a)) → frame (m ≫= k).
Proof.
  intros Hm Hk st. unfold mbind, M_bind. specialize (Hm st).
  destruct (m st) as [[a|e] st']; simpl in *; [|exact Hm].
  etransitivity; [exact Hm | apply Hk].
Qed.

Lemma frame_try_catch {A} (body : M A) (handler : PyExn -> M A) :
  frame body → (∀ e, frame (handler e)) → frame (try_catch body handler).
Proof.
  intros Hbody Hhandler st. unfold try_catch. specialize (Hbody st).
  destruct (body st) as [[a|e] st']; simpl in *; [exact Hbody|].
  etransitivity; [exact Hbody | apply Hhandler].
Qed.

(** Writes that [R] lets through. *)
Definition lets_sources : Prop := ∀ v st, R st (set_sources v st).
Definition lets_scores : Prop := ∀ v st, R st (set_scores v st).
Definition lets_rationale : Prop := ∀ v st, R st (set_rationale v st).
Definition lets_final_report : Prop := ∀ v st, R st (set_final_report v st).
Definition lets_bp_extracted_data : Prop := ∀ v st, R st (set_bp_extracted_data v st).
Definition lets_cross_check_results : Prop := ∀ v st, R st (set_cross_check_results v st).
Definition lets_gate : Prop :=
  (∀ v st, R st (set_prescreen_passed v st)) ∧
  (∀ v st, R st (set_prescreen_reason v st)) ∧
  (∀ v st, R st (set_prescreen_confidence v st)) ∧
  (∀ v st, R st (set_scores (<["prescreen" := v]> (scores st)) st)) ∧
  (∀ v st, R st (set_rationale (<["prescreen" := v]> (rationale st)) st)).

End Frame.

(** One structural step of a frame proof. *)
Ltac frame_step :=
  lazymatch goal with
  | |- PreOrder _ => exact _
  | |- frame _ (mret _) => apply frame_ret
  | |- frame _ (lift _) => apply frame_lift
  | |- frame _ get_state => apply frame_get_state
  | |- frame _ (try_catch _ _) => apply frame_try_catch
  | |- frame _ (mbind _ _) => apply frame_bind
  | |- frame _ (modify _) => apply frame_modify
  | |- frame _ (if ?b then _ else _) => destruct b
  | |- frame _ (match ?x with _ => _ end) => destruct x
  | |- ∀ _, _ => intros
  | |- _ => fail "no frame step"
  end.

Section Bodies.

Context (R : relation VentureLensState) `{!PreOrder R}.

Lemma search_and_record_frame w query :
  lets_sources R → frame R (search_and_record w query).
Proof. intros Hs. unfold search_and_record. repeat frame_step; auto. Qed.

Lemma search_each_frame w queries : ∀ acc,
  lets_sources R → frame R (search_each w queries acc).
Proof.
  induction queries as [|query rest IH]; intros acc Hs; cbn [search_each].
  - repeat frame_step.
  - repeat frame_step; auto using search_and_record_frame.
Qed.

Lemma search_extended_frame w queries : ∀ acc,
  lets_sources R → frame R (search_extended w queries acc).
Proof.
  induction queries as [|query rest IH]; intros acc Hs; cbn [search_extended].
  - repeat frame_step.
  - apply frame_bind; [exact _ | |].
    + repeat frame_step; auto using search_and_record_frame.
    + intros [all_results stop]. destruct stop; [repeat frame_step | by apply IH].
Qed.

Lemma search_all_frame w queries : ∀ acc,
  lets_sources R → frame R (search_all w queries acc).
Proof.
  induction queries as [|query rest IH]; intros acc Hs; cbn [search_all].
  - repeat frame_step.
  - apply frame_bind; [exact _ | by apply search_and_record_frame | intros; by apply IH].
Qed.

Lemma _set_default_result_frame company_name error_msg :
  lets_gate R → frame R (_set_default_result company_name error_msg).
Proof.
  intros (Hp & Hr & Hc & Hs & Ht). unfold _set_default_result.
  repeat frame_step; auto.
Qed.

Lemma prescreen_update_state_frame w analysis :
  lets_gate R → lets_final_report R → frame R (prescreen_update_state w analysis).
Proof.
  intros (Hp & Hr & Hc & Hs & Ht) Hf. unfold prescreen_update_state.
  repeat frame_step; auto.
Qed.

Lemma prescreen_execute_frame w :
  lets_sources R → lets_gate R → lets_final_report R → frame R (prescreen_execute w).
Proof.
  intros Hs Hg Hf. unfold prescreen_execute, prescreen_try_block, _search_company_info.
  repeat frame_step;
    auto using search_each_frame, search_extended_frame,
               prescreen_update_state_frame, _set_default_result_frame.
Qed.

Lemma dd_execute_frame w a :
  lets_sources R → lets_scores R → lets_rationale R → frame R (dd_execute w a).
Proof.
  intros Hs Hsc Hr. unfold dd_execute, dd_analyse, dd_update_state.
  repeat frame_step; auto using search_each_frame.
Qed.

Lemma bp_parser_execute_frame w :
  lets_bp_extracted_data R → frame R (bp_parser_execute w).
Proof. intros Hb. unfold bp_parser_execute. repeat frame_step; auto. Qed.

Lemma cross_check_execute_frame w :
  lets_sources R → lets_cross_check_results R → frame R (cross_check_execute w).
Proof.
  intros Hs Hc. unfold cross_check_execute.
  repeat frame_step; auto using search_all_frame.
Qed.

Lemma report_generator_execute_frame w :
  lets_final_report R → frame R (report_generator_execute w).
Proof. intros Hf. unfold report_generator_execute. repeat frame_step; auto. Qed.

End Bodies.

End Frames.

(** ** The coordinator (src/graph.py) *)

Module Workflow.
Import State Checkpoint Agents.

Definition KeyError (msg : string) : PyExn := mkExn "KeyError" msg.

Definition execution_order : list string :=
  ["prescreen"; "bp_parser"; "industry_dd"; "team_dd"; "fin_dd"; "risk_dd";
   "cross_check"; "report_generator"].

(** [self.agents[agent_name]._execute] *)
Definition agents (w : World) (agent_name : string) : option (M unit) :=
  if String.eqb agent_name "prescreen" then Some (prescreen_execute w)
  else if String.eqb agent_name "bp_parser" then Some (bp_parser_execute w)
  else if String.eqb agent_name "industry_dd" then Some (dd_execute w industry_dd)
  else if String.eqb agent_name "team_dd" then Some (dd_execute w team_dd)
  else if String.eqb agent_name "fin_dd" then Some (dd_execute w fin_dd)
  else if String.eqb agent_name "risk_dd" then Some (dd_execute w risk_dd)
  else if String.eqb agent_name "cross_check" then Some (cross_check_execute w)
  else if String.eqb agent_name "report_generator" then Some (report_generator_execute w)
  else None.

(** What a run leaves behind: the state it returns, the checkpoint
    directory, and, as ghost state, the stage wrappers it invoked, in
    order. *)
Record RunOutcome := mkOutcome {
  final_state : VentureLensState;
  checkpoints : gmap string CheckpointFile;
  invoked : list string;
}.

(** [for agent_name in self.execution_order: ...], from the stage at the
    head of [order] on. *)
Fixpoint run_stages (w : World) (checkpoint_enabled : bool) (bp_file_path : option string)
    (order : list string) (st : VentureLensState) (store : gmap string CheckpointFile)
    (trace : list string) : Result RunOutcome :=
  match order with
  | [] => Ok (mkOutcome st store trace)
  | agent_name :: rest =>
      if bool_decide (agent_name ∈ completed_agents st) then
        run_stages w checkpoint_enabled bp_file_path rest st store trace
      else if String.eqb agent_name "bp_parser" && negb (is_given bp_file_path) then
        run_stages w checkpoint_enabled bp_file_path rest st store trace
      else
        match agents w agent_name with
        | None => Raise (KeyError agent_name)
        | Some _execute =>
            let st := _execute_wrapper w agent_name _execute st in
            let trace := (trace ++ [agent_name])%list in
            let store :=
              if checkpoint_enabled
              then _save_checkpoint checkpoint_enabled (write_ok w agent_name) store st
              else store in
            if String.eqb agent_name "prescreen" && negb (truthy (prescreen_passed st)) then
              Ok (mkOutcome
                    (_execute_wrapper w "report_generator" (report_generator_execute w) st)
                    store (trace ++ ["report_generator"])%list)
            else run_stages w checkpoint_enabled bp_file_path rest st store trace
        end
  end.

(** The state a run starts from: the checkpoint of [run_id] when there is a
    readable one, a fresh state otherwise. *)
Definition start_state (w : World) (checkpoint_enabled : bool)
    (store : gmap string CheckpointFile) (company_name : string)
    (bp_file_path run_id : option string) : VentureLensState :=
  let fresh :=
    create_initial_state company_name bp_file_path (default (uuid4 w) run_id)
      (now w "create_initial_state") in
  match run_id with
  | Some id =>
      if negb (String.eqb id "") && checkpoint_enabled then
        match _load_checkpoint store id with
        | Some st => st
        | None => fresh
        end
      else fresh
  | None => fresh
  end.

(** [VentureLensWorkflow.run]. Setting up the external tools and writing
    the final report and state files come before and after the loop; both
    swallow their errors and neither touches the state. *)
Definition run (w : World) (checkpoint_enabled : bool) (store : gmap string CheckpointFile)
    (company_name : string) (bp_file_path run_id : option string) : Result RunOutcome :=
  run_stages w checkpoint_enabled bp_file_path execution_order
    (start_state w checkpoint_enabled store company_name bp_file_path run_id) store [].

(** *** Facts about single stages *)

Import Frames.

Definition dd_categories : list string := ["industry"; "team"; "financial"; "risk"].

(** No score or rationale entry of a due-diligence category was added or
    changed between the two states. *)
Definition dd_untouched (before after : VentureLensState) : Prop :=
  ∀ category, category ∈ dd_categories →
    scores after !! category = scores before !! category ∧
    rationale after !! category = rationale before !! category.

(** Which stages of the order a run invokes when it starts from [st]: those
    not completed, without the document stage when no document is given. *)
Definition to_run (bp_file_path : option string) (st : VentureLensState)
    (agent_name : string) : bool :=
  negb (bool_decide (agent_name ∈ completed_agents st))
  && negb (String.eqb agent_name "bp_parser" && negb (is_given bp_file_path)).

(** Every checkpoint in the directory was written after the gate stage
    completed. The empty directory is such, and runs keep it so
    ([run_keeps_gate_recorded]). *)
Definition gate_recorded (store : gmap string CheckpointFile) : Prop :=
  ∀ key s, store !! key = Some (Document s) → "prescreen" ∈ ser_completed_agents s.

(** The wrapper changes a part of the state only if the body does, unless
    the part is one the wrapper writes itself. *)
Lemma wrapper_keeps {T} (proj : VentureLensState -> T) w name body st :
  (∀ v st, proj (set_current_agent v st) = proj st) →
  (∀ v st, proj (set_completed_agents v st) = proj st) →
  (∀ v st, proj (set_updated_at v st) = proj st) →
  frame (keeps proj) body →
  proj (_execute_wrapper w name body st) = proj st.
Proof.
  intros Hcur Hcompleted Hupdated Hbody. unfold _execute_wrapper.
  specialize (Hbody (set_current_agent name st)). unfold keeps in Hbody.
  destruct (body (set_current_agent name st)) as [[[]|e] st']; simpl in Hbody.
  - unfold update_state_timestamp. rewrite Hupdated.
    destruct (bool_decide _); rewrite ?Hcompleted, Hbody; apply Hcur.
  - unfold update_state_timestamp. rewrite Hupdated, Hcur, Hbody. apply Hcur.
Qed.

(** The wrapper adds the name of its stage to [completed_agents] when the
    body returns and the name is not there yet, and nothing else. *)
Lemma wrapper_completed w name body st :
  frame (keeps completed_agents) body →
  completed_agents (_execute_wrapper w name body st) =
  match fst (body (set_current_agent name st)) with
  | Ok _ =>
      if bool_decide (name ∈ completed_agents st) then completed_agents st
      else (completed_agents st ++ [name])%list
  | Raise _ => completed_agents st
  end.
Proof.
  intros Hbody. unfold _execute_wrapper.
  specialize (Hbody (set_current_agent name st)). unfold keeps in Hbody.
  destruct (body (set_current_agent name st)) as [[[]|e] st']; simpl in *.
  - rewrite Hbody. destruct (bool_decide _); simpl; by rewrite ?Hbody.
  - exact Hbody.
Qed.

Ltac lets_through :=
  repeat split; intros; unfold keeps; simpl;
  rewrite ?lookup_insert_ne by done; reflexivity.

(** A membership in a list of literals that holds for none of them. *)
Ltac no_member H :=
  rewrite ?elem_of_cons, ?elem_of_nil in H;
  repeat (destruct H as [H|H]; [discriminate H|]); destruct H.

Ltac stage_cases Hbody :=
  unfold agents in Hbody;
  repeat match goal with
         | H : (if String.eqb ?n ?s then _ else _) = Some _ |- _ =>
             destruct (String.eqb_spec n s) as [->|?]; [injection H as <- | ]
         end;
  try discriminate.

(** No stage body writes [completed_agents]. *)
Lemma body_keeps_completed w name body :
  agents w name = Some body → frame (keeps completed_agents) body.
Proof.
  intros Hbody. stage_cases Hbody.
  - apply prescreen_execute_frame; [exact _ | lets_through ..].
  - apply bp_parser_execute_frame; [exact _ | lets_through ..].
  - apply dd_execute_frame; [exact _ | lets_through ..].
  - apply dd_execute_frame; [exact _ | lets_through ..].
  - apply dd_execute_frame; [exact _ | lets_through ..].
  - apply dd_execute_frame; [exact _ | lets_through ..].
  - apply cross_check_execute_frame; [exact _ | lets_through ..].
  - apply report_generator_execute_frame; [exact _ | lets_through ..].
Qed.

(** Only the gate stage writes [prescreen_passed]. *)
Lemma body_keeps_gate w name body :
  agents w name = Some body → name ≠ "prescreen" → frame (keeps prescreen_passed) body.
Proof.
  intros Hbody Hname. stage_cases Hbody.
  - done.
  - apply bp_parser_execute_frame; [exact _ | lets_through ..].
  - apply dd_execute_frame; [exact _ | lets_through ..].
  - apply dd_execute_frame; [exact _ | lets_through ..].
  - apply dd_execute_frame; [exact _ | lets_through ..].
  - apply dd_execute_frame; [exact _ | lets_through ..].
  - apply cross_check_execute_frame; [exact _ | lets_through ..].
  - apply report_generator_execute_frame; [exact _ | lets_through ..].
Qed.

(** The stages between the gate and the report do not write
    [final_report]. *)
Lemma body_keeps_final_report w name body :
  agents w name = Some body → name ≠ "prescreen" → name ≠ "report_generator" →
  frame (keeps final_report) body.
Proof.
  intros Hbody Hname Hname'. stage_cases Hbody.
  - done.
  - apply bp_parser_execute_frame; [exact _ | lets_through ..].
  - apply dd_execute_frame; [exact _ | lets_through ..].
  - apply dd_execute_frame; [exact _ | lets_through ..].
  - apply dd_execute_frame; [exact _ | lets_through ..].
  - apply dd_execute_frame; [exact _ | lets_through ..].
  - apply cross_check_execute_frame; [exact _ | lets_through ..].
  - done.
Qed.

(** With the gate closed, a due-diligence body and the cross-check body
    return at once. *)
Lemma dd_execute_gate_closed w a st :
  truthy (prescreen_passed st) = false → dd_execute w a st = (Ok tt, st).
Proof.
  intros Hgate. cbv beta iota zeta delta [dd_execute mbind M_bind get_state].
  by rewrite Hgate.
Qed.

Lemma cross_check_execute_gate_closed w st :
  truthy (prescreen_passed st) = false → cross_check_execute w st = (Ok tt, st).
Proof.
  intros Hgate. cbv beta iota zeta delta [cross_check_execute mbind M_bind get_state].
  by rewrite Hgate.
Qed.

(** The gate stage and the stages that are no due diligence leave the
    score and rationale entries of the due-diligence categories alone. *)
Lemma body_keeps_category w name body category :
  agents w name = Some body →
  name ∈ ["prescreen"; "bp_parser"; "cross_check"; "report_generator"] →
  category ∈ dd_categories →
  frame (keeps (fun st => (scores st !! category, rationale st !! category))) body.
Proof.
  intros Hbody Hname Hcategory.
  assert (Hne : category ≠ "prescreen").
  { intros ->. unfold dd_categories in Hcategory. no_member Hcategory. }
  assert (Hne' : "prescreen" ≠ category) by done.
  stage_cases Hbody.
  - apply prescreen_execute_frame; [exact _ | lets_through ..].
  - apply bp_parser_execute_frame; [exact _ | lets_through ..].
  - no_member Hname.
  - no_member Hname.
  - no_member Hname.
  - no_member Hname.
  - apply cross_check_execute_frame; [exact _ | lets_through ..].
  - apply report_generator_execute_frame; [exact _ | lets_through ..].
Qed.

(** A part of the state that the wrapper does not write is, after the
    wrapper, what the body left. *)
Lemma wrapper_proj {T} (proj : VentureLensState -> T) w name body st :
  (∀ v st, proj (set_current_agent v st) = proj st) →
  (∀ v st, proj (set_completed_agents v st) = proj st) →
  (∀ v st, proj (set_updated_at v st) = proj st) →
  proj (_execute_wrapper w name body st) = proj (snd (body (set_current_agent name st))).
Proof.
  intros Hcur Hcompleted Hupdated. unfold _execute_wrapper.
  destruct (body (set_current_agent name st)) as [[[]|e] st']; simpl.
  - unfold update_state_timestamp. rewrite Hupdated.
    destruct (bool_decide _); by rewrite ?Hcompleted.
  - unfold update_state_timestamp. by rewrite Hupdated, Hcur.
Qed.

(** The gate stage never raises into its wrapper. *)
Lemma prescreen_execute_returns w st : fst (prescreen_execute w st) = Ok tt.
Proof.
  cbv beta iota zeta delta [prescreen_execute mbind M_bind get_state try_catch].
  destruct (prescreen_try_block w (company_name st) st) as [[[]|e] st']; reflexivity.
Qed.

(** With the gate closed the reporting stage returns with a report in
    place: the one it found, or the short rejection report. *)
Lemma report_generator_gate_closed w st :
  truthy (prescreen_passed st) = false →
  is_Some (final_report (snd (report_generator_execute w st))).
Proof.
  intros Hgate.
  cbv beta iota zeta delta [report_generator_execute mbind M_bind get_state].
  rewrite Hgate. cbn [negb]. unfold has_report.
  destruct (final_report st) as [text|] eqn:Hreport; cbn.
  - destruct (String.eqb text ""); cbn; [by eexists | rewrite Hreport; by eexists].
  - by eexists.
Qed.

(** A stage other than the gate stage leaves the gate result alone and
    adds at most its own name to [completed_agents]. *)
Lemma stage_step w name body st :
  agents w name = Some body → name ≠ "prescreen" →
  prescreen_passed (_execute_wrapper w name body st) = prescreen_passed st ∧
  (completed_agents (_execute_wrapper w name body st) = completed_agents st ∨
   completed_agents (_execute_wrapper w name body st) = (completed_agents st ++ [name])%list).
Proof.
  intros Hbody Hname. split.
  - apply wrapper_keeps; try done. by apply (body_keeps_gate w name).
  - rewrite (wrapper_completed w name body st (body_keeps_completed w name body Hbody)).
    destruct (fst _); [destruct (bool_decide _)|]; auto.
Qed.

(** With the gate closed, a stage other than the gate stage adds or changes
    no due-diligence entry, keeps a report that is there, and, if it is the
    reporting stage, leaves a report. *)
Lemma stage_step_gate_closed w name body st :
  agents w name = Some body → name ≠ "prescreen" →
  truthy (prescreen_passed st) = false →
  dd_untouched st (_execute_wrapper w name body st) ∧
  (is_Some (final_report st) → is_Some (final_report (_execute_wrapper w name body st))) ∧
  (name = "report_generator" → is_Some (final_report (_execute_wrapper w name body st))).
Proof.
  intros Hbody Hname Hgate.
  assert (Hgate' : truthy (prescreen_passed (set_current_agent name st)) = false) by done.
  assert (Hframes :
    name ∈ ["prescreen"; "bp_parser"; "cross_check"; "report_generator"] →
    dd_untouched st (_execute_wrapper w name body st)).
  { intros Hin category Hcategory.
    pose proof (wrapper_keeps (fun st => (scores st !! category, rationale st !! category))
                  w name body st ltac:(done) ltac:(done) ltac:(done)
                  (body_keeps_category w name body category Hbody Hin Hcategory)) as H.
    by injection H. }
  assert (Hnoop :
    body (set_current_agent name st) = (Ok tt, set_current_agent name st) →
    dd_untouched st (_execute_wrapper w name body st) ∧
    final_report (_execute_wrapper w name body st) = final_report st).
  { intros Hrun. split.
    - intros category _.
      rewrite (wrapper_proj scores), (wrapper_proj rationale), Hrun by done. done.
    - rewrite (wrapper_proj final_report), Hrun by done. done. }
  assert (Hreport :
    name ≠ "report_generator" →
    final_report (_execute_wrapper w name body st) = final_report st).
  { intros Hname'. apply wrapper_keeps; try done.
    by apply (body_keeps_final_report w name). }
  pose proof Hbody as Hbody'. stage_cases Hbody'.
  - done.
  - split; [apply Hframes; rewrite !elem_of_cons; auto|].
    rewrite Hreport by done. split; [done | discriminate].
  - destruct (Hnoop (dd_execute_gate_closed w _ _ Hgate')) as [? ->].
    split; [assumption | split; [done | discriminate]].
  - destruct (Hnoop (dd_execute_gate_closed w _ _ Hgate')) as [? ->].
    split; [assumption | split; [done | discriminate]].
  - destruct (Hnoop (dd_execute_gate_closed w _ _ Hgate')) as [? ->].
    split; [assumption | split; [done | discriminate]].
  - destruct (Hnoop (dd_execute_gate_closed w _ _ Hgate')) as [? ->].
    split; [assumption | split; [done | discriminate]].
  - split; [apply Hframes; rewrite !elem_of_cons; auto|].
    rewrite Hreport by done. split; [done | discriminate].
  - split; [apply Hframes; rewrite !elem_of_cons; auto|].
    assert (His : is_Some (final_report
                    (_execute_wrapper w "report_generator" (report_generator_execute w) st))).
    { rewrite (wrapper_proj final_report) by done.
      by apply report_generator_gate_closed. }
    by split.
Qed.

Lemma filter_ext_in {A} (P Q : A -> Prop) `{∀ x, Decision (P x)} `{∀ x, Decision (Q x)}
    (l : list A) :
  (∀ x, x ∈ l → P x ↔ Q x) → filter P l = filter Q l.
Proof.
  induction l as [|x l IH]; intros Hext; [done|].
  rewrite !filter_cons. rewrite IH by (intros y Hy; apply Hext; by right).
  destruct (decide (P x)) as [HP|HP], (decide (Q x)) as [HQ|HQ]; try done.
  - exfalso. apply HQ, Hext; [left | done].
  - exfalso. apply HP, Hext; [left | done].
Qed.


Lemma save_gate_recorded enabled ok store st :
  gate_recorded store → "prescreen" ∈ completed_agents st →
  gate_recorded (_save_checkpoint enabled ok store st).
Proof.
  intros Hstore Hst key s. unfold _save_checkpoint.
  destruct (enabled && ok); [|apply Hstore].
  destruct (decide (run_id st = key)) as [<-|Hne].
  - rewrite lookup_insert_eq. by intros [= <-].
  - rewrite lookup_insert_ne by done. apply Hstore.
Qed.

(** *** Runs that start after the gate stage *)

Lemma dd_untouched_trans a b c : dd_untouched a b → dd_untouched b c → dd_untouched a c.
Proof.
  intros Hab Hbc category Hcategory.
  destruct (Hab category Hcategory) as [Hs Hr].
  destruct (Hbc category Hcategory) as [Hs' Hr'].
  split; congruence.
Qed.

Lemma to_run_after_step bp st st' name other :
  (completed_agents st' = completed_agents st ∨
   completed_agents st' = (completed_agents st ++ [name])%list) →
  other ≠ name → to_run bp st' other = to_run bp st other.
Proof.
  intros Hcompleted Hother. unfold to_run.
  destruct Hcompleted as [Hc|Hc]; rewrite Hc; [done|]. f_equal. f_equal.
  apply bool_decide_ext. rewrite elem_of_app, list_elem_of_singleton.
  split; [intros [Hin|Heq]; [done | by destruct Hother] | by left].
Qed.

(** The loop, started with the gate stage among the completed ones: it
    returns; it invokes, in order, exactly the stages that were not completed
    (without the document stage when no document is given); the gate result
    and the completed stages stay; with the gate closed no due-diligence
    entry is added or changed, and a report is in place at the end if one was
    there or the reporting stage was still to run; and every checkpoint it
    writes records the gate stage. *)
Lemma run_stages_resumed w enabled bp : ∀ order st store trace,
  NoDup order →
  (∀ name, name ∈ order → is_Some (agents w name)) →
  "prescreen" ∈ completed_agents st →
  ∃ out, run_stages w enabled bp order st store trace = Ok out ∧
    invoked out = (trace ++ filter (fun name => to_run bp st name = true) order)%list ∧
    prescreen_passed (final_state out) = prescreen_passed st ∧
    (∀ name, name ∈ completed_agents st → name ∈ completed_agents (final_state out)) ∧
    (truthy (prescreen_passed st) = false →
       dd_untouched st (final_state out) ∧
       (is_Some (final_report st) ∨
        (to_run bp st "report_generator" = true ∧ "report_generator" ∈ order) →
        is_Some (final_report (final_state out)))) ∧
    (gate_recorded store → gate_recorded (checkpoints out)).
Proof.
  induction order as [|name rest IH]; intros st store trace Hnodup Hagents Hgate.
  - exists (mkOutcome st store trace). cbn [run_stages]. split; [done|].
    rewrite filter_nil, app_nil_r.
    split; [done|]. split; [done|]. split; [done|]. split; [|done].
    intros _. split; [done|].
    intros [His|[_ Hin]]; [done | by apply elem_of_nil in Hin].
  - apply NoDup_cons in Hnodup as [Hfresh Hnodup].
    assert (Hrest : ∀ name', name' ∈ rest → is_Some (agents w name'))
      by (intros name' Hin; apply Hagents; by right).
    assert (Hskipped :
      to_run bp st name = false →
      (∃ out, run_stages w enabled bp rest st store trace = Ok out ∧
         invoked out
           = (trace ++ filter (fun name => to_run bp st name = true) (name :: rest))%list ∧
         prescreen_passed (final_state out) = prescreen_passed st ∧
         (∀ name, name ∈ completed_agents st → name ∈ completed_agents (final_state out)) ∧
         (truthy (prescreen_passed st) = false →
            dd_untouched st (final_state out) ∧
            (is_Some (final_report st) ∨
             (to_run bp st "report_generator" = true ∧ "report_generator" ∈ name :: rest) →
             is_Some (final_report (final_state out)))) ∧
         (gate_recorded store → gate_recorded (checkpoints out)))).
    { intros Hto.
      destruct (IH st store trace Hnodup Hrest Hgate)
        as (out & Hrun & Hinv & Hpass & Hmono & Hclosed & Hstore).
      exists out. split; [exact Hrun|].
      rewrite filter_cons_False by (rewrite Hto; discriminate).
      split; [exact Hinv|]. split; [exact Hpass|]. split; [exact Hmono|].
      split; [|exact Hstore].
      intros Hc. destruct (Hclosed Hc) as [Hu Hr]. split; [exact Hu|].
      intros [His|[Hto' Hin]]; apply Hr; [by left|right].
      split; [done|]. apply elem_of_cons in Hin as [<-|Hin]; [|done].
      rewrite Hto in Hto'. discriminate. }
    cbn [run_stages].
    destruct (bool_decide (name ∈ completed_agents st)) eqn:Hdone.
    { apply Hskipped. unfold to_run. by rewrite Hdone. }
    destruct (String.eqb name "bp_parser" && negb (is_given bp)) eqn:Hskip.
    { apply Hskipped. unfold to_run. by rewrite Hdone, Hskip. }
    assert (Hto : to_run bp st name = true)
      by (unfold to_run; by rewrite Hdone, Hskip).
    clear Hskipped.
    destruct (Hagents name ltac:(left)) as [body Hbody]. rewrite Hbody.
    assert (Hname : name ≠ "prescreen").
    { intros ->. by apply bool_decide_eq_false in Hdone. }
    replace (String.eqb name "prescreen") with false
      by (symmetry; by apply String.eqb_neq).
    cbn [andb].
    set (st' := _execute_wrapper w name body st).
    set (store' := if enabled then _save_checkpoint enabled (write_ok w name) store st'
                   else store).
    destruct (stage_step w name body st Hbody Hname) as [Hpass' Hcompleted'].
    fold st' in Hpass', Hcompleted'.
    assert (Hgate' : "prescreen" ∈ completed_agents st').
    { destruct Hcompleted' as [Hc|Hc]; rewrite Hc; [done|]. apply elem_of_app. by left. }
    destruct (IH st' store' (trace ++ [name])%list Hnodup Hrest Hgate')
      as (out & Hrun & Hinv & Hpass & Hmono & Hclosed & Hstore).
    exists out. split; [exact Hrun|].
    assert (Hfilter : filter (fun name' => to_run bp st' name' = true) rest
                      = filter (fun name' => to_run bp st name' = true) rest).
    { apply filter_ext_in. intros other Hother.
      rewrite (to_run_after_step bp st st' name other Hcompleted'); [done|].
      intros ->. done. }
    split; [|split; [|split; [|split]]].
    + rewrite filter_cons_True by done. rewrite Hinv, Hfilter, <- app_assoc. done.
    + by rewrite Hpass.
    + intros name' Hin. apply Hmono.
      destruct Hcompleted' as [Hc|Hc]; rewrite Hc; [done|]. apply elem_of_app. by left.
    + intros Hclosed_st.
      destruct (stage_step_gate_closed w name body st Hbody Hname Hclosed_st)
        as (Huntouched & Hkeeps & Hreports). fold st' in Huntouched, Hkeeps, Hreports.
      destruct Hclosed as [Huntouched' Hreport']; [by rewrite Hpass'|].
      split; [by eapply dd_untouched_trans|].
      intros [His|[Hto' Hin]]; apply Hreport'.
      * left. by apply Hkeeps.
      * apply elem_of_cons in Hin as [Heq|Hin].
        -- left. by apply Hreports.
        -- right. split; [|done].
           rewrite (to_run_after_step bp st st' name _ Hcompleted'); [done|].
           intros <-. done.
    + intros Hrecorded. apply Hstore. unfold store'.
      destruct enabled; [|done]. by apply save_gate_recorded.
Qed.

(** The short rejection report is never the empty text. *)
Lemma rejection_report_nonempty w company_name reason :
  String.eqb (_generate_simple_rejection_report w company_name reason) "" = false.
Proof. reflexivity. Qed.

(** With the gate closed, a stage other than the gate stage keeps a report
    that is not empty as it is, and the reporting stage leaves a report that
    is not empty. *)
Lemma stage_step_report w name body st :
  agents w name = Some body → name ≠ "prescreen" →
  truthy (prescreen_passed st) = false →
  (has_report st = true →
   final_report (_execute_wrapper w name body st) = final_report st) ∧
  (name = "report_generator" → has_report (_execute_wrapper w name body st) = true).
Proof.
  intros Hbody Hname Hgate.
  destruct (decide (name = "report_generator")) as [->|Hother].
  - injection Hbody as <-.
    assert (Hgate' : truthy (prescreen_passed (set_current_agent "report_generator" st))
                     = false) by done.
    assert (Hrun : final_report
                     (_execute_wrapper w "report_generator" (report_generator_execute w) st)
                   = if has_report st then final_report st
                     else Some (_generate_simple_rejection_report w (company_name st)
                                  (prescreen_reason st))).
    { rewrite (wrapper_proj final_report) by done.
      cbv beta iota zeta delta [report_generator_execute mbind M_bind get_state modify
                                  mret M_ret].
      rewrite Hgate'. cbn [negb].
      change (has_report (set_current_agent "report_generator" st)) with (has_report st).
      by destruct (has_report st). }
    split.
    + intros Hhas. by rewrite Hrun, Hhas.
    + intros _. unfold has_report at 1. rewrite Hrun.
      destruct (has_report st) eqn:Hhas; [exact Hhas|].
      by rewrite rejection_report_nonempty.
  - split; [|done]. intros _.
    apply wrapper_keeps; try done. by apply (body_keeps_final_report w name).
Qed.

(** The loop, resumed after the gate stage with the gate closed: a report
    that is not empty is returned as it is, and a reporting stage that is
    still to run leaves a report that is not empty. *)
Lemma run_stages_report w enabled bp : ∀ order st store trace out,
  "prescreen" ∈ completed_agents st →
  truthy (prescreen_passed st) = false →
  run_stages w enabled bp order st store trace = Ok out →
  (has_report st = true → final_report (final_state out) = final_report st) ∧
  ("report_generator" ∈ order → "report_generator" ∉ completed_agents st →
   has_report (final_state out) = true).
Proof.
  induction order as [|name rest IH]; intros st store trace out Hdone Hgate Hrun.
  - cbn [run_stages] in Hrun. injection Hrun as <-. cbn [final_state].
    split; [done|]. by intros Hin%elem_of_nil.
  - cbn [run_stages] in Hrun.
    destruct (bool_decide (name ∈ completed_agents st)) eqn:Hcompleted.
    { destruct (IH st store trace out Hdone Hgate Hrun) as [Hkept Hwritten].
      split; [exact Hkept|]. intros Hin Hnot. apply Hwritten; [|exact Hnot].
      apply elem_of_cons in Hin as [<-|Hin]; [|exact Hin].
      by apply bool_decide_eq_true in Hcompleted. }
    destruct (String.eqb name "bp_parser" && negb (is_given bp)) eqn:Hskip.
    { destruct (IH st store trace out Hdone Hgate Hrun) as [Hkept Hwritten].
      split; [exact Hkept|]. intros Hin Hnot. apply Hwritten; [|exact Hnot].
      apply elem_of_cons in Hin as [<-|Hin]; [|exact Hin]. discriminate. }
    destruct (agents w name) as [body|] eqn:Hbody; [|discriminate].
    assert (Hname : name ≠ "prescreen").
    { intros ->. by apply bool_decide_eq_false in Hcompleted. }
    replace (String.eqb name "prescreen") with false in Hrun
      by (symmetry; by apply String.eqb_neq).
    cbn [andb] in Hrun.
    destruct (stage_step w name body st Hbody Hname) as [Hpass Hcompleted'].
    destruct (stage_step_report w name body st Hbody Hname Hgate) as [Hkeeps Hwrites].
    set (st' := _execute_wrapper w name body st) in *.
    assert (Hdone' : "prescreen" ∈ completed_agents st').
    { destruct Hcompleted' as [Hc|Hc]; rewrite Hc; [done|]. apply elem_of_app. by left. }
    assert (Hgate' : truthy (prescreen_passed st') = false) by (by rewrite Hpass).
    destruct (IH st' _ _ out Hdone' Hgate' Hrun) as [Hkept Hwritten].
    split.
    + intros Hhas. rewrite <- (Hkeeps Hhas). apply Hkept.
      unfold has_report. rewrite (Hkeeps Hhas). exact Hhas.
    + intros Hin Hnot.
      destruct (decide (name = "report_generator")) as [->|Hother].
      * unfold has_report. rewrite (Hkept (Hwrites eq_refl)). by apply Hwrites.
      * apply Hwritten.
        -- apply elem_of_cons in Hin as [<-|Hin]; [done | exact Hin].
        -- destruct Hcompleted' as [Hc|Hc]; rewrite Hc; [done|].
           rewrite elem_of_app, list_elem_of_singleton. by intros [?|?].
Qed.

Lemma execution_order_NoDup : NoDup execution_order.
Proof. by apply (bool_decide_unpack _). Qed.

Lemma execution_order_agents w name :
  name ∈ execution_order → is_Some (agents w name).
Proof.
  unfold execution_order. rewrite !elem_of_cons, elem_of_nil.
  intros H. repeat (destruct H as [->|H]; [by eexists|]). done.
Qed.

(** *** Runs in which the gate stage executes *)

(** The first pass of the loop when the gate stage is still to run. *)
Lemma run_stages_gate w enabled bp st store :
  "prescreen" ∉ completed_agents st →
  run_stages w enabled bp execution_order st store [] =
  let st1 := _execute_wrapper w "prescreen" (prescreen_execute w) st in
  let store1 :=
    if enabled then _save_checkpoint enabled (write_ok w "prescreen") store st1
    else store in
  if negb (truthy (prescreen_passed st1)) then
    Ok (mkOutcome (_execute_wrapper w "report_generator" (report_generator_execute w) st1)
          store1 ["prescreen"; "report_generator"])
  else run_stages w enabled bp (tail execution_order) st1 store1 ["prescreen"].
Proof.
  intros Hfresh. unfold execution_order. cbn [run_stages tail].
  rewrite bool_decide_eq_false_2 by done. reflexivity.
Qed.

(** The gate stage always ends up among the completed ones. *)
Lemma prescreen_completed w st :
  "prescreen" ∈ completed_agents (_execute_wrapper w "prescreen" (prescreen_execute w) st).
Proof.
  rewrite (wrapper_completed w "prescreen" _ st
             (body_keeps_completed w "prescreen" _ eq_refl)).
  rewrite prescreen_execute_returns.
  destruct (bool_decide _) eqn:Hin.
  - by apply bool_decide_eq_true in Hin.
  - apply elem_of_app. right. left.
Qed.

(** Every run returns, and keeps the checkpoint directory such that each
    checkpoint records the gate stage. *)
Lemma run_keeps_gate_recorded w enabled store company_name bp_file_path run_id :
  gate_recorded store →
  ∃ out, run w enabled store company_name bp_file_path run_id = Ok out ∧
         gate_recorded (checkpoints out).
Proof.
  intros Hstore. unfold run.
  set (st0 := start_state w enabled store company_name bp_file_path run_id).
  destruct (decide ("prescreen" ∈ completed_agents st0)) as [Hin|Hout].
  - destruct (run_stages_resumed w enabled bp_file_path execution_order st0 store []
                execution_order_NoDup (execution_order_agents w) Hin)
      as (out & Hrun & _ & _ & _ & _ & Hrec).
    exists out. split; [exact Hrun | by apply Hrec].
  - rewrite (run_stages_gate w enabled bp_file_path st0 store Hout). cbv zeta.
    set (st1 := _execute_wrapper w "prescreen" (prescreen_execute w) st0).
    assert (Hstore1 : gate_recorded
              (if enabled then _save_checkpoint enabled (write_ok w "prescreen") store st1
               else store)).
    { destruct enabled; [|done]. apply save_gate_recorded; [done|].
      apply prescreen_completed. }
    destruct (truthy (prescreen_passed st1)); cbn [negb].
    + destruct (run_stages_resumed w enabled bp_file_path (tail execution_order) st1
                  (if enabled
                   then _save_checkpoint enabled (write_ok w "prescreen") store st1
                   else store) ["prescreen"])
        as (out & Hrun & _ & _ & _ & _ & Hrec).
      * by apply (bool_decide_unpack _).
      * intros name Hin. apply execution_order_agents. by right.
      * apply prescreen_completed.
      * exists out. split; [exact Hrun | by apply Hrec].
    + eexists. split; [reflexivity | exact Hstore1].
Qed.

(** The gate is closed for a run that starts from [st]: either the gate
    stage executes in this run and leaves [prescreen_passed] false, or the
    run resumes after the gate stage, with [prescreen_passed] false in the
    checkpoint. *)
Definition gate_closed (w : World) (st : VentureLensState) : Prop :=
  (("prescreen" ∉ completed_agents st) ∧
   truthy (prescreen_passed (_execute_wrapper w "prescreen" (prescreen_execute w) st))
     = false)
  ∨
  ("prescreen" ∈ completed_agents st ∧ truthy (prescreen_passed st) = false).

(** A fresh state has no score and no rationale entry. *)
Lemma fresh_state_no_entries company_name bp_file_path run_id now category :
  scores (create_initial_state company_name bp_file_path run_id now) !! category = None ∧
  rationale (create_initial_state company_name bp_file_path run_id now) !! category = None.
Proof. split; apply lookup_empty. Qed.

(** C1. In every run in which the gate is closed, fresh or resumed, the run
    returns; no score or rationale entry of a due-diligence category is
    added or changed between the state the run starts from and the state it
    returns, so the entries that are absent at the start, as all are in a
    fresh state, are absent at the end; and the gate is still closed. The
    reporting stage is invoked in this run if and only if the gate stage
    executed in this run or the reporting stage is not yet among the
    completed stages of the checkpoint: a run resumed from a checkpoint in
    which it is completed does not invoke it again. When the reporting stage
    is invoked, [final_report] is set at the end, to a text that is not
    empty. [final_report] is also set at the end when the state the run
    starts from has a report, as the checkpoint of a completed reporting
    stage has; and a resumed run whose checkpoint has a report that is not
    empty returns that very report. *)
Theorem gate_short_circuit (w : World) (checkpoint_enabled : bool)
    (store : gmap string CheckpointFile) (company_name : string)
    (bp_file_path run_id : option string) :
  gate_closed w (start_state w checkpoint_enabled store company_name bp_file_path run_id) →
  ∃ out,
    run w checkpoint_enabled store company_name bp_file_path run_id = Ok out ∧
    dd_untouched
      (start_state w checkpoint_enabled store company_name bp_file_path run_id)
      (final_state out) ∧
    (∀ category, category ∈ dd_categories →
       scores
         (start_state w checkpoint_enabled store company_name bp_file_path run_id)
         !! category = None →
       rationale
         (start_state w checkpoint_enabled store company_name bp_file_path run_id)
         !! category = None →
       scores (final_state out) !! category = None ∧
       rationale (final_state out) !! category = None) ∧
    ("report_generator" ∈ invoked out ↔
     "prescreen" ∉ completed_agents
       (start_state w checkpoint_enabled store company_name bp_file_path run_id)
     ∨ "report_generator" ∉ completed_agents
         (start_state w checkpoint_enabled store company_name bp_file_path run_id)) ∧
    ("report_generator" ∈ invoked out → has_report (final_state out) = true) ∧
    ("report_generator" ∈ invoked out
     ∨ is_Some
         (final_report
            (start_state w checkpoint_enabled store company_name bp_file_path run_id)) →
     is_Some (final_report (final_state out))) ∧
    ("prescreen" ∈ completed_agents
       (start_state w checkpoint_enabled store company_name bp_file_path run_id) →
     has_report
       (start_state w checkpoint_enabled store company_name bp_file_path run_id) = true →
     final_report (final_state out)
     = final_report
         (start_state w checkpoint_enabled store company_name bp_file_path run_id)) ∧
    truthy (prescreen_passed (final_state out)) = false.
Proof.
  unfold run.
  set (st0 := start_state w checkpoint_enabled store company_name bp_file_path run_id).
  assert (Habsent : ∀ final, dd_untouched st0 final →
            ∀ category, category ∈ dd_categories →
              scores st0 !! category = None → rationale st0 !! category = None →
              scores final !! category = None ∧ rationale final !! category = None).
  { intros final Huntouched category Hcategory Hs Hr.
    destruct (Huntouched category Hcategory) as [-> ->]. by split. }
  intros [[Hfresh Hgate]|[Hdone Hgate]].
  - rewrite (run_stages_gate w checkpoint_enabled bp_file_path st0 store Hfresh). cbv zeta.
    set (st1 := _execute_wrapper w "prescreen" (prescreen_execute w) st0) in *.
    rewrite Hgate. cbn [negb].
    eexists. split; [reflexivity|]. cbn [final_state invoked].
    assert (Hpass : prescreen_passed
                      (_execute_wrapper w "report_generator" (report_generator_execute w) st1)
                    = prescreen_passed st1).
    { apply wrapper_keeps; try done. by apply (body_keeps_gate w "report_generator"). }
    assert (Huntouched : dd_untouched st0
              (_execute_wrapper w "report_generator" (report_generator_execute w) st1)).
    { apply (dd_untouched_trans st0 st1).
      - intros category Hcategory.
        pose proof (wrapper_keeps
                      (fun st => (scores st !! category, rationale st !! category))
                      w "prescreen" (prescreen_execute w) st0
                      ltac:(done) ltac:(done) ltac:(done)
                      (body_keeps_category w "prescreen" _ category eq_refl
                         ltac:(left) Hcategory)) as H.
        by injection H.
      - apply (stage_step_gate_closed w "report_generator" _ st1 eq_refl); done. }
    split; [exact Huntouched|]. split; [by apply Habsent|].
    split; [|split; [|split; [|split]]].
    + split; [by left | intros _; rewrite !elem_of_cons; auto].
    + intros _. by apply (stage_step_report w "report_generator" _ st1 eq_refl).
    + intros _. apply (stage_step_gate_closed w "report_generator" _ st1 eq_refl); done.
    + done.
    + by rewrite Hpass.
  - destruct (run_stages_resumed w checkpoint_enabled bp_file_path execution_order st0
                store [] execution_order_NoDup (execution_order_agents w) Hdone)
      as (out & Hrun & Hinv & Hpass & _ & Hclosed & _).
    destruct (Hclosed Hgate) as [Huntouched Hreports].
    destruct (run_stages_report w checkpoint_enabled bp_file_path execution_order st0
                store [] out Hdone Hgate Hrun) as [Hkept Hwritten].
    assert (Hin : "report_generator" ∈ execution_order).
    { unfold execution_order. rewrite !elem_of_cons. auto 10. }
    assert (Hinvoked : "report_generator" ∈ invoked out ↔
                       to_run bp_file_path st0 "report_generator" = true).
    { rewrite Hinv. cbn [app]. rewrite list_elem_of_filter. tauto. }
    assert (Hto : to_run bp_file_path st0 "report_generator" = true ↔
                  "report_generator" ∉ completed_agents st0).
    { unfold to_run. cbn [String.eqb Ascii.eqb Bool.eqb andb negb].
      rewrite andb_true_r, negb_true_iff, bool_decide_eq_false. done. }
    exists out. split; [exact Hrun|]. split; [exact Huntouched|].
    split; [by apply Habsent|].
    split; [|split; [|split; [|split]]].
    + rewrite Hinvoked, Hto. split; [by right | by intros [Hout|Hout]].
    + intros Hinvoked'. apply Hwritten; [exact Hin|]. by apply Hto, Hinvoked.
    + intros [Hinvoked'|His]; apply Hreports; [right | by left].
      split; [by apply Hinvoked | exact Hin].
    + intros _. exact Hkept.
    + by rewrite Hpass.
Qed.


(** *** What the gate stage leaves *)

Lemma _search_company_info_frame w company_name :
  frame (keeps (fun st => (final_report st, prescreen_passed st, scores st)))
        (_search_company_info w company_name).
Proof.
  unfold _search_company_info. apply frame_bind; [exact _ | |].
  - apply search_each_frame; [exact _ | lets_through].
  - intros all_results. destruct (_ <? _)%nat.
    + apply search_extended_frame; [exact _ | lets_through].
    + apply frame_ret. exact _.
Qed.

(** The state [_update_state] leaves: the gate result is what the analysis
    says; when it says passed, [final_report] is not written and the stage
    returns; when it does not, the recorded score is 3.0. *)
Lemma prescreen_update_state_spec w analysis st :
  prescreen_passed (snd (prescreen_update_state w analysis st))
    = dict_get analysis "passed" (PBool false) ∧
  (truthy (dict_get analysis "passed" (PBool false)) = true →
     fst (prescreen_update_state w analysis st) = Ok tt ∧
     final_report (snd (prescreen_update_state w analysis st)) = final_report st) ∧
  (truthy (dict_get analysis "passed" PNone) = false →
     scores (snd (prescreen_update_state w analysis st)) !! "prescreen"
       ≫= (fun entry => entry !! "overall") = Some (PFloat 3.0)).
Proof.
  cbv beta iota zeta delta [prescreen_update_state mbind M_bind modify get_state lift
                            mret M_ret].
  destruct (truthy (dict_get analysis "passed" (PBool false))) eqn:Hpassed;
    cbv beta iota zeta delta [negb].
  - split; [done|]. split; [done|]. intros Hnone.
    cbn [snd scores set_scores set_rationale].
    rewrite lookup_insert_eq, Hnone. cbn [mbind option_bind list_to_map foldr curry].
    by rewrite lookup_insert_eq.
  - destruct (format_rejection_report w _ _ _) as [report|e];
      (split; [done|]; split; [done|]; intros Hnone;
       cbn [snd scores set_scores set_rationale set_final_report];
       rewrite lookup_insert_eq, Hnone;
       cbn [mbind option_bind list_to_map foldr curry];
       by rewrite lookup_insert_eq).
Qed.

(** The state [_set_default_result] leaves. *)
Lemma _set_default_result_spec company_name error_msg st :
  prescreen_passed (snd (_set_default_result company_name error_msg st)) = PBool false ∧
  scores (snd (_set_default_result company_name error_msg st)) !! "prescreen"
    ≫= (fun entry => entry !! "overall") = Some (PFloat 3.0).
Proof.
  cbv beta iota zeta delta [_set_default_result mbind M_bind modify].
  split; [done|]. cbn [snd scores set_scores set_rationale].
  rewrite lookup_insert_eq. cbn [mbind option_bind list_to_map foldr curry].
  by rewrite lookup_insert_eq.
Qed.

Lemma default_analysis_not_passed company_name error_reason default :
  dict_get (prescreen_default_analysis company_name error_reason) "passed" default
  = PBool false.
Proof.
  unfold dict_get, prescreen_default_analysis. cbn [list_to_map foldr].
  by rewrite lookup_insert_eq.
Qed.

(** A gate stage that passes has not written [final_report]. *)
Lemma prescreen_execute_passed w st :
  truthy (prescreen_passed (snd (prescreen_execute w st))) = true →
  final_report (snd (prescreen_execute w st)) = final_report st.
Proof.
  cbv beta iota zeta delta [prescreen_execute prescreen_try_block mbind M_bind
                            get_state try_catch].
  pose proof (_search_company_info_frame w (company_name st) st) as Hsearch.
  unfold keeps in Hsearch.
  destruct (_search_company_info w (company_name st) st) as [[results|e] st1];
    cbn [snd] in Hsearch; injection Hsearch as Hreport Hpassed Hscores.
  - destruct (prescreen_update_state_spec w
                (_analyze_with_llm w (company_name st) results) st1)
      as (Hgate & Hpass & _).
    destruct (prescreen_update_state w _ st1) as [[[]|e] st2]; cbn [fst snd] in *.
    + intros Htruthy. rewrite Hgate in Htruthy.
      destruct (Hpass Htruthy) as [_ ->]. exact Hreport.
    + destruct (_set_default_result_spec (company_name st) (exn_str e) st2) as [-> _].
      discriminate.
  - destruct (_set_default_result_spec (company_name st) (exn_str e) st1) as [-> _].
    discriminate.
Qed.

(** The gate stage fails for the world [w] on the state [st] it is handed:
    the model call raises, or something raises inside the [try] of
    [_execute]. *)
Definition gate_failure (w : World) (st : VentureLensState) : Prop :=
  (∃ e, simple_analyze w "prescreen" = Raise e) ∨
  (∃ e, fst (prescreen_try_block w (company_name st) st) = Raise e).

(** On such a failure the stage leaves the gate closed and the low score
    recorded. *)
Lemma prescreen_execute_failure w st :
  gate_failure w st →
  prescreen_passed (snd (prescreen_execute w st)) = PBool false ∧
  scores (snd (prescreen_execute w st)) !! "prescreen"
    ≫= (fun entry => entry !! "overall") = Some (PFloat 3.0).
Proof.
  intros Hfailure.
  cbv beta iota zeta delta [prescreen_execute mbind M_bind get_state try_catch].
  destruct (prescreen_try_block w (company_name st) st) as [[[]|e] st2] eqn:Hblock;
    [|apply _set_default_result_spec].
  destruct Hfailure as [[e Hllm]|[e Hraise]];
    [|rewrite Hblock in Hraise; discriminate].
  revert Hblock.
  cbv beta iota zeta delta [prescreen_try_block mbind M_bind].
  destruct (_search_company_info w (company_name st) st) as [[results|e'] st1];
    [|discriminate].
  assert (Hanalysis : _analyze_with_llm w (company_name st) results
                      = prescreen_default_analysis (company_name st) (exn_str e)).
  { unfold _analyze_with_llm. by rewrite Hllm. }
  rewrite Hanalysis.
  destruct (prescreen_update_state_spec w
              (prescreen_default_analysis (company_name st) (exn_str e)) st1)
    as (Hgate & _ & Hscore).
  intros Hblock. rewrite Hblock in Hgate, Hscore. cbn [snd] in Hgate, Hscore.
  rewrite default_analysis_not_passed in Hgate.
  split; [exact Hgate|]. apply Hscore.
  by rewrite default_analysis_not_passed.
Qed.

(** The wrapper of the gate stage takes its success path: the stage is
    current, not in error. *)
Lemma prescreen_wrapper_current w st :
  current_agent (_execute_wrapper w "prescreen" (prescreen_execute w) st) = "prescreen".
Proof.
  unfold _execute_wrapper.
  pose proof (prescreen_execute_returns w (set_current_agent "prescreen" st)) as Hret.
  pose proof (prescreen_execute_frame (keeps current_agent) w
                ltac:(lets_through) ltac:(lets_through) ltac:(lets_through)
                (set_current_agent "prescreen" st)) as Hcur.
  unfold keeps in Hcur.
  destruct (prescreen_execute w (set_current_agent "prescreen" st)) as [[[]|e] st'];
    [|discriminate].
  cbn [snd] in Hcur. destruct (bool_decide _); exact Hcur.
Qed.

(** C8, as the code has it. [final_report] has two writers, the gate stage
    and the reporting stage: the wrapper of any other stage returns it as it
    found it. The gate stage writes it only when it rejects: after a gate
    stage that passed, it is as before. In a run in which the gate stage
    executes and writes it, the only stage invoked afterwards is the
    reporting stage, which is also the last stage of the execution order. *)
Theorem final_report_writers (w : World) :
  (∀ name body st,
     agents w name = Some body → name ≠ "prescreen" → name ≠ "report_generator" →
     final_report (_execute_wrapper w name body st) = final_report st) ∧
  (∀ st,
     truthy (prescreen_passed (_execute_wrapper w "prescreen" (prescreen_execute w) st))
       = true →
     final_report (_execute_wrapper w "prescreen" (prescreen_execute w) st)
       = final_report st) ∧
  (∀ checkpoint_enabled store company_name bp_file_path run_id,
     "prescreen" ∉ completed_agents
        (start_state w checkpoint_enabled store company_name bp_file_path run_id) →
     final_report
       (_execute_wrapper w "prescreen" (prescreen_execute w)
          (start_state w checkpoint_enabled store company_name bp_file_path run_id))
     ≠ final_report
         (start_state w checkpoint_enabled store company_name bp_file_path run_id) →
     ∃ out,
       run w checkpoint_enabled store company_name bp_file_path run_id = Ok out ∧
       invoked out = ["prescreen"; "report_generator"]) ∧
  last execution_order = Some "report_generator".
Proof.
  assert (Hpassed : ∀ st,
     truthy (prescreen_passed (_execute_wrapper w "prescreen" (prescreen_execute w) st))
       = true →
     final_report (_execute_wrapper w "prescreen" (prescreen_execute w) st)
       = final_report st).
  { intros st. rewrite (wrapper_proj prescreen_passed), (wrapper_proj final_report) by done.
    intros Htruthy. by rewrite (prescreen_execute_passed w _ Htruthy). }
  split; [|split; [exact Hpassed | split; [|reflexivity]]].
  - intros name body st Hbody Hname Hname'. apply wrapper_keeps; try done.
    by apply (body_keeps_final_report w name).
  - intros enabled store company_name bp_file_path run_id Hfresh Hwritten.
    unfold run. rewrite (run_stages_gate w enabled bp_file_path _ store Hfresh). cbv zeta.
    destruct (truthy (prescreen_passed _)) eqn:Hgate.
    + exfalso. apply Hwritten. by apply Hpassed.
    + cbn [negb]. eexists. split; reflexivity.
Qed.

(** C10, as the code has it. When the model call of the gate stage raises,
    or anything raises inside the [try] of its [_execute], the gate fails
    closed: the stage returns to its wrapper without an exception, the
    wrapper marks it current and completed, [prescreen_passed] is [False] and
    the score 3.0 is recorded; and a run that resumes from a checkpoint of
    that state does not invoke the gate stage again. (A search query that
    raises is caught inside [_search_company_info] and is no such failure.) *)
Theorem gate_fails_closed (w : World) (st : VentureLensState) :
  gate_failure w (set_current_agent "prescreen" st) →
  fst (prescreen_execute w (set_current_agent "prescreen" st)) = Ok tt ∧
  current_agent (_execute_wrapper w "prescreen" (prescreen_execute w) st) = "prescreen" ∧
  prescreen_passed (_execute_wrapper w "prescreen" (prescreen_execute w) st)
    = PBool false ∧
  scores (_execute_wrapper w "prescreen" (prescreen_execute w) st) !! "prescreen"
    ≫= (fun entry => entry !! "overall") = Some (PFloat 3.0) ∧
  "prescreen" ∈ completed_agents (_execute_wrapper w "prescreen" (prescreen_execute w) st) ∧
  ∀ w' store company_name bp_file_path run_id,
    run_id ≠ "" →
    _load_checkpoint store run_id
      = Some (_execute_wrapper w "prescreen" (prescreen_execute w) st) →
    ∃ out,
      run w' true store company_name bp_file_path (Some run_id) = Ok out ∧
      "prescreen" ∉ invoked out.
Proof.
  intros Hfailure.
  destruct (prescreen_execute_failure w _ Hfailure) as [Hgate Hscore].
  split; [apply prescreen_execute_returns|].
  split; [apply prescreen_wrapper_current|].
  split; [by rewrite (wrapper_proj prescreen_passed)|].
  split; [by rewrite (wrapper_proj scores)|].
  split; [apply prescreen_completed|].
  intros w' store company_name bp_file_path run_id Hid Hload.
  unfold run, start_state. apply String.eqb_neq in Hid. rewrite Hid. cbn [negb andb].
  rewrite Hload.
  destruct (run_stages_resumed w' true bp_file_path execution_order
              (_execute_wrapper w "prescreen" (prescreen_execute w) st) store []
              execution_order_NoDup (execution_order_agents w') (prescreen_completed w st))
    as (out & Hrun & Hinv & _).
  exists out. split; [exact Hrun|].
  rewrite Hinv. cbn [app]. intros [Hto _]%list_elem_of_filter.
  unfold to_run in Hto.
  rewrite (bool_decide_eq_true_2 _ (prescreen_completed w st)) in Hto. discriminate.
Qed.

(** *** Closed examples *)

Definition example_time : datetime := mkDatetime 2024 2 29 23 59 58 123456.

(** Two model replies: a rejection and an acceptance. *)
Definition reply_reject : string :=
  "{" ++ Recovery.dq ++ "passed" ++ Recovery.dq ++ ": false, "
      ++ Recovery.dq ++ "reason" ++ Recovery.dq ++ ": "
      ++ Recovery.dq ++ "no product" ++ Recovery.dq ++ "}".

Definition reply_accept : string :=
  "{" ++ Recovery.dq ++ "passed" ++ Recovery.dq ++ ": true}".

(** A world with one hit per query (or a search back end that is down),
    a completion service that answers every stage with [reply] (or is
    down), and formatters that return a line of text. *)
Definition example_world (search_up llm_up : bool) (reply : string) : World :=
  mkWorld
    (fun _ => if search_up
              then Ok [mkHit "title" "https://example.org" "content" 0.5 "web"]
              else Raise (mkExn "TimeoutError" "search timed out"))
    (fun _ => if llm_up then Ok (mkCompletion true reply None)
              else Raise (mkExn "ConnectionError" "service unreachable"))
    (fun _ => example_time) "generated-id" (fun _ => false)
    (fun _ => Ok "") (fun _ _ => Ok PNone) (fun _ => Ok PNone)
    (fun _ => true) (fun _ => "no product") (fun _ => "2024-02-29 23:59:58")
    (fun company_name _ _ => Ok ("rejected " ++ company_name))
    (fun _ _ => Ok "full report").

Definition example_fresh : VentureLensState :=
  create_initial_state "Acme" None "r1" example_time.



(** The checkpoint a run leaves after a rejecting gate stage. *)
Definition example_rejected : VentureLensState :=
  set_final_report (Some "rejected Acme")
    (set_completed_agents ["prescreen"]
       (set_prescreen_passed (PBool false) example_fresh)).

Definition example_rejected_store : gmap string CheckpointFile :=
  {["r1" := Document (_serialize_state example_rejected)]}.

(** The checkpoint of a rejected run that was resumed and went through the
    remaining stages, the reporting stage included. *)
Definition example_reported : VentureLensState :=
  set_completed_agents
    ["prescreen"; "industry_dd"; "team_dd"; "fin_dd"; "risk_dd"; "cross_check";
     "report_generator"]
    example_rejected.

Definition example_reported_store : gmap string CheckpointFile :=
  {["r1" := Document (_serialize_state example_reported)]}.

(** A fresh run whose gate stage rejects; a run resumed from the checkpoint
    of a rejection, in a world whose model would accept; and a run resumed
    from the checkpoint of a rejected run whose reporting stage is
    completed. *)
Lemma gate_short_circuit_witness :
  (∃ out,
     run (example_world true true reply_reject) false ∅ "Acme" None
       None = Ok out ∧
     dd_untouched
       (start_state (example_world true true reply_reject) false ∅
          "Acme" None None)
       (final_state out) ∧
     (∀ category, category ∈ dd_categories →
        scores
          (start_state (example_world true true reply_reject) false ∅
             "Acme" None None)
          !! category = None →
        rationale
          (start_state (example_world true true reply_reject) false ∅
             "Acme" None None)
          !! category = None →
        scores (final_state out) !! category = None ∧
        rationale (final_state out) !! category = None) ∧
     ("report_generator" ∈ invoked out ↔
      "prescreen" ∉ completed_agents
        (start_state (example_world true true reply_reject) false ∅
           "Acme" None None)
      ∨ "report_generator" ∉ completed_agents
          (start_state (example_world true true reply_reject) false ∅
             "Acme" None None)) ∧
     ("report_generator" ∈ invoked out → has_report (final_state out) = true) ∧
     ("report_generator" ∈ invoked out
      ∨ is_Some
          (final_report
             (start_state (example_world true true reply_reject) false ∅
                "Acme" None None)) →
      is_Some (final_report (final_state out))) ∧
     ("prescreen" ∈ completed_agents
        (start_state (example_world true true reply_reject) false ∅
           "Acme" None None) →
      has_report
        (start_state (example_world true true reply_reject) false ∅
           "Acme" None None) = true →
      final_report (final_state out)
      = final_report
          (start_state (example_world true true reply_reject) false ∅
             "Acme" None None)) ∧
     truthy (prescreen_passed (final_state out)) = false) ∧
  (∃ out,
     run (example_world true true reply_accept) true example_rejected_store "Acme" None
       (Some "r1") = Ok out ∧
     dd_untouched
       (start_state (example_world true true reply_accept) true example_rejected_store
          "Acme" None (Some "r1"))
       (final_state out) ∧
     (∀ category, category ∈ dd_categories →
        scores
          (start_state (example_world true true reply_accept) true example_rejected_store
             "Acme" None (Some "r1"))
          !! category = None →
        rationale
          (start_state (example_world true true reply_accept) true example_rejected_store
             "Acme" None (Some "r1"))
          !! category = None →
        scores (final_state out) !! category = None ∧
        rationale (final_state out) !! category = None) ∧
     ("report_generator" ∈ invoked out ↔
      "prescreen" ∉ completed_agents
        (start_state (example_world true true reply_accept) true example_rejected_store
           "Acme" None (Some "r1"))
      ∨ "report_generator" ∉ completed_agents
          (start_state (example_world true true reply_accept) true example_rejected_store
             "Acme" None (Some "r1"))) ∧
     ("report_generator" ∈ invoked out → has_report (final_state out) = true) ∧
     ("report_generator" ∈ invoked out
      ∨ is_Some
          (final_report
             (start_state (example_world true true reply_accept) true example_rejected_store
                "Acme" None (Some "r1"))) →
      is_Some (final_report (final_state out))) ∧
     ("prescreen" ∈ completed_agents
        (start_state (example_world true true reply_accept) true example_rejected_store
           "Acme" None (Some "r1")) →
      has_report
        (start_state (example_world true true reply_accept) true example_rejected_store
           "Acme" None (Some "r1")) = true →
      final_report (final_state out)
      = final_report
          (start_state (example_world true true reply_accept) true example_rejected_store
             "Acme" None (Some "r1"))) ∧
     truthy (prescreen_passed (final_state out)) = false) ∧
  (∃ out,
     run (example_world true true reply_accept) true example_reported_store "Acme" None
       (Some "r1") = Ok out ∧
     dd_untouched
       (start_state (example_world true true reply_accept) true example_reported_store
          "Acme" None (Some "r1"))
       (final_state out) ∧
     (∀ category, category ∈ dd_categories →
        scores
          (start_state (example_world true true reply_accept) true example_reported_store
             "Acme" None (Some "r1"))
          !! category = None →
        rationale
          (start_state (example_world true true reply_accept) true example_reported_store
             "Acme" None (Some "r1"))
          !! category = None →
        scores (final_state out) !! category = None ∧
        rationale (final_state out) !! category = None) ∧
     ("report_generator" ∈ invoked out ↔
      "prescreen" ∉ completed_agents
        (start_state (example_world true true reply_accept) true example_reported_store
           "Acme" None (Some "r1"))
      ∨ "report_generator" ∉ completed_agents
          (start_state (example_world true true reply_accept) true example_reported_store
             "Acme" None (Some "r1"))) ∧
     ("report_generator" ∈ invoked out → has_report (final_state out) = true) ∧
     ("report_generator" ∈ invoked out
      ∨ is_Some
          (final_report
             (start_state (example_world true true reply_accept) true example_reported_store
                "Acme" None (Some "r1"))) →
      is_Some (final_report (final_state out))) ∧
     ("prescreen" ∈ completed_agents
        (start_state (example_world true true reply_accept) true example_reported_store
           "Acme" None (Some "r1")) →
      has_report
        (start_state (example_world true true reply_accept) true example_reported_store
           "Acme" None (Some "r1")) = true →
      final_report (final_state out)
      = final_report
          (start_state (example_world true true reply_accept) true example_reported_store
             "Acme" None (Some "r1"))) ∧
     truthy (prescreen_passed (final_state out)) = false).
Proof.
  split; [|split].
  - apply (gate_short_circuit (example_world true true reply_reject) false ∅
             "Acme" None None).
    left. split.
    + cbn. apply not_elem_of_nil.
    + vm_compute. reflexivity.
  - apply (gate_short_circuit (example_world true true reply_accept) true
             example_rejected_store "Acme" None (Some "r1")).
    right.
    assert (Hstart : start_state (example_world true true reply_accept) true
                       example_rejected_store "Acme" None (Some "r1") = example_rejected)
      by (vm_compute; reflexivity).
    rewrite Hstart. split; [cbn; left | reflexivity].
  - apply (gate_short_circuit (example_world true true reply_accept) true
             example_reported_store "Acme" None (Some "r1")).
    right.
    assert (Hstart : start_state (example_world true true reply_accept) true
                       example_reported_store "Acme" None (Some "r1") = example_reported)
      by (vm_compute; reflexivity).
    rewrite Hstart. split; [cbn; left | reflexivity].
Defined.

(** Three runs of one run id, with checkpoints on, in a world whose gate
    stage rejects. The first run is fresh: the gate stage rejects and the
    reporting stage runs. The second resumes from the checkpoint the first
    wrote after the gate stage: the remaining stages are invoked, the
    reporting stage last, and the checkpoint written after it holds the
    state the run returns, with the gate closed, the gate stage completed and
    the reporting stage completed. The third run resumes from that
    checkpoint: the gate is closed, and no stage is invoked, the reporting
    stage included; the run returns the state of the checkpoint, with the
    report that is in it. *)
Lemma gate_short_circuit_counterexample :
  ∃ out1 out2 out3,
    run (example_world true true reply_reject) true ∅ "Acme" None (Some "r1") = Ok out1 ∧
    invoked out1 = ["prescreen"; "report_generator"] ∧
    run (example_world true true reply_reject) true (checkpoints out1) "Acme" None
      (Some "r1") = Ok out2 ∧
    invoked out2 = ["industry_dd"; "team_dd"; "fin_dd"; "risk_dd"; "cross_check";
                    "report_generator"] ∧
    _load_checkpoint (checkpoints out2) "r1" = Some (final_state out2) ∧
    start_state (example_world true true reply_reject) true (checkpoints out2) "Acme" None
      (Some "r1") = final_state out2 ∧
    prescreen_passed (final_state out2) = PBool false ∧
    completed_agents (final_state out2)
      = ["prescreen"; "industry_dd"; "team_dd"; "fin_dd"; "risk_dd"; "cross_check";
         "report_generator"] ∧
    run (example_world true true reply_reject) true (checkpoints out2) "Acme" None
      (Some "r1") = Ok out3 ∧
    invoked out3 = [] ∧
    final_state out3 = final_state out2 ∧
    final_report (final_state out3) = Some "rejected Acme".
Proof.
  eexists _, _, _.
  split; [vm_compute; reflexivity|].
  repeat (split; [vm_compute; reflexivity|]).
  vm_compute; reflexivity.
Qed.


(** The gate stage writes [final_report]: on a rejection, the state its
    wrapper returns carries the rejection report, before the reporting stage
    has run. *)
Lemma final_report_writers_counterexample :
  final_report example_fresh = None ∧
  final_report
    (_execute_wrapper (example_world true true reply_reject) "prescreen"
       (prescreen_execute (example_world true true reply_reject)) example_fresh)
  = Some "rejected Acme" ∧
  "prescreen" ≠ "report_generator".
Proof.
  split; [reflexivity|]. split; [vm_compute; reflexivity | discriminate].
Qed.

Lemma gate_fails_closed_witness :
  fst (prescreen_execute (example_world true false reply_accept)
         (set_current_agent "prescreen" example_fresh)) = Ok tt ∧
  current_agent
    (_execute_wrapper (example_world true false reply_accept) "prescreen"
       (prescreen_execute (example_world true false reply_accept)) example_fresh)
  = "prescreen" ∧
  prescreen_passed
    (_execute_wrapper (example_world true false reply_accept) "prescreen"
       (prescreen_execute (example_world true false reply_accept)) example_fresh)
  = PBool false ∧
  scores
    (_execute_wrapper (example_world true false reply_accept) "prescreen"
       (prescreen_execute (example_world true false reply_accept)) example_fresh)
    !! "prescreen" ≫= (fun entry => entry !! "overall") = Some (PFloat 3.0) ∧
  "prescreen" ∈ completed_agents
    (_execute_wrapper (example_world true false reply_accept) "prescreen"
       (prescreen_execute (example_world true false reply_accept)) example_fresh) ∧
  ∀ w' store company_name bp_file_path run_id,
    run_id ≠ "" →
    _load_checkpoint store run_id
      = Some (_execute_wrapper (example_world true false reply_accept) "prescreen"
                (prescreen_execute (example_world true false reply_accept)) example_fresh) →
    ∃ out,
      run w' true store company_name bp_file_path (Some run_id) = Ok out ∧
      "prescreen" ∉ invoked out.
Proof.
  apply (gate_fails_closed (example_world true false reply_accept) example_fresh).
  left. eexists. reflexivity.
Defined.

(** Every search of the gate stage raises, the model accepts on what is
    left, and the gate is open: [prescreen_passed] is [True], with the score
    8.0, and the run goes on through every stage. *)
Lemma gate_fails_closed_counterexample :
  (∀ query, search_multiple_sources (example_world false true reply_accept) query
            = Raise (mkExn "TimeoutError" "search timed out")) ∧
  prescreen_passed
    (_execute_wrapper (example_world false true reply_accept) "prescreen"
       (prescreen_execute (example_world false true reply_accept)) example_fresh)
  = PBool true ∧
  scores
    (_execute_wrapper (example_world false true reply_accept) "prescreen"
       (prescreen_execute (example_world false true reply_accept)) example_fresh)
    !! "prescreen" ≫= (fun entry => entry !! "overall") = Some (PFloat 8.0) ∧
  (invoked <$> run (example_world false true reply_accept) false ∅ "Acme" None None)
  = Ok ["prescreen"; "industry_dd"; "team_dd"; "fin_dd"; "risk_dd"; "cross_check";
        "report_generator"].
Proof.
  split; [reflexivity|]. split; [vm_compute; reflexivity|].
  split; vm_compute; reflexivity.
Qed.

End Workflow.

(** ** More on the tool-calling loop (src/agents/base.py) *)

Module LoopFacts.
Import Toolkit ToolLoop.

(** The [tool_call_id]s of the tool-role entries of a transcript, in order. *)
Definition tool_message_ids (msgs : list Message) : list string :=
  omap (fun m => match m with ToolMessage id _ => Some id | _ => None end) msgs.

Section Loop.

Variable tools : gmap string BaseTool.
Variable agent_name : string.
Variable call_llm_with_tools :
  nat -> list Message -> list pyval -> string -> Result Response.
Variable json_loads : string -> Result pyval.
Variable json_dumps : pyval -> Result string.

Local Abbreviation run_tool_call := (run_tool_call tools json_loads json_dumps).
Local Abbreviation while_loop := (while_loop tools call_llm_with_tools json_loads json_dumps).
Local Abbreviation execute_with_tools :=
  (execute_with_tools tools agent_name call_llm_with_tools json_loads json_dumps).

(** One tool call: the transcript grows at its end by one tool-role entry
    that carries the call's id, with at most one assistant entry before it,
    and at most one result is recorded. *)
Lemma run_tool_call_appends v tool_call :
  ∃ added,
    messages (run_tool_call v tool_call) = (messages v ++ added)%list ∧
    tool_message_ids added = [tc_id tool_call] ∧
    (length (tool_results v) <= length (tool_results (run_tool_call v tool_call))
       <= length (tool_results v) + 1)%nat.
Proof.
  unfold ToolLoop.run_tool_call.
  destruct (json_loads _) as [arguments|e].
  - destruct (_execute_tool_by_function_name _ _ _) as [tool_result|e].
    + destruct (json_dumps _) as [text|e]; cbn; rewrite <- !app_assoc, ?length_app; cbn;
        (eexists; split; [reflexivity | split; [reflexivity | lia]]).
    + cbn. eexists. split; [reflexivity | split; [reflexivity | lia]].
  - cbn. eexists. split; [reflexivity | split; [reflexivity | lia]].
Qed.

Lemma tool_message_ids_app l1 l2 :
  tool_message_ids (l1 ++ l2) = (tool_message_ids l1 ++ tool_message_ids l2)%list.
Proof. apply omap_app. Qed.

Lemma run_tool_calls_append tool_calls : ∀ v,
  ∃ added,
    messages (fold_left run_tool_call tool_calls v) = (messages v ++ added)%list ∧
    tool_message_ids added = tc_id <$> tool_calls ∧
    (length (tool_results (fold_left run_tool_call tool_calls v))
       <= length (tool_results v) + length tool_calls)%nat.
Proof.
  induction tool_calls as [|tool_call rest IH]; intros v; cbn [fold_left].
  - exists []. rewrite app_nil_r. cbn. split; [done | split; [done | lia]].
  - destruct (run_tool_call_appends v tool_call) as (added & Hm & Hids & Hres).
    destruct (IH (run_tool_call v tool_call)) as (added' & Hm' & Hids' & Hres').
    exists (added ++ added')%list. rewrite Hm', Hm, <- app_assoc.
    split; [done|]. rewrite tool_message_ids_app, Hids, Hids'.
    split; [done|]. cbn [length]. lia.
Qed.

(** X1. However the tool calls of a response go (arguments that do not
    parse, a tool that is not registered, a handler that raises, a result that
    does not serialise), executing them appends to the transcript exactly one
    tool-role entry per call, carrying the id of the call, in the order of the
    calls; the transcript that was there stays at its front, and at most one
    result is recorded per call. *)
Theorem tool_replies_follow_requests (tool_calls : list ToolCall) (v : LoopVars) :
  tool_message_ids (messages (fold_left run_tool_call tool_calls v))
    = (tool_message_ids (messages v) ++ (tc_id <$> tool_calls))%list ∧
  messages v `prefix_of` messages (fold_left run_tool_call tool_calls v) ∧
  (length (tool_results (fold_left run_tool_call tool_calls v))
     <= length (tool_results v) + length tool_calls)%nat.
Proof.
  destruct (run_tool_calls_append tool_calls v) as (added & Hm & Hids & Hres).
  rewrite Hm, tool_message_ids_app, Hids.
  split; [done|]. split; [by exists added | done].
Qed.

(** The loop invariant of the general case. *)
Lemma while_loop_bounded defs sys max_iterations : ∀ (fuel : nat) (v : LoopVars),
  (Z.to_nat (max_iterations - iteration v) < fuel)%nat →
  match while_loop fuel defs sys max_iterations v with
  | Returned v' =>
      (iteration v <= iteration v' <= Z.max (iteration v) max_iterations)%Z ∧
      ((Z.of_nat (llm_calls v') - Z.of_nat (llm_calls v) = iteration v' - iteration v)%Z ∨
       ((Z.of_nat (llm_calls v') - Z.of_nat (llm_calls v) = iteration v' - iteration v + 1)%Z ∧
        (iteration v' < max_iterations)%Z)) ∧
      messages v `prefix_of` messages v'
  | Raised e => ∃ n msgs, call_llm_with_tools n msgs defs sys = Raise e
  | OutOfFuel => False
  end.
Proof.
  induction fuel as [|fuel IH]; intros v Hfuel; [lia|].
  cbn [ToolLoop.while_loop].
  destruct (Z.ltb_spec (iteration v) max_iterations) as [Hlt|Hge].
  2:{ cbn. split; [lia|]. split; [left; lia | done]. }
  destruct (call_llm_with_tools (llm_calls v) (messages v) defs sys) as [response|e] eqn:Hcall.
  2:{ by exists (llm_calls v), (messages v). }
  destruct (truthy (resp_error response)).
  { cbn. split; [lia|]. split; [right; lia | done]. }
  set (v0 := mkLoopVars (messages v) (iteration v) (final_result v) (tool_results v)
                        (S (llm_calls v))).
  set (v1 := if is_nonempty (resp_tool_calls response)
             then fold_left run_tool_call (resp_tool_calls response) v0 else v0).
  assert (H1 : iteration v1 = iteration v ∧ llm_calls v1 = S (llm_calls v) ∧
               messages v `prefix_of` messages v1).
  { unfold v1. destruct (is_nonempty _); [|done].
    destruct (run_tool_calls_frame tools json_loads json_dumps (resp_tool_calls response) v0)
      as (Hi & _ & Hc).
    destruct (run_tool_calls_append (resp_tool_calls response) v0) as (added & Hm & _).
    split; [exact Hi|]. split; [exact Hc|]. rewrite Hm. by exists added. }
  destruct H1 as (Hi & Hc & Hm).
  destruct (negb (String.eqb (resp_content response) "") && _).
  { cbn. rewrite Hi, Hc. split; [lia|]. split; [right; lia | done]. }
  specialize (IH (mkLoopVars (messages v1) (iteration v1 + 1) (final_result v1)
                             (tool_results v1) (llm_calls v1))).
  cbn [iteration llm_calls messages] in IH.
  destruct (ToolLoop.while_loop _ _ _ _ fuel defs sys max_iterations _) as [v'|e|].
  - destruct IH as (Hiter & Hcalls & Hmsgs); [lia|]. rewrite Hi, Hc in *.
    split; [lia|]. split.
    + destruct Hcalls as [Hcalls|[Hcalls Hlt']]; [left | right]; lia.
    + by etransitivity.
  - apply IH. lia.
  - apply IH. lia.
Qed.

(** X2. [execute_with_tools] always comes to an end, for every completion
    service, tool registry and JSON codec: it never needs more passes than the
    bound allows. It raises only an exception the completion service raised.
    When it returns it has made at most [max_iterations] model calls (none for
    a bound that is not positive); the reported [iterations] lies between 0
    and the bound and is the number of model calls, or one less when the loop
    ended in a [break]; and the transcript still starts with the prompt. *)
Theorem tool_loop_always_ends (prompt system_message : string) (max_iterations : Z) :
  match execute_with_tools prompt system_message max_iterations with
  | Returned (res, calls) =>
      (calls <= Z.to_nat max_iterations)%nat ∧
      (0 <= iterations res <= Z.max 0 max_iterations)%Z ∧
      (Z.of_nat calls = iterations res ∨ Z.of_nat calls = iterations res + 1)%Z ∧
      [UserMessage prompt] `prefix_of` res_messages res
  | Raised e =>
      ∃ n msgs, call_llm_with_tools n msgs
                  (to_openai_format <$> get_tools_for_agent tools agent_name) system_message
                = Raise e
  | OutOfFuel => False
  end.
Proof.
  unfold ToolLoop.execute_with_tools.
  pose proof (while_loop_bounded
                (to_openai_format <$> get_tools_for_agent tools agent_name)
                system_message max_iterations (S (Z.to_nat max_iterations))
                (mkLoopVars [UserMessage prompt] 0 "" [] 0)) as H.
  cbn [iteration llm_calls messages] in H.
  destruct (ToolLoop.while_loop _ _ _ _ _ _ _ _ _) as [v'|e|].
  - destruct H as (Hiter & Hcalls & Hmsgs); [lia|]. cbn [iterations res_messages].
    split; [|split; [lia | split; [|done]]].
    + destruct Hcalls as [Hcalls|[Hcalls Hlt]]; lia.
    + destruct Hcalls as [Hcalls|[Hcalls Hlt]]; [left | right]; lia.
  - apply H. lia.
  - apply H. lia.
Qed.

(** X3. When the first response of the completion service carries a truthy
    [error], the loop ends at once and without raising: one model call,
    [iterations] 0, no tool result, the transcript as it started, and the
    empty string as [final_response]. *)
Theorem tool_loop_error_response (prompt system_message : string) (max_iterations : Z)
    (response : Response) :
  (0 < max_iterations)%Z →
  call_llm_with_tools 0 [UserMessage prompt]
    (to_openai_format <$> get_tools_for_agent tools agent_name) system_message
    = Ok response →
  truthy (resp_error response) = true →
  execute_with_tools prompt system_message max_iterations
    = Returned (mkExecResult "" [] 0 [UserMessage prompt], 1%nat).
Proof.
  intros Hmax Hcall Herr. unfold ToolLoop.execute_with_tools. cbn.
  destruct (Z.ltb_spec 0 max_iterations) as [_|Hge]; [|lia].
  by rewrite Hcall, Herr.
Qed.

End Loop.

(** A stub whose every answer carries an error flag. *)
Definition stub_error : nat -> list Message -> list pyval -> string -> Result Response :=
  fun _ _ _ _ => Ok (mkResponse (PStr "Request timeout") [] EmptyString).

Lemma tool_loop_error_response_witness :
  ToolLoop.execute_with_tools ∅ "prescreen" stub_error loads_empty_object dumps_placeholder
    "prompt" "system" default_max_iterations
  = Returned (mkExecResult EmptyString [] 0 [UserMessage "prompt"], 1%nat).
Proof.
  apply (tool_loop_error_response ∅ "prescreen" stub_error loads_empty_object
           dumps_placeholder "prompt" "system" default_max_iterations
           (mkResponse (PStr "Request timeout") [] EmptyString)).
  - reflexivity.
  - reflexivity.
  - reflexivity.
Defined.

End LoopFacts.

(** ** The built-in tools and their names (src/services/toolkit.py) *)

Module Registry.
Import Toolkit ToolLoop.

(** The [execute] coroutine of a tool: code that searches and formats, and
    may raise when the keyword arguments do not fit its parameters. *)
Definition Handler : Type := gmap string pyval -> Result pyval.

Definition SearchTool (execute : Handler) : BaseTool :=
  mkTool "search_information" "搜索指定主题的相关信息，返回搜索结果"
    (py_dict
      [("type", PStr "object");
       ("properties", py_dict
          [("query", py_dict
              [("type", PStr "string");
               ("description", PStr "搜索查询字符串")]);
           ("max_results", py_dict
              [("type", PStr "integer");
               ("description", PStr "最大返回结果数");
               ("default", PInt 5)])]);
       ("required", PList [PStr "query"])])
    execute.

Definition CompanyInfoTool (execute : Handler) : BaseTool :=
  mkTool "get_company_info" "获取指定公司的基本信息，包括成立时间、业务领域、注册信息等"
    (py_dict
      [("type", PStr "object");
       ("properties", py_dict
          [("company_name", py_dict
              [("type", PStr "string");
               ("description", PStr "公司名称")])]);
       ("required", PList [PStr "company_name"])])
    execute.

Definition IndustryAnalysisTool (execute : Handler) : BaseTool :=
  mkTool "analyze_industry" "分析指定行业的市场规模、增长趋势、竞争格局等"
    (py_dict
      [("type", PStr "object");
       ("properties", py_dict
          [("industry", py_dict
              [("type", PStr "string");
               ("description", PStr "行业名称")]);
           ("company_name", py_dict
              [("type", PStr "string");
               ("description", PStr "公司名称（可选）");
               ("default", PStr EmptyString)])]);
       ("required", PList [PStr "industry"])])
    execute.

Definition FinancialInfoTool (execute : Handler) : BaseTool :=
  mkTool "get_financial_info" "获取公司的财务信息，包括融资历史、估值、营收等"
    (py_dict
      [("type", PStr "object");
       ("properties", py_dict
          [("company_name", py_dict
              [("type", PStr "string");
               ("description", PStr "公司名称")])]);
       ("required", PList [PStr "company_name"])])
    execute.

Definition RiskAssessmentTool (execute : Handler) : BaseTool :=
  mkTool "assess_risks" "评估公司的各类风险，包括市场风险、竞争风险、运营风险等"
    (py_dict
      [("type", PStr "object");
       ("properties", py_dict
          [("company_name", py_dict
              [("type", PStr "string");
               ("description", PStr "公司名称")]);
           ("focus_areas", py_dict
              [("type", PStr "array");
               ("items", py_dict
                  [("type", PStr "string")]);
               ("description", PStr "重点关注的风险领域（可选）")])]);
       ("required", PList [PStr "company_name"])])
    execute.

Definition EnterpriseSourceTool (execute : Handler) : BaseTool :=
  mkTool "query_enterprise_data" "查询企业数据源信息（天眼查、爱企查等）"
    (py_dict
      [("type", PStr "object");
       ("properties", py_dict
          [("company_name", py_dict
              [("type", PStr "string");
               ("description", PStr "公司名称")]);
           ("info_type", py_dict
              [("type", PStr "string");
               ("enum", PList [PStr "basic"; PStr "financial"; PStr "legal"; PStr "investment"]);
               ("description", PStr "信息类型");
               ("default", PStr "basic")]);
           ("preferred_sources", py_dict
              [("type", PStr "array");
               ("items", py_dict
                  [("type", PStr "string")]);
               ("description", PStr "首选数据源列表")])]);
       ("required", PList [PStr "company_name"])])
    execute.

(** The [execute] coroutines of the five built-in tools. *)
Record Builtins := mkBuiltins {
  search_execute : Handler;
  company_info_execute : Handler;
  industry_analysis_execute : Handler;
  financial_info_execute : Handler;
  risk_assessment_execute : Handler;
}.

(** [VentureLensToolkit._initialize_tools]; [enterprise_manager] is
    [self.enterprise_manager], given by the [execute] of the tool built on
    it when it is set. *)
Definition _initialize_tools (b : Builtins) (enterprise_manager : option Handler)
    : gmap string BaseTool :=
  let tools : gmap string BaseTool :=
    list_to_map
      [("search", SearchTool (search_execute b));
       ("company_info", CompanyInfoTool (company_info_execute b));
       ("industry_analysis", IndustryAnalysisTool (industry_analysis_execute b));
       ("financial_info", FinancialInfoTool (financial_info_execute b));
       ("risk_assessment", RiskAssessmentTool (risk_assessment_execute b))] in
  match enterprise_manager with
  | Some execute => <["enterprise_data" := EnterpriseSourceTool execute]> tools
  | None => tools
  end.

(** What [execute_tool] does with a registered tool. *)
Definition run_tool (tool : BaseTool) (kwargs : gmap string pyval) : Result pyval :=
  try_except (result ← execute tool kwargs; Ok result) (fun e => Ok (failure (exn_str e))).

Lemma builtin_cases b key tool :
  _initialize_tools b None !! key = Some tool →
  (key, tool) ∈
    [("search", SearchTool (search_execute b));
     ("company_info", CompanyInfoTool (company_info_execute b));
     ("industry_analysis", IndustryAnalysisTool (industry_analysis_execute b));
     ("financial_info", FinancialInfoTool (financial_info_execute b));
     ("risk_assessment", RiskAssessmentTool (risk_assessment_execute b))].
Proof.
  unfold _initialize_tools. intros H. apply elem_of_list_to_map; [|exact H].
  by apply (bool_decide_unpack _).
Qed.

(** X4. In the registry [_initialize_tools] builds for a toolkit without an
    enterprise manager, every tool is found again under the function name it
    advertises to the model: [tool_mapping] sends the [name] of the tool
    registered under a key back to that key, so [_execute_tool_by_function_name]
    with the advertised name runs that very tool (for keyword arguments that
    do not clash with the parameters of [execute_tool]). *)
Theorem builtin_function_names_resolve (b : Builtins) (key : string) (tool : BaseTool)
    (kwargs : gmap string pyval) :
  _initialize_tools b None !! key = Some tool →
  kwargs !! "self" = None → kwargs !! "tool_name" = None →
  tool_mapping (name tool) = key ∧
  _execute_tool_by_function_name (_initialize_tools b None) (name tool) (PDict kwargs)
    = run_tool tool kwargs.
Proof.
  intros Hkey Hself Hname.
  assert (Hmap : tool_mapping (name tool) = key).
  { apply builtin_cases in Hkey. rewrite !elem_of_cons, elem_of_nil in Hkey.
    destruct Hkey as [H|[H|[H|[H|[H|[]]]]]]; injection H as -> ->; reflexivity. }
  split; [exact Hmap|].
  unfold _execute_tool_by_function_name, execute_tool. by rewrite Hself, Hname, Hmap, Hkey.
Qed.

(** X5. The enterprise tool is the exception. When [_initialize_tools]
    registers it, it does so under the key [enterprise_data], and every known
    stage is offered it under its function name [query_enterprise_data];
    [tool_mapping] has no entry for that name, so a call by the advertised
    name looks for a tool registered as [query_enterprise_data], finds none,
    and is answered with the structured failure, the tool not being run. *)
Theorem enterprise_function_name_unresolved (b : Builtins) (enterprise_execute : Handler)
    (agent_type : string) (kwargs : gmap string pyval) :
  agent_type ∈ ["prescreen"; "industry_dd"; "team_dd"; "fin_dd"; "risk_dd"; "cross_check"] →
  kwargs !! "self" = None → kwargs !! "tool_name" = None →
  EnterpriseSourceTool enterprise_execute
    ∈ get_tools_for_agent (_initialize_tools b (Some enterprise_execute)) agent_type ∧
  _execute_tool_by_function_name (_initialize_tools b (Some enterprise_execute))
      (name (EnterpriseSourceTool enterprise_execute)) (PDict kwargs)
    = Ok (failure "工具 query_enterprise_data 不存在").
Proof.
  intros Hagent Hself Hname. split.
  - unfold get_tools_for_agent. apply list_elem_of_omap. exists "enterprise_data".
    split; [|reflexivity].
    rewrite !elem_of_cons, elem_of_nil in Hagent.
    destruct Hagent as [->|[->|[->|[->|[->|[->|[]]]]]]]; cbn; rewrite !elem_of_cons; auto 10.
  - unfold _execute_tool_by_function_name, execute_tool. rewrite Hself, Hname. reflexivity.
Qed.

(** *** Tool calls outside the loop *)

Section ToolCalls.

(** [self.toolkit.tools] and [json.loads] *)
Variable tools : gmap string BaseTool.
Variable json_loads : string -> Result pyval.

(** One pass of the loop of [BaseAgent._execute_tool_calls]: the [try]
    block, up to the line it logs, with the result of the tool as its value.
    Arguments that are no dict raise [TypeError], at the membership test, at
    the item assignment or at the call; a dict with a key that clashes with a
    parameter of [execute_tool] raises at the call, as [execute_tool] has it;
    a result that is no dict raises at [result.get]. *)
Definition execute_tool_call (company_name : string) (tool_call : ToolCall)
    : Result pyval :=
  let function_name := tc_function_name tool_call in
  arguments ← json_loads (tc_function_arguments tool_call);
  match arguments with
  | PDict kwargs =>
      let kwargs :=
        match kwargs !! "company_name" with
        | Some _ => kwargs
        | None => <["company_name" := PStr company_name]> kwargs
        end in
      result ← execute_tool tools function_name kwargs;
      match result with
      | PDict _ => Ok result
      | _ => Raise (Agents.AttributeError "object has no attribute 'get'")
      end
  | _ => Raise (TypeError "arguments are no mapping")
  end.

(** [BaseAgent._execute_tool_calls] returns [None]; what it leaves is its
    log, one entry per tool call: the result of the tool, or the exception it
    caught. [toolkit_set] says whether [self.toolkit] is set. *)
Definition _execute_tool_calls (toolkit_set : bool) (tool_calls : list ToolCall)
    (company_name : string) : list (Result pyval) :=
  if toolkit_set then execute_tool_call company_name <$> tool_calls else [].

End ToolCalls.

Lemma advertised_name_is_no_key b enterprise_manager key tool :
  _initialize_tools b enterprise_manager !! key = Some tool →
  _initialize_tools b enterprise_manager !! name tool = None.
Proof.
  intros Hkey.
  assert (Hname : name tool ∈ ["search_information"; "get_company_info"; "analyze_industry";
                               "get_financial_info"; "assess_risks";
                               "query_enterprise_data"]).
  { destruct enterprise_manager as [execute|].
    - unfold _initialize_tools in Hkey.
      apply lookup_insert_Some in Hkey as [[_ <-]|[_ Hkey]].
      + cbn. rewrite !elem_of_cons. auto 10.
      + apply (builtin_cases b) in Hkey. rewrite !elem_of_cons, elem_of_nil in Hkey.
        destruct Hkey as [H|[H|[H|[H|[H|[]]]]]]; injection H as -> ->; cbn;
          rewrite !elem_of_cons; auto 10.
    - apply builtin_cases in Hkey. rewrite !elem_of_cons, elem_of_nil in Hkey.
      destruct Hkey as [H|[H|[H|[H|[H|[]]]]]]; injection H as -> ->; cbn;
        rewrite !elem_of_cons; auto 10. }
  clear Hkey. rewrite !elem_of_cons, elem_of_nil in Hname.
  destruct enterprise_manager as [execute|];
    destruct Hname as [->|[->|[->|[->|[->|[->|[]]]]]]]; reflexivity.
Qed.

(** X6. [_execute_tool_calls] hands the function name of a tool call to
    [execute_tool] as it is, without the mapping that the tool loop applies.
    The built-in tools and the enterprise tool are registered under keys that
    differ from the function names they advertise, so in the registry
    [_initialize_tools] builds, a well-formed call of any of them by its
    advertised name runs no tool: it is answered with the structured failure
    that no such tool exists. *)
Theorem _execute_tool_calls_misses_builtin_tools (b : Builtins)
    (enterprise_manager : option Handler) (json_loads : string -> Result pyval)
    (company_name : string) (key : string) (tool : BaseTool) (tool_call : ToolCall)
    (kwargs : gmap string pyval) :
  _initialize_tools b enterprise_manager !! key = Some tool →
  tc_function_name tool_call = name tool →
  json_loads (tc_function_arguments tool_call) = Ok (PDict kwargs) →
  kwargs !! "self" = None → kwargs !! "tool_name" = None →
  _execute_tool_calls (_initialize_tools b enterprise_manager) json_loads true
    [tool_call] company_name
  = [Ok (failure ("工具 " ++ name tool ++ " 不存在"))].
Proof.
  intros Hkey Hname Hloads Hself Htool.
  unfold _execute_tool_calls, execute_tool_call. cbn [fmap list_fmap].
  rewrite Hloads, Hname. cbn [mbind Result_bind].
  assert (Hclash :
    ∀ kwargs' : gmap string pyval,
      kwargs' = match kwargs !! "company_name" with
                | Some _ => kwargs
                | None => <["company_name" := PStr company_name]> kwargs
                end →
      kwargs' !! "self" = None ∧ kwargs' !! "tool_name" = None).
  { intros kwargs' ->. destruct (kwargs !! "company_name"); [done|].
    by rewrite !lookup_insert_ne. }
  unfold execute_tool. destruct (Hclash _ eq_refl) as [-> ->].
  by rewrite (advertised_name_is_no_key b enterprise_manager key tool Hkey).
Qed.

(** Built-in tools whose handlers answer with [None]. *)
Definition example_builtins : Builtins :=
  mkBuiltins (fun _ => Ok PNone) (fun _ => Ok PNone) (fun _ => Ok PNone)
             (fun _ => Ok PNone) (fun _ => Ok PNone).

Lemma builtin_function_names_resolve_witness :
  tool_mapping (name (FinancialInfoTool (fun _ => Ok PNone))) = "financial_info" ∧
  _execute_tool_by_function_name (_initialize_tools example_builtins None)
      (name (FinancialInfoTool (fun _ => Ok PNone))) (PDict ∅)
    = run_tool (FinancialInfoTool (fun _ => Ok PNone)) ∅.
Proof.
  apply (builtin_function_names_resolve example_builtins "financial_info"
           (FinancialInfoTool (fun _ => Ok PNone)) ∅).
  - reflexivity.
  - reflexivity.
  - reflexivity.
Defined.

Lemma enterprise_function_name_unresolved_witness :
  EnterpriseSourceTool (fun _ => Ok PNone)
    ∈ get_tools_for_agent (_initialize_tools example_builtins (Some (fun _ => Ok PNone)))
        "fin_dd" ∧
  _execute_tool_by_function_name
      (_initialize_tools example_builtins (Some (fun _ => Ok PNone)))
      (name (EnterpriseSourceTool (fun _ => Ok PNone))) (PDict ∅)
    = Ok (failure "工具 query_enterprise_data 不存在").
Proof.
  apply (enterprise_function_name_unresolved example_builtins (fun _ => Ok PNone)
           "fin_dd" ∅).
  - rewrite !elem_of_cons. auto 10.
  - reflexivity.
  - reflexivity.
Defined.

Lemma _execute_tool_calls_misses_builtin_tools_witness :
  _execute_tool_calls (_initialize_tools example_builtins None) loads_empty_object true
    [mkToolCall "call_1" "search_information" "{}"] "Acme"
  = [Ok (failure ("工具 " ++ name (SearchTool (fun _ => Ok PNone)) ++ " 不存在"))].
Proof.
  apply (_execute_tool_calls_misses_builtin_tools example_builtins None loads_empty_object
           "Acme" "search" (SearchTool (fun _ => Ok PNone))
           (mkToolCall "call_1" "search_information" "{}") ∅).
  - reflexivity.
  - reflexivity.
  - reflexivity.
  - reflexivity.
  - reflexivity.
Defined.

End Registry.

(** ** Recording evidence and weighing factors (src/agents/base.py) *)

Module Evidence.
Import State Agents.

(** A byte that continues a UTF-8 character. *)
Definition is_continuation (c : ascii) : bool :=
  ((128 <=? N_of_ascii c) && (N_of_ascii c <? 192))%N.

(** [len(s)] for a UTF-8 string: the bytes that start a character. *)
Definition char_count (s : list ascii) : nat :=
  length (filter (fun c => is_continuation c = false) s).

Lemma take_chars_bytes_prefix n : ∀ s, take_chars_bytes n s `prefix_of` s.
Proof.
  intros s. revert n. induction s as [|c rest IH]; intros n; cbn [take_chars_bytes]; [done|].
  destruct (_ && _)%N; [by apply prefix_cons|].
  destruct n as [|n]; [apply prefix_nil | by apply prefix_cons].
Qed.

Lemma take_chars_bytes_count n : ∀ s, char_count (take_chars_bytes n s) <= n.
Proof.
  intros s. revert n. unfold char_count.
  induction s as [|c rest IH]; intros n; cbn [take_chars_bytes]; [cbn; lia|].
  destruct (_ && _)%N eqn:Hc.
  - rewrite filter_cons_False by (unfold is_continuation; rewrite Hc; discriminate).
    apply IH.
  - destruct n as [|n]; [cbn; lia|].
    rewrite filter_cons_True by (unfold is_continuation; by rewrite Hc).
    cbn [length]. specialize (IH n). lia.
Qed.

Lemma take_chars_bytes_short n : ∀ s, char_count s <= n → take_chars_bytes n s = s.
Proof.
  intros s. revert n. unfold char_count.
  induction s as [|c rest IH]; intros n; cbn [take_chars_bytes]; [done|].
  destruct (_ && _)%N eqn:Hc.
  - rewrite filter_cons_False by (unfold is_continuation; rewrite Hc; discriminate).
    intros Hn. f_equal. by apply IH.
  - rewrite filter_cons_True by (unfold is_continuation; by rewrite Hc).
    cbn [length]. destruct n as [|n]; [lia|]. intros Hn. f_equal. apply IH. lia.
Qed.

(** [snippet] is [content[:n]], as bytes: [content] is [snippet] followed by
    [rest], and either nothing is left out and [content] has at most [n]
    characters, or [snippet] has exactly [n] characters and what is left out
    starts with the lead byte of the next character, so the cut is on the
    boundary between characters [n] and [n + 1]. *)
Definition first_chars (n : nat) (content snippet : list ascii) : Prop :=
  ∃ rest,
    content = (snippet ++ rest)%list ∧
    ((rest = [] ∧ char_count content <= n) ∨
     (char_count snippet = n ∧
      ∃ c rest', rest = c :: rest' ∧ is_continuation c = false)).

Lemma char_count_continuation c s :
  is_continuation c = true → char_count (c :: s) = char_count s.
Proof.
  intros Hc. unfold char_count. by rewrite filter_cons_False by (rewrite Hc; discriminate).
Qed.

Lemma char_count_lead c s :
  is_continuation c = false → char_count (c :: s) = S (char_count s).
Proof. intros Hc. unfold char_count. by rewrite filter_cons_True by done. Qed.

(** [take_chars_bytes n] cuts out the first [n] characters. *)
Lemma take_chars_bytes_first_chars : ∀ s n, first_chars n s (take_chars_bytes n s).
Proof.
  induction s as [|c s IH]; intros n; cbn [take_chars_bytes].
  - exists []. split; [done|]. left. split; [done|]. cbn. lia.
  - change ((128 <=? N_of_ascii c) && (N_of_ascii c <? 192))%N with (is_continuation c).
    destruct (is_continuation c) eqn:Hc.
    + destruct (IH n) as (rest & Hs & Hrest). exists rest. split.
      * cbn [app]. by rewrite <- Hs.
      * rewrite !char_count_continuation by done. exact Hrest.
    + destruct n as [|n].
      * exists (c :: s). split; [done|]. right. split; [done|]. by exists c, s.
      * destruct (IH n) as (rest & Hs & Hrest). exists rest. split.
        -- cbn [app]. by rewrite <- Hs.
        -- rewrite !char_count_lead by done.
           destruct Hrest as [[-> Hle]|[Hcount Hnext]]; [left | right].
           ++ split; [done | lia].
           ++ split; [lia | done].
Qed.

(** And nothing else does: the first [n] characters of a content are
    determined. *)
Lemma first_chars_unique : ∀ s n snippet,
  first_chars n s snippet → snippet = take_chars_bytes n s.
Proof.
  induction s as [|c s IH]; intros n snippet (rest & Hs & Hrest).
  - symmetry in Hs. by apply app_eq_nil in Hs as [-> _].
  - cbn [take_chars_bytes].
    change ((128 <=? N_of_ascii c) && (N_of_ascii c <? 192))%N with (is_continuation c).
    destruct snippet as [|c' snippet].
    + cbn [app] in Hs. subst rest.
      destruct Hrest as [[[=] _]|[Hcount (c'' & rest' & [= <- <-] & Hlead)]].
      rewrite Hlead. cbn in Hcount. by subst n.
    + cbn [app] in Hs. injection Hs as <- Hs.
      destruct (is_continuation c) eqn:Hc.
      * f_equal. apply IH. exists rest. split; [done|].
        by rewrite !char_count_continuation in Hrest.
      * rewrite !char_count_lead in Hrest by done.
        destruct n as [|n]; [destruct Hrest as [[_ Hle]|[Hcount _]]; lia|].
        f_equal. apply IH. exists rest. split; [done|].
        destruct Hrest as [[-> Hle]|[Hcount Hnext]]; [left | right].
        -- split; [done | lia].
        -- split; [lia | done].
Qed.

(** The record [search_and_record] makes of one hit: the query, the url,
    score and source of the hit, and as snippet the first 200 characters of
    its content. The snippet is hence a prefix of the content, of at most 200
    characters, and the whole content when that has no more. *)
Definition recorded (query : string) (hit : SearchHit) (source : SearchSource) : Prop :=
  State.query source = query ∧
  url source = hit_url hit ∧
  confidence source = hit_score hit ∧
  source_type source = hit_source hit ∧
  first_chars 200 (list_ascii_of_string (hit_content hit))
                  (list_ascii_of_string (result_snippet source)) ∧
  list_ascii_of_string (result_snippet source)
    `prefix_of` list_ascii_of_string (hit_content hit) ∧
  char_count (list_ascii_of_string (result_snippet source)) <= 200 ∧
  (char_count (list_ascii_of_string (hit_content hit)) <= 200 →
   result_snippet source = hit_content hit) ∧
  (200 <= char_count (list_ascii_of_string (hit_content hit)) →
   char_count (list_ascii_of_string (result_snippet source)) = 200).

Lemma take_chars_bytes_full n : ∀ s,
  n <= char_count s → char_count (take_chars_bytes n s) = n.
Proof.
  intros s Hn. destruct (take_chars_bytes_first_chars s n) as (rest & Hs & Hrest).
  destruct Hrest as [[-> Hle]|[Hcount _]]; [|done].
  rewrite app_nil_r in Hs. rewrite <- Hs. lia.
Qed.

(** X7. When the search returns, [search_and_record] returns the hits it
    got and appends one record per hit to the evidence, in the order of the
    hits, after the records that were there, and changes nothing else. Each
    record carries the query, the url, score and source of its hit, and as
    snippet exactly the first 200 characters of the content of the hit: the
    content is the snippet followed by a rest, and either the rest is empty
    and the content has at most 200 characters, or the snippet has 200
    characters and the rest starts a new character. When the search raises,
    the exception goes to the caller and the state is as it was. *)
Theorem search_and_record_appends_evidence (w : World) (query : string)
    (st : VentureLensState) :
  match search_multiple_sources w query with
  | Ok results =>
      ∃ added,
        search_and_record w query st = (Ok results, set_sources (sources st ++ added) st) ∧
        Forall2 (recorded query) results added
  | Raise e => search_and_record w query st = (Raise e, st)
  end.
Proof.
  cbv beta iota zeta delta [search_and_record mbind M_bind lift modify mret M_ret].
  destruct (search_multiple_sources w query) as [results|e]; [|reflexivity].
  eexists. split; [reflexivity|].
  apply Forall2_fmap_r, Forall_Forall2_diag, Forall_forall. intros hit _.
  unfold recorded, take_chars. cbn.
  rewrite list_ascii_of_string_of_list_ascii.
  split; [done|]. split; [done|]. split; [done|]. split; [done|].
  split; [apply take_chars_bytes_first_chars|].
  split; [apply take_chars_bytes_prefix|]. split; [apply take_chars_bytes_count|].
  split; [|apply take_chars_bytes_full].
  intros Hshort. rewrite take_chars_bytes_short by done.
  apply string_of_list_ascii_of_string.
Qed.

(** Characters, not bytes, are counted: the first two characters of a
    string of four characters in five bytes are its first three bytes. *)
Lemma take_chars_example :
  take_chars 2 "aébc" = "aé" ∧
  String.length "aébc" = 5 ∧
  String.length (take_chars 2 "aébc") = 3 ∧
  char_count (list_ascii_of_string "aébc") = 4.
Proof. repeat split; vm_compute; reflexivity. Qed.

End Evidence.

Module Scoring.

Local Open Scope float_scope.

(** [max(a, b)] and [min(a, b)] on two floats: the second argument is
    taken only when it compares greater, respectively less, so a NaN in
    first place stays. *)
Definition py_max (a b : float) : float := if a <? b then b else a.
Definition py_min (a b : float) : float := if b <? a then b else a.

Section Sum.

(** The built-in [sum] on a list of floats that is not empty; how it
    rounds depends on the interpreter (additions from left to right before
    3.12, compensated summation since). *)
Variable float_sum : list float -> float.

(** [sum(...)]: the int [0] for no summand. *)
Definition py_sum (l : list float) : float :=
  match l with
  | [] => 0
  | _ => float_sum l
  end.

(** [dict.get(key, 0)] on a dict given by its items. *)
Definition get (d : list (string * float)) (key : string) : float :=
  match list_find (fun item => item.1 = key) d with
  | Some (_, (_, value)) => value
  | None => 0
  end.

(** [BaseAgent.calculate_score]; a dict is given by its items in insertion
    order, [weights = None] by [None]. *)
Definition calculate_score (factors : list (string * float))
    (weights : option (list (string * float))) : float :=
  let weights :=
    match weights with
    | None => (fun item => (item.1, 1)) <$> factors
    | Some weights => weights
    end in
  let total_weight := py_sum (snd <$> weights) in
  if total_weight =? 0 then 0
  else
    let weighted_sum := py_sum ((fun item => get factors item.1 * item.2) <$> weights) in
    py_min (py_max (weighted_sum / total_weight) 0) 10.

(** X8. [calculate_score] never returns a score below 0 or above 10,
    whatever the factors and the weights, given or defaulted, and however
    [sum] rounds: neither [result < 0] nor [10 < result] holds (a NaN, for
    which no comparison holds, passes through). Without any weight, and so
    without any factor when the weights are defaulted, the score is 0.0. *)
Theorem calculate_score_clamped (factors : list (string * float))
    (weights : option (list (string * float))) :
  (calculate_score factors weights <? 0) = false ∧
  (10 <? calculate_score factors weights) = false ∧
  (default ((fun item => (item.1, 1)) <$> factors) weights = [] →
   calculate_score factors weights = 0).
Proof.
  unfold calculate_score.
  replace (match weights with
           | Some weights0 => weights0
           | None => (fun item => (item.1, 1)) <$> factors
           end) with (default ((fun item => (item.1, 1)) <$> factors) weights)
    by (by destruct weights).
  set (ws := default _ weights).
  destruct (py_sum ws.*2 =? 0) eqn:Hzero.
  - split; [reflexivity|]. split; [reflexivity | done].
  - assert (Hws : ws = [] → False).
    { intros Hnil. rewrite Hnil in Hzero. cbn in Hzero. discriminate. }
    unfold py_min, py_max. set (x := _ / _).
    destruct (x <? 0) eqn:Hlow.
    + split; [reflexivity|]. split; [reflexivity | by intros ?%Hws].
    + destruct (10 <? x) eqn:Hhigh.
      * split; [reflexivity|]. split; [reflexivity | by intros ?%Hws].
      * split; [exact Hlow|]. split; [exact Hhigh | by intros ?%Hws].
Qed.

End Sum.
End Scoring.

(** ** Runs as a whole (src/graph.py) *)

Module Runs.
Import State Checkpoint Agents Frames Workflow.

(** [VentureLensWorkflow.get_agent_status]: the dict it builds, as its items
    in insertion order (the keys are the stage names, each once). *)
Definition get_agent_status (st : VentureLensState) : list (string * string) :=
  (fun agent_name =>
     (agent_name,
      if bool_decide (agent_name ∈ completed_agents st) then "completed"
      else if String.eqb agent_name (current_agent st) then "running"
      else "pending")) <$> execution_order.

(** The newer state has the evidence of the older one at its front. *)
Definition evidence_kept : relation VentureLensState :=
  fun before after => sources before `prefix_of` sources after.

#[export] Instance evidence_kept_preorder : PreOrder evidence_kept.
Proof.
  split.
  - intros st. unfold evidence_kept. reflexivity.
  - intros a b c Hab Hbc. unfold evidence_kept in *. by etransitivity.
Qed.

(** *** Frames of relations that let appended evidence through *)

Section Appending.

Context (R : relation VentureLensState) `{!PreOrder R}.

Definition lets_appended : Prop :=
  ∀ added st, R st (set_sources (sources st ++ added) st).

Lemma search_and_record_appends w query :
  lets_appended → frame R (search_and_record w query).
Proof. intros Hs. unfold search_and_record. repeat frame_step; apply Hs. Qed.

Lemma search_each_appends w queries : ∀ acc,
  lets_appended → frame R (search_each w queries acc).
Proof.
  induction queries as [|query rest IH]; intros acc Hs; cbn [search_each].
  - repeat frame_step.
  - repeat frame_step; auto using search_and_record_appends.
Qed.

Lemma search_extended_appends w queries : ∀ acc,
  lets_appended → frame R (search_extended w queries acc).
Proof.
  induction queries as [|query rest IH]; intros acc Hs; cbn [search_extended].
  - repeat frame_step.
  - apply frame_bind; [exact _ | |].
    + repeat frame_step; auto using search_and_record_appends.
    + intros [all_results stop]. destruct stop; [repeat frame_step | by apply IH].
Qed.

Lemma search_all_appends w queries : ∀ acc,
  lets_appended → frame R (search_all w queries acc).
Proof.
  induction queries as [|query rest IH]; intros acc Hs; cbn [search_all].
  - repeat frame_step.
  - apply frame_bind; [exact _ | by apply search_and_record_appends | intros; by apply IH].
Qed.

Lemma prescreen_execute_appends w :
  lets_appended → lets_gate R → lets_final_report R → frame R (prescreen_execute w).
Proof.
  intros Hs Hg Hf. unfold prescreen_execute, prescreen_try_block, _search_company_info.
  repeat frame_step;
    auto using search_each_appends, search_extended_appends,
               prescreen_update_state_frame, _set_default_result_frame.
Qed.

Lemma dd_execute_appends w a :
  lets_appended → lets_scores R → lets_rationale R → frame R (dd_execute w a).
Proof.
  intros Hs Hsc Hr. unfold dd_execute, dd_analyse, dd_update_state.
  repeat frame_step; auto using search_each_appends.
Qed.

Lemma cross_check_execute_appends w :
  lets_appended → lets_cross_check_results R → frame R (cross_check_execute w).
Proof.
  intros Hs Hc. unfold cross_check_execute.
  repeat frame_step; auto using search_all_appends.
Qed.

(** Every stage body, for a relation that lets through appended evidence
    and every other write a body makes. *)
Lemma body_frame w name body :
  agents w name = Some body →
  lets_appended → lets_scores R → lets_rationale R → lets_final_report R →
  lets_bp_extracted_data R → lets_cross_check_results R → lets_gate R →
  frame R body.
Proof.
  intros Hbody Hs Hsc Hr Hf Hb Hc Hg. stage_cases Hbody.
  - by apply prescreen_execute_appends.
  - by apply bp_parser_execute_frame.
  - by apply dd_execute_appends.
  - by apply dd_execute_appends.
  - by apply dd_execute_appends.
  - by apply dd_execute_appends.
  - by apply cross_check_execute_appends.
  - by apply report_generator_execute_frame.
Qed.

(** The wrapper, for a relation that also lets through what the wrapper
    writes. *)
Lemma wrapper_frame w name body st :
  frame R body →
  (∀ v st, R st (set_current_agent v st)) →
  (∀ st, R st (set_completed_agents (completed_agents st ++ [name]) st)) →
  (∀ v st, R st (set_updated_at v st)) →
  R st (_execute_wrapper w name body st).
Proof.
  intros Hbody Hcur Hcompleted Hupdated. unfold _execute_wrapper.
  specialize (Hbody (set_current_agent name st)).
  destruct (body (set_current_agent name st)) as [[[]|e] st']; cbn [snd] in Hbody.
  - unfold update_state_timestamp.
    etransitivity; [apply Hcur|]. etransitivity; [exact Hbody|].
    destruct (bool_decide _); [apply Hupdated|].
    etransitivity; [apply Hcompleted | apply Hupdated].
  - unfold update_state_timestamp.
    etransitivity; [apply Hcur|]. etransitivity; [exact Hbody|].
    etransitivity; [apply Hcur | apply Hupdated].
Qed.

End Appending.

(** *** The loop, for a relation between what it starts from and what it
    leaves *)

Section Loop.

Context (R : relation RunOutcome) `{!PreOrder R}.
Context (w : World) (checkpoint_enabled : bool) (bp_file_path : option string).

(** A stage the loop invokes is not completed, and is the document stage
    only when a document is given. *)
Hypothesis stage_invoked : ∀ name body st store trace,
  agents w name = Some body →
  name ∉ completed_agents st →
  (name = "bp_parser" → is_given bp_file_path = true) →
  R (mkOutcome st store trace)
    (mkOutcome (_execute_wrapper w name body st) store (trace ++ [name])).

(** The reporting stage, invoked when the gate stage has just rejected. *)
Hypothesis report_after_gate : ∀ st store trace,
  R (mkOutcome st store trace)
    (mkOutcome (_execute_wrapper w "report_generator" (report_generator_execute w) st)
       store (trace ++ ["report_generator"])).

Hypothesis checkpoint_saved : ∀ ok st store trace,
  checkpoint_enabled = true →
  R (mkOutcome st store trace)
    (mkOutcome st (_save_checkpoint checkpoint_enabled ok store st) trace).

Lemma run_stages_frame : ∀ order st store trace,
  (∀ name, name ∈ order → is_Some (agents w name)) →
  ∃ out, run_stages w checkpoint_enabled bp_file_path order st store trace = Ok out ∧
         R (mkOutcome st store trace) out.
Proof.
  induction order as [|name rest IH]; intros st store trace Hagents; cbn [run_stages].
  - eexists. split; reflexivity.
  - assert (Hrest : ∀ name', name' ∈ rest → is_Some (agents w name'))
      by (intros name' Hin; apply Hagents; by right).
    destruct (bool_decide (name ∈ completed_agents st)) eqn:Hdone; [by apply IH|].
    apply bool_decide_eq_false in Hdone.
    destruct (String.eqb name "bp_parser" && negb (is_given bp_file_path)) eqn:Hskip;
      [by apply IH|].
    destruct (Hagents name ltac:(left)) as [body Hbody]. rewrite Hbody.
    set (st' := _execute_wrapper w name body st).
    set (store' := if checkpoint_enabled
                   then _save_checkpoint checkpoint_enabled (write_ok w name) store st'
                   else store).
    assert (Hstep : R (mkOutcome st store trace) (mkOutcome st' store' (trace ++ [name]))).
    { etransitivity.
      - apply stage_invoked; [exact Hbody | exact Hdone |].
        intros ->. cbn in Hskip. by destruct (is_given bp_file_path).
      - unfold store'. destruct checkpoint_enabled eqn:Henabled; [|reflexivity].
        by apply checkpoint_saved. }
    destruct (String.eqb name "prescreen" && _).
    + eexists. split; [reflexivity|].
      etransitivity; [exact Hstep | apply report_after_gate].
    + destruct (IH st' store' (trace ++ [name])%list Hrest) as (out & Hrun & Hout).
      exists out. split; [exact Hrun|]. by etransitivity.
Qed.

End Loop.

(** The same for the whole run, when every stage keeps the relation. *)
Lemma run_frame (R : relation RunOutcome) `{!PreOrder R} w checkpoint_enabled bp_file_path
    store company_name run_id :
  (∀ name body st store trace,
     agents w name = Some body →
     R (mkOutcome st store trace)
       (mkOutcome (_execute_wrapper w name body st) store (trace ++ [name]))) →
  (∀ ok st store trace,
     checkpoint_enabled = true →
     R (mkOutcome st store trace)
       (mkOutcome st (_save_checkpoint checkpoint_enabled ok store st) trace)) →
  ∃ out, run w checkpoint_enabled store company_name bp_file_path run_id = Ok out ∧
         R (mkOutcome
              (start_state w checkpoint_enabled store company_name bp_file_path run_id)
              store [])
           out.
Proof.
  intros Hstage Hsave. apply (run_stages_frame R w checkpoint_enabled bp_file_path).
  - intros name body st store' trace Hbody _ _. by apply Hstage.
  - intros st store' trace. by apply Hstage.
  - exact Hsave.
  - apply execution_order_agents.
Qed.

(** A relation between states, as one between what the loop starts from
    and what it leaves. *)
Definition on_state (R : relation VentureLensState) : relation RunOutcome :=
  fun before after => R (final_state before) (final_state after).

#[export] Instance on_state_preorder (R : relation VentureLensState) `{!PreOrder R} :
  PreOrder (on_state R).
Proof.
  split.
  - intros a. unfold on_state. reflexivity.
  - intros a b c Hab Hbc. unfold on_state in *. by etransitivity.
Qed.

Lemma run_state_frame (R : relation VentureLensState) `{!PreOrder R} w enabled store
    company_name bp_file_path run_id :
  (∀ name body st, agents w name = Some body → R st (_execute_wrapper w name body st)) →
  ∃ out, run w enabled store company_name bp_file_path run_id = Ok out ∧
         R (start_state w enabled store company_name bp_file_path run_id) (final_state out).
Proof.
  intros Hstage.
  destruct (run_frame (on_state R) w enabled bp_file_path store company_name run_id)
    as (out & Hrun & Hout).
  - intros name body st store' trace Hbody. by apply Hstage.
  - intros ok st store' trace _. unfold on_state. reflexivity.
  - exists out. split; [exact Hrun | exact Hout].
Qed.

(** The parts of the state that identify a run. *)
Definition identity (st : VentureLensState)
    : string * option string * string * option datetime :=
  (company_name st, State.bp_file_path st, run_id st, created_at st).

Lemma wrapper_keeps_untouched {T} (proj : VentureLensState -> T) w name body st :
  agents w name = Some body →
  (∀ v st, proj (set_sources v st) = proj st) →
  (∀ v st, proj (set_scores v st) = proj st) →
  (∀ v st, proj (set_rationale v st) = proj st) →
  (∀ v st, proj (set_final_report v st) = proj st) →
  (∀ v st, proj (set_bp_extracted_data v st) = proj st) →
  (∀ v st, proj (set_cross_check_results v st) = proj st) →
  (∀ v st, proj (set_prescreen_passed v st) = proj st) →
  (∀ v st, proj (set_prescreen_reason v st) = proj st) →
  (∀ v st, proj (set_prescreen_confidence v st) = proj st) →
  (∀ v st, proj (set_current_agent v st) = proj st) →
  (∀ v st, proj (set_completed_agents v st) = proj st) →
  (∀ v st, proj (set_updated_at v st) = proj st) →
  proj (_execute_wrapper w name body st) = proj st.
Proof.
  intros Hbody Hs Hsc Hr Hf Hb Hc Hp Hpr Hpc Hcur Hcompleted Hupdated.
  apply (wrapper_frame (keeps proj)); unfold keeps; auto.
  apply (body_frame (keeps proj) w name body Hbody); unfold keeps;
    try (intros v st'; auto).
  repeat split; intros; auto.
Qed.

Lemma wrapper_identity w name body st :
  agents w name = Some body → identity (_execute_wrapper w name body st) = identity st.
Proof. intros Hbody. by apply (wrapper_keeps_untouched identity w name body st Hbody). Qed.

Lemma wrapper_evidence w name body st :
  agents w name = Some body → evidence_kept st (_execute_wrapper w name body st).
Proof.
  intros Hbody.
  apply (wrapper_frame evidence_kept); try (intros; unfold evidence_kept; done).
  apply (body_frame evidence_kept w name body Hbody);
    try (repeat split; intros v st'; unfold evidence_kept; done).
  intros added st'. unfold evidence_kept. cbn. by exists added.
Qed.

(** X9. Evidence is only ever appended. Every run returns, and the search
    records of the state it returns begin with the records of the state it
    started from, unchanged and in the same order: no stage, whether it
    returns or raises, removes, reorders or rewrites a record. *)
Theorem run_evidence_append_only (w : World) (checkpoint_enabled : bool)
    (store : gmap string CheckpointFile) (company_name : string)
    (bp_file_path run_id : option string) :
  ∃ out,
    run w checkpoint_enabled store company_name bp_file_path run_id = Ok out ∧
    sources (start_state w checkpoint_enabled store company_name bp_file_path run_id)
      `prefix_of` sources (final_state out).
Proof. apply (run_state_frame evidence_kept). apply wrapper_evidence. Qed.

(** X10. A run keeps the identity of the state it starts from: the
    company name, the document path, the run id and the creation time of the
    state it returns are those of the state it started from. For a run that
    is given no run id these are the company name and the document path it was
    called with and the id that was generated. *)
Theorem run_keeps_identity (w : World) (checkpoint_enabled : bool)
    (store : gmap string CheckpointFile) (company_name : string)
    (bp_file_path run_id : option string) :
  ∃ out,
    run w checkpoint_enabled store company_name bp_file_path run_id = Ok out ∧
    identity (final_state out)
      = identity (start_state w checkpoint_enabled store company_name bp_file_path run_id) ∧
    (run_id = None →
     State.company_name (final_state out) = company_name ∧
     State.bp_file_path (final_state out) = bp_file_path ∧
     State.run_id (final_state out) = uuid4 w).
Proof.
  destruct (run_state_frame (keeps identity) w checkpoint_enabled store company_name
              bp_file_path run_id (wrapper_identity w)) as (out & Hrun & Hid).
  exists out. split; [exact Hrun|]. split; [exact Hid|].
  intros ->. unfold keeps in Hid. by injection Hid as -> -> -> _.
Qed.

(** *** The stages a run invokes *)

Lemma gate_path_in_order : ["prescreen"; "report_generator"] `sublist_of` execution_order.
Proof.
  unfold execution_order. apply sublist_skip.
  do 6 apply sublist_cons. apply sublist_skip. apply sublist_nil.
Qed.

Lemma to_run_document bp st :
  is_given bp = false → to_run bp st "bp_parser" = false.
Proof. intros Hbp. unfold to_run. rewrite Hbp. cbn. apply andb_false_r. Qed.

(** X11. With a checkpoint directory whose files are unreadable or hold a
    state as [_save_checkpoint] writes it, every run returns a state:
    whatever the stages do, the loop raises nothing. The stages it invokes
    form a subsequence of the execution order, so each is invoked at most
    once and in that order; the document stage is not among them when no
    document is given; and the gate stage is completed in the state
    returned. (A checkpoint file that holds JSON of another shape is not
    covered: see [CheckpointFile].) *)
Theorem run_invokes_in_order (w : World) (checkpoint_enabled : bool)
    (store : gmap string CheckpointFile) (company_name : string)
    (bp_file_path run_id : option string) :
  ∃ out,
    run w checkpoint_enabled store company_name bp_file_path run_id = Ok out ∧
    invoked out `sublist_of` execution_order ∧
    "prescreen" ∈ completed_agents (final_state out) ∧
    (is_given bp_file_path = false → "bp_parser" ∉ invoked out).
Proof.
  unfold run.
  set (st0 := start_state w checkpoint_enabled store company_name bp_file_path run_id).
  destruct (decide ("prescreen" ∈ completed_agents st0)) as [Hin|Hout].
  - destruct (run_stages_resumed w checkpoint_enabled bp_file_path execution_order st0 store []
                execution_order_NoDup (execution_order_agents w) Hin)
      as (out & Hrun & Hinv & _ & Hmono & _).
    exists out. split; [exact Hrun|]. cbn [app] in Hinv. rewrite Hinv.
    split; [apply sublist_filter|]. split; [by apply Hmono|].
    intros Hbp [Hto _]%list_elem_of_filter. by rewrite to_run_document in Hto.
  - rewrite (run_stages_gate w checkpoint_enabled bp_file_path st0 store Hout). cbv zeta.
    set (st1 := _execute_wrapper w "prescreen" (prescreen_execute w) st0).
    pose proof (prescreen_completed w st0) as Hgate. fold st1 in Hgate.
    destruct (truthy (prescreen_passed st1)); cbn [negb].
    + destruct (run_stages_resumed w checkpoint_enabled bp_file_path (tail execution_order) st1
                  (if checkpoint_enabled
                   then _save_checkpoint checkpoint_enabled (write_ok w "prescreen") store st1
                   else store) ["prescreen"])
        as (out & Hrun & Hinv & _ & Hmono & _).
      * by apply (bool_decide_unpack _).
      * intros name Hin. apply execution_order_agents. by right.
      * exact Hgate.
      * exists out. split; [exact Hrun|]. rewrite Hinv.
        split; [|split; [by apply Hmono|]].
        -- cbn [app]. apply sublist_skip, sublist_filter.
        -- intros Hbp [Hhead|Hin]%elem_of_cons; [discriminate|].
           apply list_elem_of_filter in Hin as [Hto _]. by rewrite to_run_document in Hto.
    + eexists. split; [reflexivity|]. cbn [invoked final_state].
      split; [exact gate_path_in_order|]. split.
      * pose proof (wrapper_completed w "report_generator" (report_generator_execute w) st1
                      (body_keeps_completed w "report_generator" _ eq_refl)) as Hc.
        rewrite Hc. destruct (fst _); [destruct (bool_decide _)|]; try done.
        apply elem_of_app. by left.
      * intros _ Hin. no_member Hin.
Qed.

(** *** The completed stages *)

(** The completed stages were extended at the end, without repetition, by
    stages that were invoked. *)
Definition completed_grown : relation RunOutcome := fun before after =>
  completed_agents (final_state before) `prefix_of` completed_agents (final_state after) ∧
  (NoDup (completed_agents (final_state before)) →
   NoDup (completed_agents (final_state after))) ∧
  invoked before ⊆ invoked after ∧
  (∀ name, name ∈ completed_agents (final_state after) →
     name ∈ completed_agents (final_state before) ∨ name ∈ invoked after).

#[export] Instance completed_grown_preorder : PreOrder completed_grown.
Proof.
  split.
  - intros a. unfold completed_grown. split; [done|]. split; [done|]. split; [done|]. auto.
  - intros a b c (Hp & Hn & Hi & Hc) (Hp' & Hn' & Hi' & Hc'). unfold completed_grown.
    split; [by etransitivity|]. split; [auto|]. split; [by etransitivity|].
    intros name Hin. destruct (Hc' name Hin) as [Hb|Hinv]; [|by right].
    destruct (Hc name Hb) as [Ha|Hinv]; [by left|]. right. by apply Hi'.
Qed.

Lemma wrapper_completed_grown w name body st store trace :
  agents w name = Some body →
  completed_grown (mkOutcome st store trace)
    (mkOutcome (_execute_wrapper w name body st) store (trace ++ [name])).
Proof.
  intros Hbody. unfold completed_grown. cbn [final_state invoked].
  rewrite (wrapper_completed w name body st (body_keeps_completed w name body Hbody)).
  assert (Hsame :
    completed_agents st `prefix_of` completed_agents st ∧
    (NoDup (completed_agents st) → NoDup (completed_agents st)) ∧
    trace ⊆ (trace ++ [name])%list ∧
    (∀ name', name' ∈ completed_agents st →
       name' ∈ completed_agents st ∨ name' ∈ (trace ++ [name])%list)).
  { split; [done|]. split; [done|]. split; [|auto].
    intros x Hx. apply elem_of_app. by left. }
  destruct (fst _); [|exact Hsame].
  destruct (bool_decide (name ∈ completed_agents st)) eqn:Hin; [exact Hsame|].
  apply bool_decide_eq_false in Hin.
  split; [by apply prefix_app_r|]. split; [|split].
  - intros Hnodup. apply NoDup_app. split; [done|]. split; [|apply NoDup_singleton].
    intros x Hx ->%list_elem_of_singleton. done.
  - intros x Hx. apply elem_of_app. by left.
  - intros name' [Hin'| ->%list_elem_of_singleton]%elem_of_app; [by left|].
    right. apply elem_of_app. right. left.
Qed.

(** X12. A run only adds to the completed stages: the list in the state it
    returns begins with the list it started from; if that had no repetition,
    neither has the new one; and every stage on it was on the old one or was
    invoked in this run. *)
Theorem run_completed_agents_grow (w : World) (checkpoint_enabled : bool)
    (store : gmap string CheckpointFile) (company_name : string)
    (bp_file_path run_id : option string) :
  ∃ out,
    run w checkpoint_enabled store company_name bp_file_path run_id = Ok out ∧
    completed_agents (start_state w checkpoint_enabled store company_name bp_file_path run_id)
      `prefix_of` completed_agents (final_state out) ∧
    (NoDup (completed_agents
              (start_state w checkpoint_enabled store company_name bp_file_path run_id)) →
     NoDup (completed_agents (final_state out))) ∧
    (∀ name, name ∈ completed_agents (final_state out) →
       name ∈ completed_agents
                (start_state w checkpoint_enabled store company_name bp_file_path run_id) ∨
       name ∈ invoked out).
Proof.
  destruct (run_frame completed_grown w checkpoint_enabled bp_file_path store company_name
              run_id) as (out & Hrun & Hp & Hn & _ & Hc).
  - intros name body st store' trace Hbody. by apply wrapper_completed_grown.
  - intros ok st store' trace _. unfold completed_grown. cbn [final_state invoked].
    split; [done|]. split; [done|]. split; [done | auto].
  - exists out. split; [exact Hrun|]. split; [exact Hp|]. split; [exact Hn | exact Hc].
Qed.

(** *** The checkpoint directory *)

(** Only the slot of the run was written, and none with checkpoints off. *)
Definition own_slot_only (checkpoint_enabled : bool) : relation RunOutcome :=
  fun before after =>
    run_id (final_state after) = run_id (final_state before) ∧
    (∀ key, key ≠ run_id (final_state before) →
       checkpoints after !! key = checkpoints before !! key) ∧
    (checkpoint_enabled = false → checkpoints after = checkpoints before).

#[export] Instance own_slot_only_preorder enabled : PreOrder (own_slot_only enabled).
Proof.
  split.
  - intros a. unfold own_slot_only. auto.
  - intros a b c (Hid & Hk & Hoff) (Hid' & Hk' & Hoff'). unfold own_slot_only.
    split; [congruence|]. split.
    + intros key Hkey. rewrite Hk' by congruence. by apply Hk.
    + intros Henabled. rewrite Hoff' by done. by apply Hoff.
Qed.

(** X13. A run writes no checkpoint but its own: every slot of the
    checkpoint directory other than that of the run id of the state it started
    from is afterwards as it was, and with checkpoints off the directory is as
    it was altogether. *)
Theorem run_checkpoint_isolation (w : World) (checkpoint_enabled : bool)
    (store : gmap string CheckpointFile) (company_name : string)
    (bp_file_path run_id : option string) :
  ∃ out,
    run w checkpoint_enabled store company_name bp_file_path run_id = Ok out ∧
    (∀ key,
       key ≠ State.run_id
               (start_state w checkpoint_enabled store company_name bp_file_path run_id) →
       checkpoints out !! key = store !! key) ∧
    (checkpoint_enabled = false → checkpoints out = store).
Proof.
  destruct (run_frame (own_slot_only checkpoint_enabled) w checkpoint_enabled bp_file_path
              store company_name run_id) as (out & Hrun & _ & Hk & Hoff).
  - intros name body st store' trace Hbody. unfold own_slot_only. cbn [final_state checkpoints].
    split; [|auto].
    pose proof (wrapper_identity w name body st Hbody) as Hid. by injection Hid.
  - intros ok st store' trace Henabled. unfold own_slot_only.
    cbn [final_state checkpoints]. split; [done|]. split; [|by rewrite Henabled].
    intros key Hkey. unfold _save_checkpoint.
    destruct (checkpoint_enabled && ok); [|done]. by rewrite lookup_insert_ne.
  - exists out. split; [exact Hrun|]. split; [exact Hk | exact Hoff].
Qed.

(** *** The status report *)

Lemma wrapper_current w name body st :
  agents w name = Some body →
  current_agent (_execute_wrapper w name body st) =
  match fst (body (set_current_agent name st)) with
  | Ok _ => name
  | Raise _ => name ++ "_error"
  end.
Proof.
  intros Hbody.
  assert (Hframe : frame (keeps current_agent) body).
  { apply (body_frame (keeps current_agent) w name body Hbody); unfold keeps;
      try (intros v st'; done).
    repeat split; intros; done. }
  unfold _execute_wrapper. specialize (Hframe (set_current_agent name st)).
  unfold keeps in Hframe.
  destruct (body (set_current_agent name st)) as [[[]|e] st']; cbn [fst snd] in *.
  - destruct (bool_decide _); cbn; by rewrite Hframe.
  - reflexivity.
Qed.

Lemma error_marker_is_no_stage w name body agent_name :
  agents w name = Some body → agent_name ∈ execution_order →
  String.eqb agent_name (name ++ "_error") = false.
Proof.
  intros Hbody Hin. unfold execution_order in Hin.
  rewrite !elem_of_cons, elem_of_nil in Hin.
  stage_cases Hbody;
    repeat (destruct Hin as [->|Hin]; [reflexivity|]); destruct Hin.
Qed.

Lemma status_after_wrapper w name body st :
  agents w name = Some body →
  (∀ agent_name status,
     (agent_name, status) ∈ get_agent_status (_execute_wrapper w name body st) →
     status = "completed" ∨ status = "pending") ∧
  match fst (body (set_current_agent name st)) with
  | Ok _ => (name, "completed") ∈ get_agent_status (_execute_wrapper w name body st)
  | Raise _ =>
      (name, if bool_decide (name ∈ completed_agents st) then "completed" else "pending")
        ∈ get_agent_status (_execute_wrapper w name body st)
  end.
Proof.
  intros Hbody.
  pose proof (wrapper_current w name body st Hbody) as Hcur.
  pose proof (wrapper_completed w name body st (body_keeps_completed w name body Hbody))
    as Hcompleted.
  assert (Hname : name ∈ execution_order).
  { pose proof Hbody as Hbody'. unfold execution_order.
    stage_cases Hbody'; rewrite !elem_of_cons; auto 10. }
  set (st' := _execute_wrapper w name body st) in *.
  assert (Hentry : ∀ agent_name, agent_name ∈ execution_order →
            (agent_name,
             if bool_decide (agent_name ∈ completed_agents st') then "completed"
             else if String.eqb agent_name (current_agent st') then "running"
             else "pending") ∈ get_agent_status st').
  { intros agent_name Hin. unfold get_agent_status.
    apply list_elem_of_fmap. exists agent_name. by split. }
  split.
  - intros agent_name status Hin. unfold get_agent_status in Hin.
    apply list_elem_of_fmap in Hin as (n & [= -> ->] & Hn).
    destruct (bool_decide (n ∈ completed_agents st')) eqn:Hdone; [by left|].
    apply bool_decide_eq_false in Hdone.
    destruct (String.eqb_spec n (current_agent st')) as [Heq|Hne]; [|by right].
    exfalso. rewrite Hcur in Heq. rewrite Hcompleted in Hdone.
    destruct (fst (body (set_current_agent name st))).
    + subst n. destruct (bool_decide (name ∈ completed_agents st)) eqn:Hin;
        [by apply bool_decide_eq_true in Hin|].
      apply Hdone, elem_of_app. right. left.
    + pose proof (error_marker_is_no_stage w name body n Hbody Hn) as Hno.
      rewrite Heq in Hno. by rewrite String.eqb_refl in Hno.
  - specialize (Hentry name Hname). rewrite Hcur, Hcompleted in Hentry.
    destruct (fst (body (set_current_agent name st))).
    + destruct (bool_decide (name ∈ completed_agents st)) eqn:Hin.
      * by rewrite Hin in Hentry.
      * rewrite bool_decide_eq_true_2 in Hentry; [done|]. apply elem_of_app. right. left.
    + destruct (bool_decide (name ∈ completed_agents st)); [done|].
      by rewrite (error_marker_is_no_stage w name body name Hbody Hname) in Hentry.
Qed.

(** X14. Once the wrapper of a stage of the workflow has returned,
    [get_agent_status] reports no stage as running: every status is
    [completed] or [pending]. A stage whose body returned is reported as
    completed; a stage whose body raised is reported as pending (unless it
    had completed before), since the error marker the wrapper leaves in
    [current_agent] is the name of no stage. *)
Theorem status_after_stage (w : World) (name : string) (body : M unit)
    (st : VentureLensState) :
  agents w name = Some body →
  (∀ agent_name status,
     (agent_name, status) ∈ get_agent_status (_execute_wrapper w name body st) →
     status = "completed" ∨ status = "pending") ∧
  match fst (body (set_current_agent name st)) with
  | Ok _ => (name, "completed") ∈ get_agent_status (_execute_wrapper w name body st)
  | Raise _ =>
      (name, if bool_decide (name ∈ completed_agents st) then "completed" else "pending")
        ∈ get_agent_status (_execute_wrapper w name body st)
  end.
Proof. apply status_after_wrapper. Qed.

(** The status report shows no stage as running. *)
Definition none_running (st : VentureLensState) : Prop :=
  ∀ agent_name status,
    (agent_name, status) ∈ get_agent_status st →
    status = "completed" ∨ status = "pending".

(** Stages were invoked and none is reported as running, or none was
    invoked and the state is as it was. *)
Definition settled : relation RunOutcome := fun before after =>
  invoked before `prefix_of` invoked after ∧
  (invoked after = invoked before → final_state after = final_state before) ∧
  (invoked after ≠ invoked before → none_running (final_state after)).

Lemma prefix_between {A} (l1 l2 : list A) :
  l1 `prefix_of` l2 → l2 `prefix_of` l1 → l2 = l1.
Proof.
  intros [k1 ->] [k2 Hk]. rewrite <- app_assoc in Hk.
  rewrite <- (app_nil_r l1) in Hk at 1. apply app_inv_head in Hk.
  symmetry in Hk. apply app_eq_nil in Hk as [-> _]. by rewrite app_nil_r.
Qed.

#[export] Instance settled_preorder : PreOrder settled.
Proof.
  split.
  - intros a. split; [done|]. split; [done|]. intros Hne. by destruct Hne.
  - intros a b c (Hp & Hsame & Hrun) (Hp' & Hsame' & Hrun').
    split; [by etransitivity|]. split.
    + intros Heq. rewrite Heq in Hp'.
      pose proof (prefix_between _ _ Hp Hp') as Hb.
      rewrite Hsame' by congruence. by apply Hsame.
    + intros Hne. destruct (decide (invoked c = invoked b)) as [Heq|Hne'].
      * rewrite (Hsame' Heq). apply Hrun. congruence.
      * by apply Hrun'.
Qed.

(** X15. After a run, the status report shows no stage as running: every
    status is [completed] or [pending], whatever failed on the way. The only
    exception is a run that invokes nothing because its checkpoint lists every
    stage it would invoke as completed; such a run returns the state of the
    checkpoint as it is. *)
Theorem run_status_never_running (w : World) (checkpoint_enabled : bool)
    (store : gmap string CheckpointFile) (company_name : string)
    (bp_file_path run_id : option string) :
  ∃ out,
    run w checkpoint_enabled store company_name bp_file_path run_id = Ok out ∧
    ((invoked out = [] ∧
      final_state out
        = start_state w checkpoint_enabled store company_name bp_file_path run_id)
     ∨
     (invoked out ≠ [] ∧
      ∀ agent_name status,
        (agent_name, status) ∈ get_agent_status (final_state out) →
        status = "completed" ∨ status = "pending")).
Proof.
  destruct (run_frame settled w checkpoint_enabled bp_file_path store company_name run_id)
    as (out & Hrun & _ & Hsame & Hran).
  - intros name body st store' trace Hbody. unfold settled. cbn [final_state invoked].
    split; [by apply prefix_app_r|].
    assert (Hgrown : (trace ++ [name])%list ≠ trace).
    { intros Heq. apply (f_equal length) in Heq. rewrite length_app in Heq. cbn in Heq. lia. }
    split; [done|]. intros _. exact (proj1 (status_after_wrapper w name body st Hbody)).
  - intros ok st store' trace _. unfold settled. cbn [final_state invoked].
    split; [done|]. split; [done|]. intros Hne. by destruct Hne.
  - exists out. split; [exact Hrun|]. cbn [final_state invoked] in *.
    destruct (decide (invoked out = [])) as [Hnone|Hsome].
    + left. split; [exact Hnone | by apply Hsame].
    + right. split; [exact Hsome | by apply Hran].
Qed.

(** *** Runs that pass the gate *)

(** The state the gate stage leaves when nothing was completed before. *)
Lemma gate_stage_completed_alone w st :
  completed_agents st = [] →
  completed_agents (_execute_wrapper w "prescreen" (prescreen_execute w) st) = ["prescreen"].
Proof.
  intros Hnone.
  rewrite (wrapper_completed w "prescreen" _ st
             (body_keeps_completed w "prescreen" _ eq_refl)).
  by rewrite prescreen_execute_returns, Hnone.
Qed.

(** X16. A run that starts with no stage completed and whose gate stage
    passes invokes every stage of the execution order, in order, the document
    stage left out when no document is given, and returns with the gate still
    open. A stage that fails does not keep the later ones from being
    invoked. *)
Theorem passing_run_invokes_every_stage (w : World) (checkpoint_enabled : bool)
    (store : gmap string CheckpointFile) (company_name : string)
    (bp_file_path run_id : option string) :
  completed_agents (start_state w checkpoint_enabled store company_name bp_file_path run_id)
    = [] →
  truthy (prescreen_passed
            (_execute_wrapper w "prescreen" (prescreen_execute w)
               (start_state w checkpoint_enabled store company_name bp_file_path run_id)))
    = true →
  ∃ out,
    run w checkpoint_enabled store company_name bp_file_path run_id = Ok out ∧
    invoked out
      = (if is_given bp_file_path then execution_order
         else ["prescreen"; "industry_dd"; "team_dd"; "fin_dd"; "risk_dd"; "cross_check";
               "report_generator"]) ∧
    truthy (prescreen_passed (final_state out)) = true.
Proof.
  intros Hnone Hgate. unfold run.
  set (st0 := start_state w checkpoint_enabled store company_name bp_file_path run_id) in *.
  rewrite (run_stages_gate w checkpoint_enabled bp_file_path st0 store)
    by (rewrite Hnone; apply not_elem_of_nil).
  cbv zeta. set (st1 := _execute_wrapper w "prescreen" (prescreen_execute w) st0) in *.
  rewrite Hgate. cbn [negb].
  destruct (run_stages_resumed w checkpoint_enabled bp_file_path (tail execution_order) st1
              (if checkpoint_enabled
               then _save_checkpoint checkpoint_enabled (write_ok w "prescreen") store st1
               else store) ["prescreen"])
    as (out & Hrun & Hinv & Hpass & _).
  - by apply (bool_decide_unpack _).
  - intros name Hin. apply execution_order_agents. by right.
  - apply prescreen_completed.
  - exists out. split; [exact Hrun|]. split; [|by rewrite Hpass].
    rewrite Hinv.
    rewrite (filter_ext_in
               (fun name => to_run bp_file_path st1 name = true)
               (fun name => to_run bp_file_path
                              (set_completed_agents ["prescreen"] st0) name = true)).
    + unfold to_run. cbn [completed_agents set_completed_agents].
      by destruct (is_given bp_file_path).
    + intros name _. unfold to_run. cbn [completed_agents set_completed_agents].
      unfold st1. by rewrite (gate_stage_completed_alone w st0 Hnone).
Qed.

(** *** Runs without a document *)

(** What the cross-check records when there is nothing to check against. *)
Definition skipped : pyval :=
  py_dict [("status", PStr "skipped"); ("reason", PStr "No BP data available")].

Lemma body_keeps_document w name body :
  agents w name = Some body → name ≠ "bp_parser" → frame (keeps bp_extracted_data) body.
Proof.
  intros Hbody Hname. stage_cases Hbody.
  - apply prescreen_execute_frame; [exact _ | lets_through ..].
  - done.
  - apply dd_execute_frame; [exact _ | lets_through ..].
  - apply dd_execute_frame; [exact _ | lets_through ..].
  - apply dd_execute_frame; [exact _ | lets_through ..].
  - apply dd_execute_frame; [exact _ | lets_through ..].
  - apply cross_check_execute_frame; [exact _ | lets_through ..].
  - apply report_generator_execute_frame; [exact _ | lets_through ..].
Qed.

Lemma body_keeps_cross_check w name body :
  agents w name = Some body → name ≠ "cross_check" → frame (keeps cross_check_results) body.
Proof.
  intros Hbody Hname. stage_cases Hbody.
  - apply prescreen_execute_frame; [exact _ | lets_through ..].
  - apply bp_parser_execute_frame; [exact _ | lets_through ..].
  - apply dd_execute_frame; [exact _ | lets_through ..].
  - apply dd_execute_frame; [exact _ | lets_through ..].
  - apply dd_execute_frame; [exact _ | lets_through ..].
  - apply dd_execute_frame; [exact _ | lets_through ..].
  - done.
  - apply report_generator_execute_frame; [exact _ | lets_through ..].
Qed.

(** With the gate open and no document data, the cross-check records
    that it was skipped, and searches nothing. *)
Lemma cross_check_execute_skips w st :
  truthy (prescreen_passed st) = true → truthy (bp_extracted_data st) = false →
  cross_check_execute w st = (Ok tt, set_cross_check_results skipped st).
Proof.
  intros Hgate Hdata.
  cbv beta iota zeta delta [cross_check_execute mbind M_bind get_state mret M_ret modify].
  by rewrite Hgate, Hdata.
Qed.

(** The gate is open, there is no document data, and a cross-check that
    was invoked completed and recorded that it was skipped. *)
Definition without_document (x : RunOutcome) : Prop :=
  truthy (prescreen_passed (final_state x)) = true ∧
  truthy (bp_extracted_data (final_state x)) = false ∧
  "prescreen" ∈ completed_agents (final_state x) ∧
  ("cross_check" ∈ invoked x →
   "cross_check" ∈ completed_agents (final_state x) ∧
   cross_check_results (final_state x) = skipped).

Definition stays_without_document : relation RunOutcome :=
  fun before after => without_document before → without_document after.

#[export] Instance stays_without_document_preorder : PreOrder stays_without_document.
Proof. split; unfold stays_without_document; [intros a | intros a b c]; auto. Qed.

Lemma stage_without_document w name body st store trace :
  agents w name = Some body → name ≠ "prescreen" → name ≠ "bp_parser" →
  stays_without_document (mkOutcome st store trace)
    (mkOutcome (_execute_wrapper w name body st) store (trace ++ [name])).
Proof.
  intros Hbody Hgate Hdoc (Hopen & Hdata & Hdone & Hcross).
  unfold without_document. cbn [final_state invoked] in *.
  destruct (stage_step w name body st Hbody Hgate) as [Hpass Hcompleted].
  assert (Hdata' : bp_extracted_data (_execute_wrapper w name body st) = bp_extracted_data st).
  { apply wrapper_keeps; try done. by apply (body_keeps_document w name). }
  split; [by rewrite Hpass|]. split; [by rewrite Hdata'|]. split.
  { destruct Hcompleted as [->| ->]; [done|]. apply elem_of_app. by left. }
  destruct (decide (name = "cross_check")) as [->|Hname].
  - intros _. injection Hbody as <-.
    assert (Hrun : cross_check_execute w (set_current_agent "cross_check" st)
                   = (Ok tt, set_cross_check_results skipped
                               (set_current_agent "cross_check" st)))
      by (by apply cross_check_execute_skips).
    split.
    + unfold _execute_wrapper. rewrite Hrun. cbn.
      destruct (bool_decide _) eqn:Hin; cbn.
      * by apply bool_decide_eq_true in Hin.
      * apply elem_of_app. right. left.
    + rewrite (wrapper_proj cross_check_results) by done. by rewrite Hrun.
  - intros [Hin|Hin%list_elem_of_singleton]%elem_of_app; [|done].
    destruct (Hcross Hin) as [Hc Hr]. split.
    + destruct Hcompleted as [->| ->]; [done|]. apply elem_of_app. by left.
    + rewrite <- Hr. apply wrapper_keeps; try done. by apply (body_keeps_cross_check w name).
Qed.

(** X17. In a run that is given no run id and no document and whose gate
    stage passes, the document stage is not invoked, the cross-check stage is
    invoked and completes, and the state returned records the cross-check as
    skipped for want of document data, whatever the due-diligence stages in
    between did. *)
Theorem no_document_skips_cross_check (w : World) (checkpoint_enabled : bool)
    (store : gmap string CheckpointFile) (company_name : string)
    (bp_file_path : option string) :
  is_given bp_file_path = false →
  truthy (prescreen_passed
            (_execute_wrapper w "prescreen" (prescreen_execute w)
               (start_state w checkpoint_enabled store company_name bp_file_path None)))
    = true →
  ∃ out,
    run w checkpoint_enabled store company_name bp_file_path None = Ok out ∧
    ("bp_parser" ∉ invoked out) ∧
    "cross_check" ∈ invoked out ∧
    "cross_check" ∈ completed_agents (final_state out) ∧
    cross_check_results (final_state out) = skipped.
Proof.
  intros Hbp Hgate. unfold run.
  set (st0 := start_state w checkpoint_enabled store company_name bp_file_path None) in *.
  assert (Hnone : completed_agents st0 = []) by done.
  rewrite (run_stages_gate w checkpoint_enabled bp_file_path st0 store)
    by (rewrite Hnone; apply not_elem_of_nil).
  cbv zeta. set (st1 := _execute_wrapper w "prescreen" (prescreen_execute w) st0) in *.
  rewrite Hgate. cbn [negb].
  set (store1 := if checkpoint_enabled
                 then _save_checkpoint checkpoint_enabled (write_ok w "prescreen") store st1
                 else store).
  assert (Hagents : ∀ name, name ∈ tail execution_order → is_Some (agents w name))
    by (intros name Hin; apply execution_order_agents; by right).
  destruct (run_stages_resumed w checkpoint_enabled bp_file_path (tail execution_order) st1
              store1 ["prescreen"]) as (out & Hrun & Hinv & _).
  { by apply (bool_decide_unpack _). }
  { exact Hagents. }
  { apply prescreen_completed. }
  destruct (run_stages_frame stays_without_document w checkpoint_enabled bp_file_path)
    with (order := tail execution_order) (st := st1) (store := store1)
         (trace := ["prescreen"]) as (out' & Hrun' & Hout).
  { intros name body st store' trace Hbody Hfresh Hdoc.
    destruct (decide (name = "prescreen")) as [->|Hname].
    - intros (_ & _ & Hdone & _). done.
    - apply stage_without_document; [done | done |].
      intros ->. specialize (Hdoc eq_refl). congruence. }
  { intros st store' trace.
    by apply (stage_without_document w "report_generator"). }
  { intros ok st store' trace _ H. exact H. }
  { exact Hagents. }
  rewrite Hrun in Hrun'. injection Hrun' as <-.
  assert (Hcross : "cross_check" ∈ invoked out).
  { rewrite Hinv. apply elem_of_app. right. apply list_elem_of_filter. split.
    - unfold to_run. unfold st1. rewrite (gate_stage_completed_alone w st0 Hnone).
      rewrite Hbp. reflexivity.
    - unfold execution_order. cbn [tail]. rewrite !elem_of_cons. auto 10. }
  destruct Hout as (_ & _ & _ & Hskipped).
  { unfold without_document. cbn [final_state invoked].
    split; [exact Hgate|]. split; [|split; [apply prescreen_completed|]].
    - unfold st1. rewrite wrapper_keeps; try done.
      by apply (body_keeps_document w "prescreen").
    - intros Hin. no_member Hin. }
  exists out. split; [exact Hrun|]. split; [|split; [exact Hcross | by apply Hskipped]].
  rewrite Hinv. intros [Hhead|Hin]%elem_of_cons; [discriminate|].
  apply list_elem_of_filter in Hin as [Hto _]. by rewrite to_run_document in Hto.
Qed.

(** *** The checkpoint of a rejected run *)

Lemma report_generator_returns_closed w st :
  truthy (prescreen_passed st) = false → fst (report_generator_execute w st) = Ok tt.
Proof.
  intros Hgate.
  cbv beta iota zeta delta [report_generator_execute mbind M_bind get_state modify
                            mret M_ret].
  rewrite Hgate. cbn [negb]. by destruct (negb (has_report st)).
Qed.

(** X18. When the gate stage runs and rejects, with checkpoints on and the
    write succeeding, the run changes the checkpoint directory in the slot of
    its run id only, and what it stores there is the state the gate stage
    left: the reporting stage runs after the checkpoint is written, so the
    state returned lists it as completed and the stored one does not (unless
    it did at the start). *)
Theorem rejection_checkpoint_precedes_report (w : World)
    (store : gmap string CheckpointFile) (company_name : string)
    (bp_file_path run_id : option string) :
  "prescreen" ∉ completed_agents (start_state w true store company_name bp_file_path run_id) →
  "report_generator"
    ∉ completed_agents (start_state w true store company_name bp_file_path run_id) →
  truthy (prescreen_passed
            (_execute_wrapper w "prescreen" (prescreen_execute w)
               (start_state w true store company_name bp_file_path run_id)))
    = false →
  write_ok w "prescreen" = true →
  ∃ out,
    run w true store company_name bp_file_path run_id = Ok out ∧
    "report_generator" ∈ completed_agents (final_state out) ∧
    ∃ saved,
      checkpoints out = <[State.run_id (final_state out) := Document saved]> store ∧
      saved = _serialize_state
                (_execute_wrapper w "prescreen" (prescreen_execute w)
                   (start_state w true store company_name bp_file_path run_id)) ∧
      ("report_generator" ∉ ser_completed_agents saved).
Proof.
  intros Hfresh Hreport Hgate Hwrite. unfold run.
  set (st0 := start_state w true store company_name bp_file_path run_id) in *.
  rewrite (run_stages_gate w true bp_file_path st0 store Hfresh). cbv zeta.
  set (st1 := _execute_wrapper w "prescreen" (prescreen_execute w) st0) in *.
  rewrite Hgate. cbn [negb]. eexists. split; [reflexivity|].
  cbn [final_state checkpoints].
  pose proof (wrapper_completed w "report_generator" (report_generator_execute w) st1
                (body_keeps_completed w "report_generator" _ eq_refl)) as Hcompleted.
  rewrite (report_generator_returns_closed w (set_current_agent "report_generator" st1))
    in Hcompleted by done.
  split.
  - rewrite Hcompleted. destruct (bool_decide _) eqn:Hin.
    + by apply bool_decide_eq_true in Hin.
    + apply elem_of_app. right. left.
  - exists (_serialize_state st1). split; [|split; [done|]].
    + unfold _save_checkpoint. rewrite Hwrite. cbn [andb]. f_equal.
      pose proof (wrapper_identity w "report_generator" _ st1 eq_refl) as Hid.
      by injection Hid.
    + cbn [_serialize_state ser_completed_agents]. unfold st1.
      rewrite (wrapper_completed w "prescreen" _ st0
                 (body_keeps_completed w "prescreen" _ eq_refl)).
      rewrite prescreen_execute_returns, bool_decide_eq_false_2 by done.
      intros [Hin|Hin%list_elem_of_singleton]%elem_of_app; [done | discriminate].
Qed.

(** *** Closed examples *)

(** The document stage on a fresh state, in a world without documents. *)
Lemma status_after_stage_witness :
  (∀ agent_name status,
     (agent_name, status)
       ∈ get_agent_status
           (_execute_wrapper (example_world true true reply_accept) "bp_parser"
              (bp_parser_execute (example_world true true reply_accept)) example_fresh) →
     status = "completed" ∨ status = "pending") ∧
  match fst (bp_parser_execute (example_world true true reply_accept)
               (set_current_agent "bp_parser" example_fresh)) with
  | Ok _ =>
      ("bp_parser", "completed")
        ∈ get_agent_status
            (_execute_wrapper (example_world true true reply_accept) "bp_parser"
               (bp_parser_execute (example_world true true reply_accept)) example_fresh)
  | Raise _ =>
      ("bp_parser",
       if bool_decide ("bp_parser" ∈ completed_agents example_fresh)
       then "completed" else "pending")
        ∈ get_agent_status
            (_execute_wrapper (example_world true true reply_accept) "bp_parser"
               (bp_parser_execute (example_world true true reply_accept)) example_fresh)
  end.
Proof.
  apply (status_after_stage (example_world true true reply_accept) "bp_parser"
           (bp_parser_execute (example_world true true reply_accept)) example_fresh).
  reflexivity.
Defined.

(** A fresh run without a document, every search failing, the model
    accepting. *)
Lemma passing_run_invokes_every_stage_witness :
  ∃ out,
    run (example_world false true reply_accept) false ∅ "Acme" None None = Ok out ∧
    invoked out
      = (if is_given None then execution_order
         else ["prescreen"; "industry_dd"; "team_dd"; "fin_dd"; "risk_dd"; "cross_check";
               "report_generator"]) ∧
    truthy (prescreen_passed (final_state out)) = true.
Proof.
  apply (passing_run_invokes_every_stage (example_world false true reply_accept) false ∅
           "Acme" None None).
  - reflexivity.
  - vm_compute. reflexivity.
Defined.

Lemma no_document_skips_cross_check_witness :
  ∃ out,
    run (example_world true true reply_accept) true ∅ "Acme" None None = Ok out ∧
    ("bp_parser" ∉ invoked out) ∧
    "cross_check" ∈ invoked out ∧
    "cross_check" ∈ completed_agents (final_state out) ∧
    cross_check_results (final_state out) = skipped.
Proof.
  apply (no_document_skips_cross_check (example_world true true reply_accept) true ∅
           "Acme" None).
  - reflexivity.
  - vm_compute. reflexivity.
Defined.

Lemma rejection_checkpoint_precedes_report_witness :
  ∃ out,
    run (example_world true true reply_reject) true ∅ "Acme" None None = Ok out ∧
    "report_generator" ∈ completed_agents (final_state out) ∧
    ∃ saved,
      checkpoints out = <[State.run_id (final_state out) := Document saved]> ∅ ∧
      saved = _serialize_state
                (_execute_wrapper (example_world true true reply_reject) "prescreen"
                   (prescreen_execute (example_world true true reply_reject))
                   (start_state (example_world true true reply_reject) true ∅ "Acme" None
                      None)) ∧
      ("report_generator" ∉ ser_completed_agents saved).
Proof.
  apply (rejection_checkpoint_precedes_report (example_world true true reply_reject) ∅
           "Acme" None None).
  - cbn. apply not_elem_of_nil.
  - cbn. apply not_elem_of_nil.
  - vm_compute. reflexivity.
  - reflexivity.
Defined.

End Runs.

(** ** The stages one by one (src/agents, src/report/report_generator.py) *)

Module Stages.
Import State Checkpoint Agents Frames Workflow.

(** The four due-diligence stages. *)
Definition due_diligence_stages : list DueDiligence := [industry_dd; team_dd; fin_dd; risk_dd].

(** The completion service gives a due-diligence stage nothing to parse: the
    call raises, or reports no success, or carries no content. *)
Definition model_unavailable (w : World) (name : string) : Prop :=
  match simple_analyze w name with
  | Raise _ => True
  | Ok response => success response = false ∨ content response = ""
  end.

(** The default analysis of each stage scores every metric, [overall]
    among them, with the int 5, and carries a rationale dict. *)
Lemma default_analysis_neutral a company_name :
  a ∈ due_diligence_stages →
  ∃ default_scores default_rationale,
    dict_get (dd_default_analysis a company_name) "scores" (PDict ∅)
      = PDict default_scores ∧
    default_scores !! "overall" = Some (PInt 5) ∧
    dict_get (dd_default_analysis a company_name) "rationale" (PDict ∅)
      = PDict default_rationale.
Proof.
  unfold due_diligence_stages. rewrite !elem_of_cons, elem_of_nil.
  intros [->|[->|[->|[->|[]]]]];
    (eexists; eexists; split; [|split]; [vm_compute; reflexivity ..]).
Qed.

(** When the model is unavailable the analysis of the stage is its
    default analysis, whatever the searches did. *)
Lemma dd_analyse_default w a company_name st :
  model_unavailable w (dd_name a) →
  fst (dd_analyse w a company_name st) = Ok (dd_default_analysis a company_name).
Proof.
  unfold model_unavailable. intros Hmodel.
  cbv beta iota zeta delta [dd_analyse try_catch mbind M_bind lift mret M_ret].
  destruct (search_each w (dd_search_queries a company_name) [] st) as [[results|e] st1];
    [|reflexivity].
  destruct (simple_analyze w (dd_name a)) as [response|e]; [|reflexivity].
  destruct Hmodel as [Hsuccess|Hcontent].
  - rewrite Hsuccess. reflexivity.
  - rewrite Hcontent, andb_false_r. reflexivity.
Qed.

Lemma ensure_entry_lookup key (m : gmap string (gmap string pyval)) :
  ensure_entry key m !! key = Some (default ∅ (m !! key)).
Proof.
  unfold ensure_entry. destruct (m !! key) as [entry|] eqn:Hentry; [done|].
  by rewrite lookup_insert_eq.
Qed.

Lemma write_entries_keep_category category analysis_result details :
  ∀ m : gmap string (gmap string pyval),
    is_Some (m !! category) →
    is_Some (foldl (fun m '(key, fallback) =>
                      write_entry category
                        (insert key (dict_get analysis_result key fallback)) m)
                   m details !! category).
Proof.
  induction details as [|[key fallback] rest IH]; intros m Hm; [exact Hm|].
  cbn [foldl]. apply IH. unfold write_entry. rewrite lookup_insert_eq. by eexists.
Qed.

(** [_update_state] on an analysis whose scores and rationale are dicts:
    it returns, and the score entry of the category is the old entry updated
    with the scores of the analysis. *)
Lemma dd_update_state_dicts a analysis_result st new_scores new_rationale :
  dict_get analysis_result "scores" (PDict ∅) = PDict new_scores →
  dict_get analysis_result "rationale" (PDict ∅) = PDict new_rationale →
  fst (dd_update_state a analysis_result st) = Ok tt ∧
  scores (snd (dd_update_state a analysis_result st)) !! dd_category a
    = Some (new_scores ∪ default ∅ (scores st !! dd_category a)) ∧
  is_Some (rationale (snd (dd_update_state a analysis_result st)) !! dd_category a).
Proof.
  intros Hscores Hrationale.
  cbv beta iota zeta delta [dd_update_state mbind M_bind modify get_state lift update_entry].
  rewrite Hscores, Hrationale. cbn [dict_update set_scores scores set_rationale rationale].
  cbn [fst snd set_rationale set_scores scores rationale].
  split; [reflexivity|]. split.
  - by rewrite lookup_insert_eq, ensure_entry_lookup.
  - apply write_entries_keep_category. rewrite lookup_insert_eq. by eexists.
Qed.

(** X19. With the gate open, a due-diligence stage whose model call
    raises, or reports no success, or carries no content, still completes, and
    records the neutral default: the score entry of its category has
    [overall] 5, whatever was there before and whatever the searches did, and
    the category has a rationale entry. *)
Theorem dd_neutral_default (w : World) (a : DueDiligence) (st : VentureLensState) :
  a ∈ due_diligence_stages →
  truthy (prescreen_passed st) = true →
  model_unavailable w (dd_name a) →
  dd_name a ∈ completed_agents (_execute_wrapper w (dd_name a) (dd_execute w a) st) ∧
  (∃ entry,
     scores (_execute_wrapper w (dd_name a) (dd_execute w a) st) !! dd_category a
       = Some entry ∧
     entry !! "overall" = Some (PInt 5)) ∧
  is_Some (rationale (_execute_wrapper w (dd_name a) (dd_execute w a) st) !! dd_category a).
Proof.
  intros Hstage Hgate Hmodel.
  destruct (default_analysis_neutral a (company_name st) Hstage)
    as (default_scores & default_rationale & Hscores & Hoverall & Hrationale).
  assert (Hbody : ∃ st1,
    dd_execute w a (set_current_agent (dd_name a) st)
      = dd_update_state a (dd_default_analysis a (company_name st)) st1).
  { cbv beta iota zeta delta [dd_execute mbind M_bind get_state].
    change (prescreen_passed (set_current_agent (dd_name a) st)) with (prescreen_passed st).
    rewrite Hgate. cbn [negb].
    change (company_name (set_current_agent (dd_name a) st)) with (company_name st).
    pose proof (dd_analyse_default w a (company_name st)
                  (set_current_agent (dd_name a) st) Hmodel) as Hdefault.
    destruct (dd_analyse w a (company_name st) (set_current_agent (dd_name a) st))
      as [[analysis|e] st1]; cbn [fst] in Hdefault; [|discriminate].
    injection Hdefault as ->. by exists st1. }
  destruct Hbody as [st1 Hbody].
  destruct (dd_update_state_dicts a _ st1 _ _ Hscores Hrationale) as (Hret & Hs & Hr).
  rewrite <- Hbody in Hret, Hs, Hr.
  split; [|split].
  - unfold _execute_wrapper.
    destruct (dd_execute w a (set_current_agent (dd_name a) st)) as [[[]|e] st2];
      cbn [fst] in Hret; [|discriminate].
    destruct (bool_decide _) eqn:Hin; cbn.
    + by apply bool_decide_eq_true in Hin.
    + apply elem_of_app. right. left.
  - rewrite (wrapper_proj scores) by done. eexists. split; [exact Hs|].
    by apply lookup_union_Some_l.
  - by rewrite (wrapper_proj rationale).
Qed.

(** The searches of a due-diligence stage never raise, and leave the
    scores as they were. *)
Lemma search_each_returns w queries : ∀ acc st,
  ∃ results, fst (search_each w queries acc st) = Ok results.
Proof.
  induction queries as [|query rest IH]; intros acc st; cbn [search_each].
  - by eexists.
  - cbv beta iota zeta delta [mbind M_bind try_catch mret M_ret].
    destruct (search_and_record w query st) as [[results|e] st1]; apply IH.
Qed.

(** X20. With the gate open, when the completion service answers a
    due-diligence stage with content that [parse_json_response] turns into a
    dict without an [error] key, whose [scores] and [rationale] are dicts, the
    stage completes and the score entry of its category is the entry that was
    there updated with the scores of the answer, as they are: no value is
    checked or converted. *)
Theorem dd_records_model_scores (w : World) (a : DueDiligence) (st : VentureLensState)
    (response : Completion) (analysis new_scores new_rationale : gmap string pyval) :
  truthy (prescreen_passed st) = true →
  simple_analyze w (dd_name a) = Ok response →
  success response = true →
  content response ≠ "" →
  Recovery.parse_json_response Json.json_loads (content response) = Ok (PDict analysis) →
  analysis !! "error" = None →
  dict_get analysis "scores" (PDict ∅) = PDict new_scores →
  dict_get analysis "rationale" (PDict ∅) = PDict new_rationale →
  dd_name a ∈ completed_agents (_execute_wrapper w (dd_name a) (dd_execute w a) st) ∧
  scores (_execute_wrapper w (dd_name a) (dd_execute w a) st) !! dd_category a
    = Some (new_scores ∪ default ∅ (scores st !! dd_category a)).
Proof.
  intros Hgate Hmodel Hsuccess Hcontent Hparse Hno_error Hscores Hrationale.
  set (st0 := set_current_agent (dd_name a) st).
  assert (Hanalyse : ∃ st1,
    dd_analyse w a (company_name st0) st0 = (Ok analysis, st1) ∧ scores st1 = scores st).
  { cbv beta iota zeta delta [dd_analyse try_catch mbind M_bind lift mret M_ret].
    destruct (search_each_returns w (dd_search_queries a (company_name st0)) [] st0)
      as [results Hresults].
    pose proof (search_each_frame (keeps scores) w
                  (dd_search_queries a (company_name st0)) []
                  ltac:(lets_through) st0) as Hkept.
    unfold keeps in Hkept.
    destruct (search_each w (dd_search_queries a (company_name st0)) [] st0)
      as [[results'|e] st1]; cbn [fst snd] in *; [|discriminate].
    apply String.eqb_neq in Hcontent.
    rewrite Hmodel, Hsuccess, Hcontent, Hparse, Hno_error, Hscores. cbn.
    exists st1. by split. }
  destruct Hanalyse as (st1 & Hanalyse & Hkept).
  assert (Hbody : dd_execute w a st0 = dd_update_state a analysis st1).
  { cbv beta iota zeta delta [dd_execute mbind M_bind get_state].
    change (prescreen_passed st0) with (prescreen_passed st).
    rewrite Hgate. cbn [negb]. by rewrite Hanalyse. }
  destruct (dd_update_state_dicts a analysis st1 _ _ Hscores Hrationale) as (Hret & Hs & _).
  rewrite <- Hbody in Hret, Hs. rewrite Hkept in Hs.
  split.
  - unfold _execute_wrapper. fold st0.
    destruct (dd_execute w a st0) as [[[]|e] st2]; cbn [fst] in Hret; [|discriminate].
    destruct (bool_decide _) eqn:Hin; cbn.
    + by apply bool_decide_eq_true in Hin.
    + apply elem_of_app. right. left.
  - by rewrite (wrapper_proj scores).
Qed.

(** *** The document stage and the cross-check *)

(** X21. The document stage never raises, and the state it leaves is the
    state it found, but for [bp_extracted_data] if it wrote that. It leaves
    the state as it found it when no path is given or the file does not exist;
    when extracting the content raises, it records the dict whose [error] is
    the text of the exception. *)
Theorem bp_parser_contained (w : World) (st : VentureLensState) :
  ∃ st',
    bp_parser_execute w st = (Ok tt, st') ∧
    (st' = st ∨ ∃ data, st' = set_bp_extracted_data data st) ∧
    (match bp_file_path st with
     | Some path => negb (String.eqb path "") && path_exists w path
     | None => false
     end = false → st' = st) ∧
    (∀ path e, bp_file_path st = Some path → path ≠ "" → path_exists w path = true →
       extract_bp_content w path = Raise e →
       st' = set_bp_extracted_data (py_dict [("error", PStr (exn_str e))]) st).
Proof.
  cbv beta iota zeta delta [bp_parser_execute mbind M_bind get_state try_catch lift modify
                            mret M_ret].
  destruct (bp_file_path st) as [path|].
  2:{ exists st. split; [done|]. split; [by left|]. split; [done|]. discriminate. }
  destruct (negb (String.eqb path "") && path_exists w path) eqn:Hthere.
  2:{ exists st. split; [done|]. split; [by left|]. split; [done|].
      intros path' e [= <-] Hpath Hexists. apply String.eqb_neq in Hpath.
      rewrite Hpath, Hexists in Hthere. discriminate. }
  destruct (extract_bp_content w path) as [bp_content|e] eqn:Hextract.
  - assert (Hno : ∀ (data : VentureLensState) path' e',
              Some path = Some path' → path' ≠ "" → path_exists w path' = true →
              extract_bp_content w path' = Raise e' →
              data = set_bp_extracted_data (py_dict [("error", PStr (exn_str e'))]) st).
    { intros data path' e' [= <-] _ _ He. rewrite Hextract in He. discriminate. }
    destruct (String.eqb bp_content "").
    + exists st. split; [done|]. split; [by left|]. split; [discriminate | apply Hno].
    + destruct (structure_bp_data w (company_name st) bp_content) as [data|e];
        (eexists; split; [reflexivity|]; split; [right; by eexists|];
         split; [discriminate | apply Hno]).
  - eexists. split; [reflexivity|]. split; [right; by eexists|]. split; [discriminate|].
    intros path' e' [= <-] _ _ He. rewrite Hextract in He. by injection He as <-.
Qed.

(** *** The reporting stage *)

(** X22. On a closed gate the reporting stage returns and leaves a report
    that is not empty; it leaves the state as it found it when there was such
    a report already; and invoking the stage again, in whatever world, changes
    nothing: the rejection report is written once. *)
Theorem rejection_report_written_once (w w' : World) (st : VentureLensState) :
  truthy (prescreen_passed st) = false →
  fst (report_generator_execute w st) = Ok tt ∧
  has_report (snd (report_generator_execute w st)) = true ∧
  (has_report st = true → snd (report_generator_execute w st) = st) ∧
  report_generator_execute w' (snd (report_generator_execute w st))
    = (Ok tt, snd (report_generator_execute w st)).
Proof.
  intros Hgate.
  assert (Hkept : ∀ w0 st0, truthy (prescreen_passed st0) = false → has_report st0 = true →
            report_generator_execute w0 st0 = (Ok tt, st0)).
  { intros w0 st0 Hgate0 Hreport.
    cbv beta iota zeta delta [report_generator_execute mbind M_bind get_state mret M_ret].
    by rewrite Hgate0, Hreport. }
  destruct (has_report st) eqn:Hreport.
  - rewrite (Hkept w st Hgate Hreport). cbn [fst snd].
    split; [done|]. split; [done|]. split; [done|]. by apply Hkept.
  - assert (Hrun : report_generator_execute w st
                   = (Ok tt, set_final_report
                               (Some (_generate_simple_rejection_report w (company_name st)
                                        (prescreen_reason st))) st)).
    { cbv beta iota zeta delta [report_generator_execute mbind M_bind get_state modify].
      by rewrite Hgate, Hreport. }
    rewrite Hrun. cbn [fst snd].
    assert (Hnow : has_report
                     (set_final_report
                        (Some (_generate_simple_rejection_report w (company_name st)
                                 (prescreen_reason st))) st) = true).
    { unfold has_report. cbn [final_report set_final_report].
      by rewrite rejection_report_nonempty. }
    split; [done|]. split; [exact Hnow|]. split; [discriminate|]. by apply Hkept.
Qed.

(** The score loop raises as soon as one listed category carries an
    [overall] that is no number. *)
Lemma for_each_accumulate_raises scores category v : ∀ items acc,
  category ∈ items.*1 →
  Score.overall_of scores category = Some v →
  Score.number_value v = None →
  ∃ e, Score.for_each (Score.accumulate scores) acc items = Raise e.
Proof.
  induction items as [|[category' weight] rest IH]; intros [weighted_sum total_weight] Hin Hv Hno.
  - by apply elem_of_nil in Hin.
  - cbn [Score.for_each]. rewrite Score.accumulate_overall_of.
    cbn [fmap list_fmap fst] in Hin. apply elem_of_cons in Hin as [<-|Hin].
    + rewrite Hv.
      assert (Hmul : ∃ e, Score.mul_by_weight v weight = Raise e).
      { destruct v as [| b | z | f | | |]; cbn in Hno |- *; try discriminate; try by eexists.
        destruct (Score.float_of_int z); [discriminate | by eexists]. }
      destruct Hmul as [e ->]. by exists e.
    + destruct (Score.overall_of scores category') as [v'|]; cbn.
      * destruct (Score.mul_by_weight v' weight) as [term|e]; cbn; [by apply IH | by exists e].
      * by apply IH.
Qed.

(** X23. With the gate open, when the score entry of one of the four
    categories carries an [overall] that is no number (text, as a model may
    answer, or an int beyond the floats), the reporting stage raises out of
    the score computation and changes nothing; its wrapper then leaves
    [final_report] and the completed stages as they were and marks the stage
    as [report_generator_error]. *)
Theorem report_fails_on_non_numeric_overall (w : World) (st : VentureLensState)
    (category : string) (v : pyval) :
  truthy (prescreen_passed st) = true →
  category ∈ dd_categories →
  Score.overall_of (scores st) category = Some v →
  Score.number_value v = None →
  (∃ e, report_generator_execute w st = (Raise e, st)) ∧
  final_report (_execute_wrapper w "report_generator" (report_generator_execute w) st)
    = final_report st ∧
  completed_agents (_execute_wrapper w "report_generator" (report_generator_execute w) st)
    = completed_agents st ∧
  current_agent (_execute_wrapper w "report_generator" (report_generator_execute w) st)
    = "report_generator_error".
Proof.
  intros Hgate Hcategory Hv Hno.
  assert (Hraise : ∀ st0, scores st0 = scores st → prescreen_passed st0 = prescreen_passed st →
            ∃ e, report_generator_execute w st0 = (Raise e, st0)).
  { intros st0 Hs Hp.
    destruct (for_each_accumulate_raises (scores st) category v Score.weights (0%float, 0%float))
      as [e He]; [exact Hcategory | exact Hv | exact Hno |].
    exists e.
    cbv beta iota zeta delta [report_generator_execute mbind M_bind get_state lift
                              _generate_comprehensive_report Score._calculate_overall_score
                              Result_bind].
    by rewrite Hp, Hgate, Hs, He. }
  split; [by apply Hraise|].
  unfold _execute_wrapper.
  destruct (Hraise (set_current_agent "report_generator" st) eq_refl eq_refl) as [e ->].
  done.
Qed.

(** *** The gate stage *)

Lemma truthy_passed_default analysis :
  truthy (dict_get analysis "passed" PNone) = truthy (dict_get analysis "passed" (PBool false)).
Proof. unfold dict_get. by destruct (analysis !! "passed"). Qed.

Lemma prescreen_update_state_score w analysis st :
  scores (snd (prescreen_update_state w analysis st)) !! "prescreen"
    ≫= (fun entry => entry !! "overall")
  = Some (PFloat (if truthy (dict_get analysis "passed" PNone) then 8.0 else 3.0)%float).
Proof.
  cbv beta iota zeta delta [prescreen_update_state mbind M_bind modify get_state lift
                            mret M_ret].
  destruct (negb (truthy (dict_get analysis "passed" (PBool false)))).
  - destruct (format_rejection_report w _ _ _) as [report|e];
      cbn [snd scores set_scores set_rationale set_final_report];
      rewrite lookup_insert_eq; cbn [mbind option_bind list_to_map foldr curry];
      by rewrite lookup_insert_eq.
  - cbn [snd scores set_scores set_rationale].
    rewrite lookup_insert_eq. cbn [mbind option_bind list_to_map foldr curry].
    by rewrite lookup_insert_eq.
Qed.

(** X24. The score the gate stage records agrees with its verdict, on
    every path through the stage, failures included: after the gate stage the
    [overall] of the [prescreen] score entry is 8.0 when [prescreen_passed] is
    truthy and 3.0 when it is not. *)
Theorem gate_score_matches_verdict (w : World) (st : VentureLensState) :
  scores (_execute_wrapper w "prescreen" (prescreen_execute w) st) !! "prescreen"
    ≫= (fun entry => entry !! "overall")
  = Some (PFloat
            (if truthy (prescreen_passed
                          (_execute_wrapper w "prescreen" (prescreen_execute w) st))
             then 8.0 else 3.0)%float).
Proof.
  rewrite (wrapper_proj scores), (wrapper_proj prescreen_passed) by done.
  set (st0 := set_current_agent "prescreen" st).
  cbv beta iota zeta delta [prescreen_execute prescreen_try_block mbind M_bind
                            get_state try_catch].
  destruct (_search_company_info w (company_name st0) st0) as [[results|e] st1].
  - pose proof (prescreen_update_state_score w
                  (_analyze_with_llm w (company_name st0) results) st1) as Hscore.
    destruct (prescreen_update_state_spec w
                (_analyze_with_llm w (company_name st0) results) st1) as (Hgate & _ & _).
    destruct (prescreen_update_state w _ st1) as [[[]|e] st2]; cbn [fst snd] in *.
    + etransitivity; [exact Hscore|]. by rewrite Hgate, truthy_passed_default.
    + destruct (_set_default_result_spec (company_name st0) (exn_str e) st2) as [-> Hdefault].
      exact Hdefault.
  - destruct (_set_default_result_spec (company_name st0) (exn_str e) st1) as [-> Hdefault].
    exact Hdefault.
Qed.

(** *** Closed examples *)

(** A state with the gate open, and one in which the model has given the
    industry a score that is text. *)
Definition example_passed : VentureLensState :=
  set_prescreen_passed (PBool true) example_fresh.

Definition example_text_score : VentureLensState :=
  set_scores {["industry" := {["overall" := PStr "8"]}]} example_passed.

(** An answer with a score and an empty rationale. *)
Definition reply_scores : string :=
  "{" ++ Recovery.dq ++ "scores" ++ Recovery.dq ++ ": {"
      ++ Recovery.dq ++ "overall" ++ Recovery.dq ++ ": 9}, "
      ++ Recovery.dq ++ "rationale" ++ Recovery.dq ++ ": {}}".

Lemma dd_neutral_default_witness :
  dd_name industry_dd
    ∈ completed_agents
        (_execute_wrapper (example_world true false reply_accept) (dd_name industry_dd)
           (dd_execute (example_world true false reply_accept) industry_dd) example_passed) ∧
  (∃ entry,
     scores
       (_execute_wrapper (example_world true false reply_accept) (dd_name industry_dd)
          (dd_execute (example_world true false reply_accept) industry_dd) example_passed)
       !! dd_category industry_dd = Some entry ∧
     entry !! "overall" = Some (PInt 5)) ∧
  is_Some
    (rationale
       (_execute_wrapper (example_world true false reply_accept) (dd_name industry_dd)
          (dd_execute (example_world true false reply_accept) industry_dd) example_passed)
       !! dd_category industry_dd).
Proof.
  apply (dd_neutral_default (example_world true false reply_accept) industry_dd
           example_passed).
  - left.
  - reflexivity.
  - exact I.
Defined.

Lemma dd_records_model_scores_witness :
  dd_name team_dd
    ∈ completed_agents
        (_execute_wrapper (example_world true true reply_scores) (dd_name team_dd)
           (dd_execute (example_world true true reply_scores) team_dd) example_passed) ∧
  scores
    (_execute_wrapper (example_world true true reply_scores) (dd_name team_dd)
       (dd_execute (example_world true true reply_scores) team_dd) example_passed)
    !! dd_category team_dd
  = Some ({["overall" := PInt 9]} ∪ default ∅ (scores example_passed !! dd_category team_dd)).
Proof.
  apply (dd_records_model_scores (example_world true true reply_scores) team_dd
           example_passed (mkCompletion true reply_scores None)
           {["scores" := PDict {["overall" := PInt 9]}; "rationale" := PDict ∅]}
           {["overall" := PInt 9]} ∅).
  - reflexivity.
  - reflexivity.
  - reflexivity.
  - discriminate.
  - vm_compute. reflexivity.
  - reflexivity.
  - reflexivity.
  - reflexivity.
Defined.

Lemma rejection_report_written_once_witness :
  fst (report_generator_execute (example_world true true reply_reject) example_fresh) = Ok tt ∧
  has_report
    (snd (report_generator_execute (example_world true true reply_reject) example_fresh))
    = true ∧
  (has_report example_fresh = true →
   snd (report_generator_execute (example_world true true reply_reject) example_fresh)
     = example_fresh) ∧
  report_generator_execute (example_world false false reply_accept)
    (snd (report_generator_execute (example_world true true reply_reject) example_fresh))
  = (Ok tt,
     snd (report_generator_execute (example_world true true reply_reject) example_fresh)).
Proof.
  apply (rejection_report_written_once (example_world true true reply_reject)
           (example_world false false reply_accept) example_fresh).
  reflexivity.
Defined.

Lemma report_fails_on_non_numeric_overall_witness :
  (∃ e, report_generator_execute (example_world true true reply_accept) example_text_score
        = (Raise e, example_text_score)) ∧
  final_report
    (_execute_wrapper (example_world true true reply_accept) "report_generator"
       (report_generator_execute (example_world true true reply_accept)) example_text_score)
    = final_report example_text_score ∧
  completed_agents
    (_execute_wrapper (example_world true true reply_accept) "report_generator"
       (report_generator_execute (example_world true true reply_accept)) example_text_score)
    = completed_agents example_text_score ∧
  current_agent
    (_execute_wrapper (example_world true true reply_accept) "report_generator"
       (report_generator_execute (example_world true true reply_accept)) example_text_score)
    = "report_generator_error".
Proof.
  apply (report_fails_on_non_numeric_overall (example_world true true reply_accept)
           example_text_score "industry" (PStr "8")).
  - reflexivity.
  - left.
  - reflexivity.
  - reflexivity.
Defined.

End Stages.

(** ** The sources section of the report (src/report/report_generator.py) *)

Module SourcesSection.
Import State.

(** [queries[query].append(source)], after [queries[query] = []] when the
    query is new: the dict [queries] as its items in insertion order. *)
Fixpoint add_to_group (source : SearchSource) (queries : list (string * list SearchSource))
    : list (string * list SearchSource) :=
  match queries with
  | [] => [(query source, [source])]
  | (q, query_sources) :: rest =>
      if String.eqb q (query source)
      then (q, (query_sources ++ [source])%list) :: rest
      else (q, query_sources) :: add_to_group source rest
  end.

Definition group_by_query (sources : list SearchSource)
    : list (string * list SearchSource) :=
  foldl (fun queries source => add_to_group source queries) [] sources.

(** The sources listed under each query: [query_sources[:3]]. *)
Definition listed (sources : list SearchSource) : list (string * list SearchSource) :=
  (fun group => (group.1, take 3 group.2)) <$> group_by_query sources.

Definition newline : string := String "010"%char EmptyString.

Fixpoint join (sep : string) (lines : list string) : string :=
  match lines with
  | [] => EmptyString
  | [line] => line
  | line :: rest => line ++ sep ++ join sep rest
  end.

Section Format.

(** [f"{confidence:.1f}"] *)
Variable format_confidence : float -> string.

Definition source_line (i : nat) (source : SearchSource) : string :=
  pretty i ++ ". [" ++ url source ++ "](" ++ url source ++ ") (置信度: "
    ++ format_confidence (confidence source) ++ ")".

Definition group_lines (group : string * list SearchSource) : list string :=
  ("### " ++ group.1)
    :: (imap (fun i source => source_line (S i) source) group.2 ++ [EmptyString])%list.

(** [ReportGeneratorAgent._generate_sources_section] *)
Definition _generate_sources_section (sources : list SearchSource) : string :=
  let section := ["## 📚 信息来源"; EmptyString] in
  match sources with
  | [] => join newline (section ++ ["无外部信息来源"])
  | _ => join newline (section ++ concat (group_lines <$> listed sources))
  end.

End Format.

(** The sources of one query, in the order they were recorded. *)
Definition of_query (q : string) (sources : list SearchSource) : list SearchSource :=
  filter (fun source => query source = q) sources.

Lemma add_to_group_keys source queries :
  (add_to_group source queries).*1 =
  if bool_decide (query source ∈ queries.*1) then queries.*1
  else (queries.*1 ++ [query source])%list.
Proof.
  induction queries as [|[q l] rest IH]; [done|].
  cbn [add_to_group]. destruct (String.eqb_spec q (query source)) as [->|Hne].
  - cbn [fmap list_fmap fst]. rewrite bool_decide_eq_true_2; [done | left].
  - cbn [fmap list_fmap fst] in *. rewrite IH.
    destruct (bool_decide (query source ∈ rest.*1)) eqn:Hin.
    + apply bool_decide_eq_true in Hin. rewrite bool_decide_eq_true_2; [done | by right].
    + apply bool_decide_eq_false in Hin. rewrite bool_decide_eq_false_2; [done|].
      intros [?|?]%elem_of_cons; [by apply Hne | done].
Qed.

Lemma add_to_group_lookup source queries q l :
  NoDup queries.*1 →
  (q, l) ∈ add_to_group source queries ↔
  (q ≠ query source ∧ (q, l) ∈ queries) ∨
  (q = query source ∧
   ((∃ l0, (q, l0) ∈ queries ∧ l = (l0 ++ [source])%list) ∨
    ((q ∉ queries.*1) ∧ l = [source]))).
Proof.
  induction queries as [|[q' l'] rest IH]; intros Hnodup.
  - cbn [add_to_group]. rewrite list_elem_of_singleton. split.
    + intros [= -> ->]. right. split; [done|]. right. split; [apply not_elem_of_nil | done].
    + intros [[_ Hin]|[-> [(l0 & Hin & _)|[_ ->]]]]; [by apply elem_of_nil in Hin | | done].
      by apply elem_of_nil in Hin.
  - cbn [fmap list_fmap fst] in Hnodup. apply NoDup_cons in Hnodup as [Hfresh Hnodup].
    specialize (IH Hnodup). cbn [add_to_group].
    assert (Hkey : ∀ l0, (q', l0) ∈ rest → False).
    { intros l0 Hin. apply Hfresh. apply list_elem_of_fmap. by exists (q', l0). }
    destruct (String.eqb_spec q' (query source)) as [Heq|Hne].
    + split.
      * intros [Hhead|Hin]%elem_of_cons.
        -- injection Hhead as -> ->. right. split; [done|]. left. exists l'.
           split; [left | done].
        -- left. split; [|by right]. intros ->. rewrite <- Heq in Hin. by apply (Hkey l).
      * intros [[Hq Hin]|[Hq [(l0 & Hin & ->)|[Hout ->]]]].
        -- apply elem_of_cons in Hin as [Hhead|Hin]; [|by right].
           injection Hhead as -> ->. done.
        -- apply elem_of_cons in Hin as [Hhead|Hin].
           ++ injection Hhead as -> ->. left.
           ++ exfalso. rewrite Hq, <- Heq in Hin. by apply (Hkey l0).
        -- exfalso. apply Hout. cbn [fmap list_fmap fst]. rewrite Hq, <- Heq. left.
    + split.
      * intros [Hhead|Hin]%elem_of_cons.
        -- injection Hhead as -> ->. left. split; [done | left].
        -- apply IH in Hin as [[Hq Hin]|[Hq [(l0 & Hin & ->)|[Hout ->]]]].
           ++ left. split; [done | by right].
           ++ right. split; [done|]. left. exists l0. split; [by right | done].
           ++ right. split; [done|]. right. split; [|done].
              cbn [fmap list_fmap fst]. intros [Hq'|Hin]%elem_of_cons; [|done].
              apply Hne. congruence.
      * intros [[Hq Hin]|[Hq [(l0 & Hin & ->)|[Hout ->]]]].
        -- apply elem_of_cons in Hin as [Hhead|Hin]; [rewrite Hhead; left|].
           right. apply IH. left. by split.
        -- apply elem_of_cons in Hin as [Hhead|Hin].
           ++ injection Hhead as -> ->. done.
           ++ right. apply IH. right. split; [done|]. left. by exists l0.
        -- right. apply IH. right. split; [done|]. right. split; [|done].
           intros Hin. apply Hout. cbn [fmap list_fmap fst]. by right.
Qed.

(** The invariant of the grouping loop. *)
Definition grouped (sources : list SearchSource) (queries : list (string * list SearchSource))
    : Prop :=
  NoDup queries.*1 ∧
  ∀ q l, (q, l) ∈ queries ↔ l = of_query q sources ∧ l ≠ [].

Lemma grouped_step sources queries source :
  grouped sources queries →
  grouped (sources ++ [source]) (add_to_group source queries).
Proof.
  intros [Hnodup Hgroups]. split.
  - rewrite add_to_group_keys. destruct (bool_decide _) eqn:Hin; [done|].
    apply bool_decide_eq_false in Hin. apply NoDup_app. split; [done|].
    split; [|apply NoDup_singleton]. by intros x Hx ->%list_elem_of_singleton.
  - intros q l. rewrite (add_to_group_lookup source queries q l Hnodup).
    unfold of_query. rewrite filter_app, filter_cons, filter_nil.
    fold (of_query q sources). split.
    + intros [[Hq Hin]|[-> [(l0 & Hin & ->)|[Hout ->]]]].
      * apply Hgroups in Hin as [-> Hne].
        rewrite decide_False by done. by rewrite app_nil_r.
      * apply Hgroups in Hin as [-> Hne]. rewrite decide_True by done.
        split; [done|]. by intros [? ?]%app_eq_nil.
      * rewrite decide_True by done. split; [|done].
        destruct (of_query (query source) sources) as [|s l] eqn:Hl; [done|].
        exfalso. apply Hout. apply list_elem_of_fmap.
        exists (query source, s :: l). split; [done|]. apply Hgroups. by rewrite Hl.
    + intros [-> Hne]. destruct (decide (query source = q)) as [Hq|Hq].
      * right. split; [done|]. subst q.
        destruct (of_query (query source) sources) as [|s l] eqn:Hl.
        -- right. split; [|done]. intros (p & Hp & Hin)%list_elem_of_fmap.
           destruct p as [q l]. cbn in Hp. subst q.
           apply Hgroups in Hin as [-> Hne']. by rewrite Hl in Hne'.
        -- left. exists (s :: l). split; [|done]. apply Hgroups. by rewrite Hl.
      * left. split; [done|]. apply Hgroups. by rewrite app_nil_r in Hne |- *.
Qed.

Lemma group_by_query_grouped sources : grouped sources (group_by_query sources).
Proof.
  unfold group_by_query.
  assert (H : ∀ done queries, grouped done queries →
            grouped (done ++ sources)
                    (foldl (fun queries source => add_to_group source queries)
                           queries sources)).
  { induction sources as [|source rest IH]; intros done queries Hg; cbn [foldl].
    - by rewrite app_nil_r.
    - change (source :: rest) with ([source] ++ rest)%list. rewrite app_assoc.
      by apply IH, grouped_step. }
  apply (H [] []). split; [constructor|].
  intros q l. split; [by intros ?%elem_of_nil | by intros [-> ?]].
Qed.

(** X25. The sources section of the report lists the evidence by query:
    every query for which there is evidence has one heading, and only such
    queries have one; under it come the first three records of that query, in
    the order they were recorded, so between one and three. *)
Theorem sources_listed_by_query (sources : list SearchSource) :
  NoDup (listed sources).*1 ∧
  (∀ source, source ∈ sources → query source ∈ (listed sources).*1) ∧
  (∀ q l, (q, l) ∈ listed sources →
     q ∈ query <$> sources ∧ l = take 3 (of_query q sources) ∧ (0 < length l <= 3)%nat).
Proof.
  destruct (group_by_query_grouped sources) as [Hnodup Hgroups].
  assert (Hkeys : (listed sources).*1 = (group_by_query sources).*1).
  { unfold listed. rewrite <- list_fmap_compose. done. }
  split; [by rewrite Hkeys|]. split.
  - intros source Hin. rewrite Hkeys. apply list_elem_of_fmap.
    exists (query source, of_query (query source) sources). split; [done|].
    apply Hgroups. split; [done|]. intros Hempty.
    assert (Hin' : source ∈ of_query (query source) sources)
      by (apply list_elem_of_filter; by split).
    rewrite Hempty in Hin'. by apply elem_of_nil in Hin'.
  - intros q l (group & [= -> ->] & Hin)%list_elem_of_fmap.
    destruct group as [q l]. cbn [fst snd]. apply Hgroups in Hin as [-> Hne].
    split; [|split; [done|]].
    + destruct (of_query q sources) as [|s l] eqn:Hl; [done|].
      assert (Hs : s ∈ of_query q sources) by (rewrite Hl; left).
      apply list_elem_of_filter in Hs as [<- Hs]. apply list_elem_of_fmap. by exists s.
    + rewrite length_take. destruct (of_query q sources); [done|]. cbn [length]. lia.
Qed.

End SourcesSection.

(** ** Enterprise data providers (src/services/enterprise_sources/manager.py) *)

Module EnterpriseSources.

(** [QueryResult] (src/services/enterprise_sources/__init__.py) *)
Record QueryResult := mkQueryResult {
  qr_success : bool;
  qr_data : gmap string pyval;
  qr_source : string;
  qr_timestamp : string;
  qr_error : option string;
}.

(** A provider, [EnterpriseDataSource]: its name and its four queries,
    each of which answers or raises. *)
Record EnterpriseDataSource := mkDataSource {
  source_name : string;
  query_basic_info : string -> Result QueryResult;
  query_financial_info : string -> Result QueryResult;
  query_legal_info : string -> Result QueryResult;
  query_investment_info : string -> Result QueryResult;
}.

(** [QueryResult(success=False, data={}, source=source.name,
    timestamp=datetime.now().isoformat(), error=msg)] *)
Definition failed (now : string) (source : EnterpriseDataSource) (msg : string)
    : QueryResult :=
  mkQueryResult false ∅ (source_name source) now (Some msg).

(** The [try] of [EnterpriseSourceManager._query_from_source]: the query
    that goes with [info_type], or a failure record for a type that is none of
    the four. [now] is the clock reading as text. *)
Definition ask (now : string) (source : EnterpriseDataSource)
    (company_name info_type : string) : Result QueryResult :=
  if String.eqb info_type "basic" then query_basic_info source company_name
  else if String.eqb info_type "financial" then query_financial_info source company_name
  else if String.eqb info_type "legal" then query_legal_info source company_name
  else if String.eqb info_type "investment" then query_investment_info source company_name
  else Ok (failed now source ("不支持的查询类型: " ++ info_type)).

(** [EnterpriseSourceManager._query_from_source] *)
Definition _query_from_source (now : string) (source : EnterpriseDataSource)
    (company_name info_type : string) : QueryResult :=
  match ask now source company_name info_type with
  | Ok result => result
  | Raise e => failed now source (exn_str e)
  end.

(** [self.sources]: the registered providers, a dict given by its items
    in insertion order. *)
Definition Sources : Type := list (string * EnterpriseDataSource).

Definition registered (sources : Sources) (name : string) : option EnterpriseDataSource :=
  snd <$> (snd <$> list_find (fun item => item.1 = name) sources).

(** What [asyncio.gather(..., return_exceptions=True)] hands back for one
    task: its result, or the exception it raised. *)
Definition gathered (task : Result QueryResult) : QueryResult + PyExn :=
  match task with Ok result => inl result | Raise e => inr e end.

(** [EnterpriseSourceManager.query_company_info]; [preferred_sources] is
    [None] or a list. *)
Definition query_company_info (now : string) (sources : Sources)
    (company_name info_type : string) (preferred_sources : option (list string))
    : list QueryResult :=
  let target_sources :=
    match preferred_sources with
    | Some (name :: names) => name :: names
    | _ => sources.*1
    end in
  let target_sources :=
    filter (fun name => is_Some (registered sources name)) target_sources in
  match target_sources with
  | [] => []
  | _ =>
      let tasks :=
        omap (fun name =>
                source ← registered sources name;
                Some (Ok (_query_from_source now source company_name info_type)))
             target_sources in
      let results := gathered <$> tasks in
      omap (fun result => match result with inl r => Some r | inr _ => None end) results
  end.

(** The dict [merge_results] returns. *)
Record Merged := mkMerged {
  merged_data : gmap string pyval;
  sources_info : list (string * string * bool * option string);
  total_sources : nat;
  successful_sources : nat;
}.

(** [EnterpriseSourceManager.merge_results] *)
Definition merge_results (results : list QueryResult) : Merged :=
  let '(merged_data, sources_info) :=
    foldl (fun '(merged_data, sources_info) result =>
             if qr_success result
             then (qr_data result ∪ merged_data,
                   (sources_info ++ [(qr_source result, qr_timestamp result, true, None)])%list)
             else (merged_data,
                   (sources_info ++ [(qr_source result, qr_timestamp result, false,
                                      qr_error result)])%list))
          (∅, []) results in
  mkMerged merged_data sources_info (length results)
           (length (filter (fun r => qr_success r = true) results)).

(** The providers a query goes to. *)
Definition targets (sources : Sources) (preferred_sources : option (list string))
    : list EnterpriseDataSource :=
  omap (registered sources)
       (match preferred_sources with
        | Some (name :: names) => name :: names
        | _ => sources.*1
        end).

Lemma omap_filter_is_Some {A B} (f : A -> option B) (l : list A) :
  omap f (filter (fun x => is_Some (f x)) l) = omap f l.
Proof.
  induction l as [|x l IH]; [done|]. rewrite filter_cons.
  destruct (decide (is_Some (f x))) as [Hx|Hx]; cbn [omap list_omap].
  - destruct (f x); by rewrite IH.
  - destruct (f x) as [y|]; [exfalso; apply Hx; by eexists | done].
Qed.

(** X26. [query_company_info] returns one record for every provider it
    asks, in the order asked: the providers named in [preferred_sources]
    (all registered ones when none is named) that are registered. No record is
    dropped and nothing is raised, whatever the providers do: a provider that
    answers contributes its answer, and a provider that raises contributes a
    failure record with its own name and the text of the exception, without
    effect on the records of the others. *)
Theorem query_company_info_per_provider (now : string) (sources : Sources)
    (company_name info_type : string) (preferred_sources : option (list string)) :
  query_company_info now sources company_name info_type preferred_sources
    = (fun source =>
         match ask now source company_name info_type with
         | Ok result => result
         | Raise e => mkQueryResult false ∅ (source_name source) now (Some (exn_str e))
         end) <$> targets sources preferred_sources ∧
  length (query_company_info now sources company_name info_type preferred_sources)
    = length (targets sources preferred_sources).
Proof.
  assert (Hmap :
    query_company_info now sources company_name info_type preferred_sources
    = (fun source => _query_from_source now source company_name info_type)
        <$> targets sources preferred_sources).
  { unfold query_company_info, targets.
    set (wanted := match preferred_sources with
                   | Some (name :: names) => name :: names
                   | _ => sources.*1
                   end).
    rewrite <- (omap_filter_is_Some (registered sources) wanted).
    destruct (filter _ wanted) as [|name names]; [done|].
    generalize (name :: names). clear. intros l.
    induction l as [|x l IH]; [done|]. cbn [omap list_omap].
    destruct (registered sources x) as [source|]; cbn; [by rewrite <- IH | exact IH]. }
  split; [exact Hmap|]. by rewrite Hmap, length_fmap.
Qed.

(** The last successful result that carries [key]. *)
Fixpoint last_success (key : string) (results : list QueryResult) : option pyval :=
  match results with
  | [] => None
  | result :: rest =>
      match last_success key rest with
      | Some v => Some v
      | None => if qr_success result then qr_data result !! key else None
      end
  end.

Lemma merge_loop results : ∀ merged info,
  foldl (fun '(merged_data, sources_info) result =>
           if qr_success result
           then (qr_data result ∪ merged_data,
                 (sources_info ++ [(qr_source result, qr_timestamp result, true, None)])%list)
           else (merged_data,
                 (sources_info ++ [(qr_source result, qr_timestamp result, false,
                                    qr_error result)])%list))
        (merged, info) results
  = (foldl (fun merged_data result =>
              if qr_success result then qr_data result ∪ merged_data else merged_data)
           merged results,
     (info ++ ((fun result => (qr_source result, qr_timestamp result, qr_success result,
                                if qr_success result then None else qr_error result))
                 <$> results))%list).
Proof.
  induction results as [|result rest IH]; intros merged info; cbn [foldl].
  - by rewrite app_nil_r.
  - destruct (qr_success result) eqn:Hs; rewrite IH, fmap_cons, Hs, <- app_assoc; done.
Qed.

Lemma merged_lookup key results : ∀ merged : gmap string pyval,
  foldl (fun merged_data result =>
           if qr_success result then qr_data result ∪ merged_data else merged_data)
        merged results !! key
  = match last_success key results with
    | Some v => Some v
    | None => merged !! key
    end.
Proof.
  induction results as [|result rest IH]; intros merged; cbn [foldl last_success]; [done|].
  rewrite IH. destruct (last_success key rest); [done|].
  destruct (qr_success result); [|done].
  rewrite lookup_union. destruct (qr_data result !! key), (merged !! key); done.
Qed.

(** X27. [merge_results] merges the data of the successful results in
    order, so that for every key the value of the last successful result that
    carries it wins, and failed results contribute no data. It lists one
    source entry per result, in order, with the error of those that failed;
    [total_sources] is the number of results and [successful_sources], the
    number of successful ones, is no more; with no successful result the
    merged data is empty. *)
Theorem merge_results_last_wins (results : list QueryResult) :
  (∀ key, merged_data (merge_results results) !! key = last_success key results) ∧
  sources_info (merge_results results)
    = (fun result => (qr_source result, qr_timestamp result, qr_success result,
                      if qr_success result then None else qr_error result)) <$> results ∧
  total_sources (merge_results results) = length results ∧
  successful_sources (merge_results results) <= total_sources (merge_results results) ∧
  (successful_sources (merge_results results) = 0 → merged_data (merge_results results) = ∅).
Proof.
  unfold merge_results. rewrite merge_loop. cbn [merged_data sources_info total_sources
                                                   successful_sources app].
  assert (Hlookup : ∀ key,
    foldl (fun merged_data result =>
             if qr_success result then qr_data result ∪ merged_data else merged_data)
          ∅ results !! key = last_success key results).
  { intros key. rewrite merged_lookup, lookup_empty. by destruct (last_success key results). }
  split; [exact Hlookup|]. split; [done|]. split; [done|].
  split; [apply length_filter|].
  intros Hnone. apply map_eq. intros key. rewrite Hlookup, lookup_empty.
  apply length_zero_iff_nil in Hnone.
  assert (Hall : Forall (fun r => qr_success r = false) results).
  { apply Forall_forall. intros r Hr. destruct (qr_success r) eqn:Hs; [|done].
    assert (Hin : r ∈ filter (fun r => qr_success r = true) results)
      by (by apply list_elem_of_filter).
    rewrite Hnone in Hin. by apply elem_of_nil in Hin. }
  clear Hnone Hlookup. induction Hall as [|r rest Hr _ IH]; cbn [last_success]; [done|].
  by rewrite IH, Hr.
Qed.

End EnterpriseSources.

(** ** The search back ends (src/services/utils.py) *)

Module Retriever.
Import Agents.

(** One entry of [data["results"]] of the Tavily answer and of
    [data["organic"]] of the Serper answer; a key may be missing. *)
Record TavilyItem := mkTavilyItem {
  tavily_title : option string;
  tavily_url : option string;
  tavily_content : option string;
  tavily_score : option float;
}.

Record SerperItem := mkSerperItem {
  serper_title : option string;
  serper_link : option string;
  serper_snippet : option string;
}.

(** [MultiSourceRetriever]: its configuration, and what posting a query to
    each service gives: the status and the entries of the answer, or an
    exception (no connection, a timeout, an answer that is no JSON). *)
Record MultiSourceRetriever := mkRetriever {
  tavily_api_key : string;
  serper_api_key : string;
  max_results : Z;
  post_tavily : string -> Result (Z * list TavilyItem);
  post_serper : string -> Result (Z * list SerperItem);
}.

(** [_search_tavily] and [_search_serper]: whatever goes wrong, an empty
    list. *)
Definition _search_tavily (r : MultiSourceRetriever) (query : string) : list SearchHit :=
  match post_tavily r query with
  | Ok (status, items) =>
      if (status =? 200)%Z then
        (fun item =>
           mkHit (default EmptyString (tavily_title item))
                 (default EmptyString (tavily_url item))
                 (default EmptyString (tavily_content item))
                 (default 0.7%float (tavily_score item))
                 "tavily") <$> items
      else []
  | Raise _ => []
  end.

Definition _search_serper (r : MultiSourceRetriever) (query : string) : list SearchHit :=
  match post_serper r query with
  | Ok (status, items) =>
      if (status =? 200)%Z then
        (fun item =>
           mkHit (default EmptyString (serper_title item))
                 (default EmptyString (serper_link item))
                 (default EmptyString (serper_snippet item))
                 0.8%float
                 "serper") <$> items
      else []
  | Raise _ => []
  end.

(** [_fallback_search] *)
Definition _fallback_search (query : string) : list SearchHit :=
  [mkHit ("关于" ++ query ++ "的基本信息") "https://example.com"
     (query ++ "是一家公司，相关信息需要进一步调研。建议通过其他渠道获取更多详细信息。")
     0.3%float "fallback";
   mkHit (query ++ "投资分析") "https://example.com/analysis"
     ("对" ++ query ++ "的投资分析需要更多可靠数据源。请配置有效的搜索API以获取准确信息。")
     0.3%float "fallback"].

(** [l[:n]] *)
Definition slice_to {A} (n : Z) (l : list A) : list A :=
  if (0 <=? n)%Z then take (Z.to_nat n) l
  else take (length l - Z.to_nat (- n)) l.

(** The task started for one entry of [sources], if any. *)
Definition task (r : MultiSourceRetriever) (query source : string)
    : option (list SearchHit) :=
  if String.eqb source "tavily" && negb (String.eqb (tavily_api_key r) "")
  then Some (_search_tavily r query)
  else if String.eqb source "serper" && negb (String.eqb (serper_api_key r) "")
  then Some (_search_serper r query)
  else None.

(** [MultiSourceRetriever.search_multiple_sources] *)
Definition search_multiple_sources (r : MultiSourceRetriever) (query : string)
    (sources : option (list string)) : list SearchHit :=
  let sources := default ["tavily"; "serper"] sources in
  let tasks := omap (task r query) sources in
  match tasks with
  | [] => _fallback_search query
  | _ => slice_to (max_results r) (concat tasks)
  end.

Lemma slice_to_sublist {A} n (l : list A) : slice_to n l `sublist_of` l.
Proof. unfold slice_to. destruct (0 <=? n)%Z; apply sublist_take. Qed.

Lemma slice_to_length {A} n (l : list A) :
  (0 <= n)%Z → (Z.of_nat (length (slice_to n l)) <= n)%Z.
Proof.
  intros Hn. unfold slice_to. destruct (Z.leb_spec 0 n); [|lia].
  rewrite length_take. lia.
Qed.

Lemma task_tagged r query source hits :
  task r query source = Some hits →
  Forall (fun hit => hit_source hit ∈ ["tavily"; "serper"]) hits.
Proof.
  unfold task, _search_tavily, _search_serper.
  destruct (_ && _).
  - intros [= <-]. destruct (post_tavily r query) as [[status items]|e]; [|done].
    destruct (status =? 200)%Z; [|done].
    apply Forall_fmap, Forall_forall. intros item _. cbn. left.
  - destruct (_ && _); [|discriminate].
    intros [= <-]. destruct (post_serper r query) as [[status items]|e]; [|done].
    destruct (status =? 200)%Z; [|done].
    apply Forall_fmap, Forall_forall. intros item _. cbn. right. left.
Qed.

Lemma no_key_no_task r query :
  tavily_api_key r = "" → serper_api_key r = "" →
  ∀ sources, omap (task r query) sources = [].
Proof.
  intros Ht Hs. induction sources as [|source sources IH]; [done|].
  cbn [omap list_omap]. unfold task at 1. rewrite Ht, Hs. cbn. by rewrite !andb_false_r.
Qed.

(** The service did not answer the query with status 200: posting raised
    (no connection, a timeout, an answer that is no JSON), or the answer has
    another status. *)
Definition service_failed {A} (answer : Result (Z * list A)) : Prop :=
  match answer with
  | Ok (status, _) => status ≠ 200%Z
  | Raise _ => True
  end.

Lemma _search_tavily_failed r query :
  service_failed (post_tavily r query) → _search_tavily r query = [].
Proof.
  unfold service_failed, _search_tavily.
  destruct (post_tavily r query) as [[status items]|e]; [|done].
  intros Hstatus. by destruct (Z.eqb_spec status 200).
Qed.

Lemma _search_serper_failed r query :
  service_failed (post_serper r query) → _search_serper r query = [].
Proof.
  unfold service_failed, _search_serper.
  destruct (post_serper r query) as [[status items]|e]; [|done].
  intros Hstatus. by destruct (Z.eqb_spec status 200).
Qed.

Lemma _search_tavily_tagged r query :
  Forall (fun hit => hit_source hit = "tavily") (_search_tavily r query).
Proof.
  unfold _search_tavily. destruct (post_tavily r query) as [[status items]|e]; [|done].
  destruct (status =? 200)%Z; [|done].
  apply Forall_fmap, Forall_forall. by intros item _.
Qed.

Lemma _search_serper_tagged r query :
  Forall (fun hit => hit_source hit = "serper") (_search_serper r query).
Proof.
  unfold _search_serper. destruct (post_serper r query) as [[status items]|e]; [|done].
  destruct (status =? 200)%Z; [|done].
  apply Forall_fmap, Forall_forall. by intros item _.
Qed.

Lemma elem_of_concat {A} (x : A) (ls : list (list A)) :
  x ∈ concat ls → ∃ l, x ∈ l ∧ l ∈ ls.
Proof.
  induction ls as [|l ls IH]; cbn [concat]; [by intros ?%elem_of_nil|].
  rewrite elem_of_app. intros [Hin|Hin].
  - exists l. split; [done | left].
  - destruct (IH Hin) as (l' & Hx & Hl). exists l'. split; [done | by right].
Qed.

Lemma task_cases r query source hits :
  task r query source = Some hits →
  hits = _search_tavily r query ∨ hits = _search_serper r query.
Proof.
  unfold task. destruct (_ && _); [intros [= <-]; by left|].
  destruct (_ && _); [intros [= <-]; by right | discriminate].
Qed.

(** Every hit of the answer is a stand-in hit, or a hit that one of the
    two services returned. *)
Lemma search_multiple_sources_hits r query sources hit :
  hit ∈ search_multiple_sources r query sources →
  hit ∈ _fallback_search query ∨ hit ∈ _search_tavily r query ∨ hit ∈ _search_serper r query.
Proof.
  unfold search_multiple_sources.
  destruct (omap (task r query) (default ["tavily"; "serper"] sources))
    as [|hits rest] eqn:Htasks; [by left|].
  intros Hin. right.
  assert (Hin' : hit ∈ concat (hits :: rest))
    by (eapply elem_of_sublist; [exact Hin | apply slice_to_sublist]).
  rewrite <- Htasks in Hin'.
  apply elem_of_concat in Hin' as (l & Hhit & Hl).
  apply list_elem_of_omap in Hl as (source & _ & Htask).
  destruct (task_cases r query source l Htask) as [->| ->]; auto.
Qed.

(** X28. [search_multiple_sources] answers in one of two ways. When no
    task was started (no key is configured for a service that was asked for),
    the answer is the pair of stand-in hits of [_fallback_search], with score
    0.3 and source [fallback], whatever [max_results] is. Otherwise every hit
    comes from Tavily or Serper and is tagged so, and with a [max_results]
    that is not negative there are at most [max_results] hits. In particular,
    without any key the answer is the stand-in pair. A service that fails
    (posting the query raises, or the answer has a status other than 200)
    contributes nothing: its search gives the empty list, and no hit of the
    answer is tagged with its name; when tasks were started and both services
    fail, the answer is empty, not the stand-in pair. With both keys and the
    default sources, the answer is the hits of Tavily followed by those of
    Serper, cut to [max_results]. *)
Theorem search_multiple_sources_bounded (r : MultiSourceRetriever) (query : string)
    (sources : option (list string)) :
  ((omap (task r query) (default ["tavily"; "serper"] sources) = [] ∧
    search_multiple_sources r query sources = _fallback_search query)
   ∨
   (omap (task r query) (default ["tavily"; "serper"] sources) ≠ [] ∧
    Forall (fun hit => hit_source hit ∈ ["tavily"; "serper"])
           (search_multiple_sources r query sources) ∧
    ((0 <= max_results r)%Z →
     (Z.of_nat (length (search_multiple_sources r query sources)) <= max_results r)%Z))) ∧
  (tavily_api_key r = "" → serper_api_key r = "" →
   search_multiple_sources r query sources = _fallback_search query) ∧
  (service_failed (post_tavily r query) →
   _search_tavily r query = [] ∧
   Forall (fun hit => hit_source hit ≠ "tavily") (search_multiple_sources r query sources)) ∧
  (service_failed (post_serper r query) →
   _search_serper r query = [] ∧
   Forall (fun hit => hit_source hit ≠ "serper") (search_multiple_sources r query sources)) ∧
  (omap (task r query) (default ["tavily"; "serper"] sources) ≠ [] →
   service_failed (post_tavily r query) → service_failed (post_serper r query) →
   search_multiple_sources r query sources = []) ∧
  (tavily_api_key r ≠ "" → serper_api_key r ≠ "" →
   search_multiple_sources r query None
   = slice_to (max_results r) (_search_tavily r query ++ _search_serper r query)%list).
Proof.
  assert (Hfallback : Forall (fun hit => hit_source hit = "fallback") (_fallback_search query)).
  { unfold _fallback_search. by repeat constructor. }
  assert (Hparts : ∀ hit, hit ∈ search_multiple_sources r query sources →
            hit_source hit = "fallback" ∨
            (hit ∈ _search_tavily r query ∧ hit_source hit = "tavily") ∨
            (hit ∈ _search_serper r query ∧ hit_source hit = "serper")).
  { intros hit [Hin|[Hin|Hin]]%search_multiple_sources_hits.
    - left. eapply Forall_forall in Hfallback; [exact Hfallback | exact Hin].
    - right. left. split; [done|].
      eapply (proj1 (Forall_forall _ _) (_search_tavily_tagged r query)), Hin.
    - right. right. split; [done|].
      eapply (proj1 (Forall_forall _ _) (_search_serper_tagged r query)), Hin. }
  split; [|split; [|split; [|split; [|split]]]].
  - unfold search_multiple_sources.
    destruct (omap (task r query) (default ["tavily"; "serper"] sources))
      as [|hits rest] eqn:Htasks; [by left|].
    right. split; [done|]. split.
    + assert (Hall : Forall (fun hit => hit_source hit ∈ ["tavily"; "serper"])
                            (concat (hits :: rest))).
      { rewrite <- Htasks. apply Forall_concat, Forall_forall.
        intros l (source & _ & Htask)%list_elem_of_omap.
        by apply (task_tagged r query source). }
      eapply Forall_forall. intros hit Hin.
      eapply Forall_forall in Hall; [exact Hall|].
      eapply elem_of_sublist; [exact Hin | apply slice_to_sublist].
    + apply slice_to_length.
  - intros Ht Hs. unfold search_multiple_sources.
    by rewrite (no_key_no_task r query Ht Hs).
  - intros Hfailed. pose proof (_search_tavily_failed r query Hfailed) as Hnone.
    split; [exact Hnone|]. apply Forall_forall. intros hit Hin.
    destruct (Hparts hit Hin) as [Htag|[[Hhit _]|[_ Htag]]].
    + by rewrite Htag.
    + rewrite Hnone in Hhit. by apply elem_of_nil in Hhit.
    + by rewrite Htag.
  - intros Hfailed. pose proof (_search_serper_failed r query Hfailed) as Hnone.
    split; [exact Hnone|]. apply Forall_forall. intros hit Hin.
    destruct (Hparts hit Hin) as [Htag|[[_ Htag]|[Hhit _]]].
    + by rewrite Htag.
    + by rewrite Htag.
    + rewrite Hnone in Hhit. by apply elem_of_nil in Hhit.
  - intros Htasks Htavily Hserper.
    destruct (search_multiple_sources r query sources) as [|hit hits] eqn:Hanswer; [done|].
    exfalso.
    assert (Hin : hit ∈ search_multiple_sources r query sources)
      by (rewrite Hanswer; left).
    unfold search_multiple_sources in Hin.
    destruct (omap (task r query) (default ["tavily"; "serper"] sources))
      as [|l rest] eqn:Hl; [done|].
    assert (Hin' : hit ∈ concat (l :: rest))
      by (eapply elem_of_sublist; [exact Hin | apply slice_to_sublist]).
    rewrite <- Hl in Hin'.
    apply elem_of_concat in Hin' as (l' & Hhit & Hl').
    apply list_elem_of_omap in Hl' as (source & _ & Htask).
    destruct (task_cases r query source l' Htask) as [->| ->].
    + rewrite (_search_tavily_failed r query Htavily) in Hhit. by apply elem_of_nil in Hhit.
    + rewrite (_search_serper_failed r query Hserper) in Hhit. by apply elem_of_nil in Hhit.
  - intros Ht Hs. unfold search_multiple_sources. cbn [default omap list_omap].
    unfold task. cbn [String.eqb Ascii.eqb Bool.eqb andb].
    apply String.eqb_neq in Ht, Hs. rewrite Ht, Hs. cbn.
    by rewrite app_nil_r.
Qed.

(** A retriever with both keys, whose first service times out and whose
    second answers with one entry: the answer is that entry, tagged
    [serper]. *)
Definition example_retriever : MultiSourceRetriever :=
  mkRetriever "key-1" "key-2" 10
    (fun _ => Raise (mkExn "TimeoutError" "timed out"))
    (fun _ => Ok (200%Z, [mkSerperItem (Some "Acme") (Some "https://acme.example") None])).

Lemma search_multiple_sources_example :
  search_multiple_sources example_retriever "Acme" None
  = [mkHit "Acme" "https://acme.example" "" 0.8%float "serper"].
Proof. reflexivity. Qed.

End Retriever.
